(** * American roulette: betting and payout engine

    A shallow embedding of the core of the roulette game
    (roulette-config.js, game-state.js, bet-manager.js and
    payout-calculator.js) together with the properties its design
    document states about it, and of what the components around the
    core compute: the round of app.js, the cells and the click handler
    of betting-table.js, the chip fallback of chip-selector.js and the
    array and time helpers of helpers.js.

    Modelling conventions.
    - A JavaScript value is a term of [Js.value].  Numbers that take part
      in stake and balance arithmetic are the integer-valued doubles, on
      which [+], [-], [*] and the comparisons are exact; they are carried
      as [Z].  [NaN] and the non-numeric values are kept as separate
      constructors so that the [typeof] / [isNaN] guards of the source
      have something to reject.
    - The analytic function that divides ([calculateHouseEdge]) is given
      twice: on binary64 floats, as the source computes it, and on
      rationals, as the formula reads.
    - The singleton game state is an explicit record that every
      operation receives and returns.  Listener notification ([emit]) and
      persistence ([saveBalance], [saveHistory]) do not feed back into
      the state and are left out, as are the user settings.
    - An array is a list, so the [Array.isArray] guard always passes.
    - [Date.now()] and [Math.random()], used only to stamp a new bet, are
      drawn from a counter carried by the state.
    - An object literal used as a dictionary is a finite map over its own
      keys.
    - A DOM element is the record of the [dataset] entries and classes
      the code reads back; a loop that need not end takes the number of
      rounds it may run and returns [None] when they run out. *)

From Stdlib Require Import ZArith QArith Qabs Floats Lia Ascii.
From stdpp Require Import base decidable option list sorting gmap strings pretty.

Local Open Scope Z_scope.

(** ** JavaScript values and the array methods the core relies on *)
Module Js.

Inductive value : Type :=
| VNum (n : Z)
| VNaN
| VStr (s : string)
| VBool (b : bool)
| VNull
| VUndefined.

#[global] Instance value_eq_dec : EqDecision value.
Proof. solve_decision. Defined.

(** [SameValueZero], the comparison behind [Array.prototype.includes]
    and [Set]: on this value type it is structural equality (NaN is
    equal to itself, and the two zeros are one integer). *)
Definition sameValueZero (x y : value) : bool := bool_decide (x = y).

(** [arr.includes(x)] *)
Definition includes (arr : list value) (x : value) : bool :=
  existsb (sameValueZero x) arr.

(** [[...new Set(arr)]]: the elements in order of first insertion. *)
Fixpoint setAddAll (seen arr : list value) : list value :=
  match arr with
  | [] => seen
  | x :: rest =>
      if includes seen x then setAddAll seen rest
      else setAddAll (seen ++ [x]) rest
  end.

Definition spreadSet (arr : list value) : list value := setAddAll [] arr.

(** [typeof v === 'number' && !isNaN(v)], and the number itself.
    [asNumber] is only applied to values that passed such a guard. *)
Definition asNumber (v : value) : Z :=
  match v with VNum n => n | _ => 0 end.

(** [[...nums].sort((x, y) => x - y)] on numbers: the ascending
    rearrangement (the engine's sort is a stable merge sort). *)
Definition sortAscending (nums : list Z) : list Z := merge_sort Z.le nums.

(** [a % b] truncates towards zero and takes the sign of [a]. *)
Definition remainder (a b : Z) : Z := Z.rem a b.

(** [expected.every((val, idx) => val === sorted[idx])]; an index past
    the end of [sorted] reads [undefined], which equals no number. *)
Definition everyMatchesAt (expected sorted : list Z) : bool :=
  forallb (fun p : nat * Z => bool_decide (sorted !! p.1 = Some p.2))
          (imap pair expected).

(** [arr.reduce((sum, x) => sum + f(x), 0)] *)
Definition reduceSum {A} (f : A -> Z) (arr : list A) : Z :=
  fold_left (fun sum x => sum + f x) arr 0.

(** [x === y] on these values: structural equality, except that NaN
    equals nothing. *)
Definition strictEquals (x y : value) : bool :=
  match x with
  | VNaN => false
  | _ => bool_decide (x = y)
  end.

(** [arr.indexOf(x)]: the first index holding a value strictly equal
    to [x], or -1. *)
Fixpoint indexOfFrom (i : Z) (arr : list value) (x : value) : Z :=
  match arr with
  | [] => -1
  | y :: rest => if strictEquals y x then i else indexOfFrom (i + 1) rest x
  end.

Definition indexOf (arr : list value) (x : value) : Z := indexOfFrom 0 arr x.

(** The property key a value is turned into when it indexes an object
    ([String(v)]); an integer gives its decimal digits. *)
Definition toPropertyKey (v : value) : string :=
  match v with
  | VNum n => pretty n
  | VNaN => "NaN"
  | VStr s => s
  | VBool true => "true"
  | VBool false => "false"
  | VNull => "null"
  | VUndefined => "undefined"
  end.

(** [arr[i]]: the element, or [undefined] past the end. *)
Definition at_ (arr : list value) (i : Z) : value :=
  if i <? 0 then VUndefined else default VUndefined (arr !! Z.to_nat i).

(** [arr.sort((a, b) => a - b)] on an array of numbers and [undefined]:
    [undefined] is never passed to the comparison and goes last. *)
Definition sortNumbers (arr : list value) : list value :=
  map VNum (sortAscending
              (omap (fun v => match v with VNum n => Some n | _ => None end) arr)) ++
  List.filter (fun v => bool_decide (v = VUndefined)) arr.

(** The digits of a decimal numeral, most significant first. *)
Definition digitOf (c : Ascii.ascii) : option Z :=
  let n := Z.of_nat (Ascii.nat_of_ascii c) in
  if (48 <=? n) && (n <=? 57) then Some (n - 48) else None.

Fixpoint readDigits (s : string) (acc : option Z) : option Z :=
  match s with
  | EmptyString => acc
  | String c rest =>
      match digitOf c with
      | Some d => readDigits rest (Some (10 * default 0 acc + d))
      | None => acc
      end
  end.

(** [parseInt(s)] on a string that starts with an optional sign and
    decimal digits: the digits read up to the first other character,
    NaN when there is none.  (Leading white space and the [0x] prefix
    are not covered.) *)
Definition parseInt (s : string) : value :=
  match s with
  | String "-"%char rest =>
      match readDigits rest None with Some n => VNum (- n) | None => VNaN end
  | String "+"%char rest =>
      match readDigits rest None with Some n => VNum n | None => VNaN end
  | _ => match readDigits s None with Some n => VNum n | None => VNaN end
  end.

(** [arr.slice(start, end)]: a negative index counts from the end, and
    both are clipped to the array. *)
Definition slice {A} (arr : list A) (start end_ : Z) : list A :=
  let len := Z.of_nat (length arr) in
  let clip i := if i <? 0 then Z.max (len + i) 0 else Z.min i len in
  let from := clip start in
  let to := clip end_ in
  take (Z.to_nat (to - from)) (drop (Z.to_nat from) arr).

(** [arr.slice(start)] *)
Definition sliceFrom {A} (arr : list A) (start : Z) : list A :=
  slice arr start (Z.of_nat (length arr)).

(** [arr.sort(compare)] for a comparison that orders the elements: the
    sort is stable, so the result is the one of inserting the elements,
    last first, each before the first element it does not come after. *)
Fixpoint insertSorted {A} (compare : A -> A -> Z) (x : A) (sorted : list A) : list A :=
  match sorted with
  | [] => [x]
  | y :: rest =>
      if compare x y <=? 0 then x :: sorted else y :: insertSorted compare x rest
  end.

Definition sortWith {A} (compare : A -> A -> Z) (arr : list A) : list A :=
  foldr (insertSorted compare) [] arr.

(** A property key that is an array index: the decimal numeral of an
    integer below 2^32 - 1.  [Object.entries] lists such keys first, in
    ascending order. *)
Definition arrayIndex (key : string) : option Z :=
  match parseInt key with
  | VNum n =>
      if (0 <=? n) && (n <? 4294967295) && String.eqb (pretty n) key
      then Some n else None
  | _ => None
  end.

(** The own keys of an object in the order [Object.entries] visits
    them, from the keys in the order they were created: the array
    indices ascending, then the other keys as created. *)
Definition ownKeys (created : list string) : list string :=
  map pretty (sortAscending (omap arrayIndex created)) ++
  List.filter (fun key => bool_decide (arrayIndex key = None)) created.

End Js.
Import Js.

(** ** roulette-config.js *)
Module RouletteConfig.

Definition defaultBalance : Z := 1000.

Definition minBet : Z := 1.
Definition maxBet : Z := 1000.
Definition tableMax : Z := 10000.

Definition wheelOrder : list value :=
  [ VNum 0; VNum 28; VNum 9; VNum 26; VNum 30; VNum 11; VNum 7; VNum 20;
    VNum 32; VNum 17; VNum 5; VNum 22; VNum 34; VNum 15; VNum 3; VNum 24;
    VNum 36; VNum 13; VNum 1;
    VStr "00"; VNum 27; VNum 10; VNum 25; VNum 29; VNum 12; VNum 8;
    VNum 19; VNum 31; VNum 18; VNum 6; VNum 21; VNum 33; VNum 16; VNum 4;
    VNum 23; VNum 35; VNum 14; VNum 2 ].

Record BetType : Type := {
  name : string;
  payout : Z;
  numberCount : Z;
  description : string
}.

Definition betTypes : gmap string BetType :=
  list_to_map
    [ ("straight", {| name := "Straight Up"; payout := 35; numberCount := 1;
                      description := "Single number bet" |});
      ("split", {| name := "Split"; payout := 17; numberCount := 2;
                   description := "Two adjacent numbers" |});
      ("street", {| name := "Street"; payout := 11; numberCount := 3;
                    description := "Three numbers in a row" |});
      ("corner", {| name := "Corner"; payout := 8; numberCount := 4;
                    description := "Four numbers in a square" |});
      ("line", {| name := "Line"; payout := 5; numberCount := 6;
                  description := "Six numbers across two rows" |});
      ("dozen", {| name := "Dozen"; payout := 2; numberCount := 12;
                   description := "1st 12, 2nd 12, or 3rd 12" |});
      ("column", {| name := "Column"; payout := 2; numberCount := 12;
                    description := "One of three vertical columns" |});
      ("red", {| name := "Red"; payout := 1; numberCount := 18;
                 description := "All red numbers" |});
      ("black", {| name := "Black"; payout := 1; numberCount := 18;
                   description := "All black numbers" |});
      ("even", {| name := "Even"; payout := 1; numberCount := 18;
                  description := "All even numbers" |});
      ("odd", {| name := "Odd"; payout := 1; numberCount := 18;
                 description := "All odd numbers" |});
      ("low", {| name := "Low (1-18)"; payout := 1; numberCount := 18;
                 description := "Numbers 1-18" |});
      ("high", {| name := "High (19-36)"; payout := 1; numberCount := 18;
                  description := "Numbers 19-36" |}) ].

Definition chipDenominations : list Z := [1; 5; 10; 25; 100; 500].

(** [colors]: an object, so its keys are property keys. *)
Definition colors : gmap string string :=
  list_to_map
    [ ("0", "green"); ("00", "green");
      ("1", "red"); ("2", "black"); ("3", "red"); ("4", "black"); ("5", "red");
      ("6", "black"); ("7", "red"); ("8", "black"); ("9", "red"); ("10", "black");
      ("11", "black"); ("12", "red"); ("13", "black"); ("14", "red"); ("15", "black");
      ("16", "red"); ("17", "black"); ("18", "red"); ("19", "red"); ("20", "black");
      ("21", "red"); ("22", "black"); ("23", "red"); ("24", "black"); ("25", "red");
      ("26", "black"); ("27", "red"); ("28", "black"); ("29", "black"); ("30", "red");
      ("31", "black"); ("32", "red"); ("33", "black"); ("34", "red"); ("35", "black");
      ("36", "red") ]%string.

(** [tableLayout.grid] and [tableLayout.zeros] *)
Definition grid : list (list value) :=
  [ map VNum [3; 6; 9; 12; 15; 18; 21; 24; 27; 30; 33; 36];
    map VNum [2; 5; 8; 11; 14; 17; 20; 23; 26; 29; 32; 35];
    map VNum [1; 4; 7; 10; 13; 16; 19; 22; 25; 28; 31; 34] ].

Definition zeros : list value := [VNum 0; VStr "00"].

Definition betSets : gmap string (list value) :=
  list_to_map
    [ ("red", map VNum [1; 3; 5; 7; 9; 12; 14; 16; 18; 19; 21; 23; 25; 27; 30; 32; 34; 36]);
      ("black", map VNum [2; 4; 6; 8; 10; 11; 13; 15; 17; 20; 22; 24; 26; 28; 29; 31; 33; 35]);
      ("even", map VNum [2; 4; 6; 8; 10; 12; 14; 16; 18; 20; 22; 24; 26; 28; 30; 32; 34; 36]);
      ("odd", map VNum [1; 3; 5; 7; 9; 11; 13; 15; 17; 19; 21; 23; 25; 27; 29; 31; 33; 35]);
      ("low", map VNum [1; 2; 3; 4; 5; 6; 7; 8; 9; 10; 11; 12; 13; 14; 15; 16; 17; 18]);
      ("high", map VNum [19; 20; 21; 22; 23; 24; 25; 26; 27; 28; 29; 30; 31; 32; 33; 34; 35; 36]);
      ("dozen1", map VNum [1; 2; 3; 4; 5; 6; 7; 8; 9; 10; 11; 12]);
      ("dozen2", map VNum [13; 14; 15; 16; 17; 18; 19; 20; 21; 22; 23; 24]);
      ("dozen3", map VNum [25; 26; 27; 28; 29; 30; 31; 32; 33; 34; 35; 36]);
      ("column1", map VNum [1; 4; 7; 10; 13; 16; 19; 22; 25; 28; 31; 34]);
      ("column2", map VNum [2; 5; 8; 11; 14; 17; 20; 23; 26; 29; 32; 35]);
      ("column3", map VNum [3; 6; 9; 12; 15; 18; 21; 24; 27; 30; 33; 36]) ]%string.

(** [this.colors[number] || null] *)
Definition getNumberColor (number : value) : option string :=
  colors !! toPropertyKey number.

(** [this.betSets.<name>.includes(number)] *)
Definition inBetSet (name : string) (number : value) : bool :=
  includes (default [] (betSets !! name)) number.

Definition isRedNumber (number : value) : bool := inBetSet "red" number.
Definition isBlackNumber (number : value) : bool := inBetSet "black" number.
Definition isEvenNumber (number : value) : bool := inBetSet "even" number.
Definition isOddNumber (number : value) : bool := inBetSet "odd" number.

(** The loop of [getNumberPosition] over the rows of the grid. *)
Fixpoint findInRows (rows : list (list value)) (row : Z) (number : value)
    : option (Z * Z) :=
  match rows with
  | [] => None
  | r :: rest =>
      let col := indexOf r number in
      if negb (col =? -1) then Some (row, col)
      else findInRows rest (row + 1) number
  end.

(** [getNumberPosition]: [{row, col}] on the grid, row -1 for the
    zeros, [null] for anything else. *)
Definition getNumberPosition (number : value) : option (Z * Z) :=
  match findInRows grid 0 number with
  | Some pos => Some pos
  | None =>
      if includes zeros number then Some (-1, indexOf zeros number)
      else None
  end.

(** [history.maxEntries] *)
Definition maxEntries : nat := 50.

End RouletteConfig.

(** ** game-state.js *)
Module GameState.

(** The object built by [createBet]. *)
Record Bet : Type := {
  betId : nat;
  type : string;
  numbers : list value;
  amount : Z;
  position : option (Z * Z);
  timestamp : nat
}.

(** The entry the application pushes after a spin; its timestamp and
    colour, which no operation of the core reads, are left out.  [bets]
    may be missing in an entry read back from storage. *)
Record HistoryEntry : Type := {
  spinNumber : value;
  bets : option (list Bet);
  totalBet : Z;
  totalWin : Z;
  netProfit : Z
}.

Record State : Type := {
  balance : Z;
  currentBets : list Bet;
  history : list HistoryEntry;
  lastResult : option value;
  isSpinning : bool;
  clock : nat
}.

Definition withBalance (st : State) (b : Z) : State :=
  {| balance := b; currentBets := currentBets st; history := history st;
     lastResult := lastResult st; isSpinning := isSpinning st;
     clock := clock st |}.

Definition withCurrentBets (st : State) (bs : list Bet) : State :=
  {| balance := balance st; currentBets := bs; history := history st;
     lastResult := lastResult st; isSpinning := isSpinning st;
     clock := clock st |}.

Definition withHistory (st : State) (h : list HistoryEntry) : State :=
  {| balance := balance st; currentBets := currentBets st; history := h;
     lastResult := lastResult st; isSpinning := isSpinning st;
     clock := clock st |}.

Definition tick (st : State) : State :=
  {| balance := balance st; currentBets := currentBets st;
     history := history st; lastResult := lastResult st;
     isSpinning := isSpinning st; clock := S (clock st) |}.

Definition withSpin (st : State) (spinning : bool) (result : option value) : State :=
  {| balance := balance st; currentBets := currentBets st;
     history := history st; lastResult := result; isSpinning := spinning;
     clock := clock st |}.

Definition getBalance (st : State) : Z := balance st.

(** [this.state.balance = Math.max(0, amount)] *)
Definition updateBalance (amount : Z) (st : State) : State :=
  withBalance st (Z.max 0 amount).

Definition addToBalance (amount : Z) (st : State) : State :=
  updateBalance (balance st + amount) st.

Definition subtractFromBalance (amount : Z) (st : State) : State :=
  updateBalance (balance st - amount) st.

Definition resetBalance (st : State) : State :=
  updateBalance RouletteConfig.defaultBalance st.

Definition getCurrentBets (st : State) : list Bet := currentBets st.

Definition getTotalBetAmount (st : State) : Z :=
  reduceSum amount (currentBets st).

(** [this.state.currentBets.push(bet)] *)
Definition placeBet (bet : Bet) (st : State) : State :=
  withCurrentBets st (currentBets st ++ [bet]).

(** [clearBets] returns the bets it removed. *)
Definition clearBets (st : State) : list Bet * State :=
  (currentBets st, withCurrentBets st []).

Definition getHistory (st : State) : list HistoryEntry := history st.

(** [unshift] the entry, then cut back to [maxEntries] when longer. *)
Definition addToHistory (result : HistoryEntry) (st : State) : State :=
  let h := result :: history st in
  if decide (RouletteConfig.maxEntries < length h)%nat
  then withHistory st (take RouletteConfig.maxEntries h)
  else withHistory st h.

(** [findIndex(b => b.id === betId)] followed by [splice(betIndex, 1)]:
    the first bet with that identifier is taken out. *)
Fixpoint spliceFirst (target : nat) (bs : list Bet) : option (Bet * list Bet) :=
  match bs with
  | [] => None
  | b :: rest =>
      if (betId b =? target)%nat then Some (b, rest)
      else match spliceFirst target rest with
           | Some (removed, rest') => Some (removed, b :: rest')
           | None => None
           end
  end.

(** [removeBet] returns the removed bet, or [null]. *)
Definition removeBet (target : nat) (st : State) : option Bet * State :=
  match spliceFirst target (currentBets st) with
  | Some (removedBet, rest) => (Some removedBet, withCurrentBets st rest)
  | None => (None, st)
  end.

(** [removeLastBet]: [pop] when the ledger is not empty. *)
Definition removeLastBet (st : State) : option Bet * State :=
  if (0 <? length (currentBets st))%nat then
    (last (currentBets st), withCurrentBets st (removelast (currentBets st)))
  else (None, st).

Definition clearHistory (st : State) : State := withHistory st [].

Definition startSpin (st : State) : State :=
  withSpin st true (lastResult st).

(** [endSpin] also records the result ([setLastResult]). *)
Definition endSpin (result : value) (st : State) : State :=
  withSpin st false (Some result).

End GameState.
Import GameState.

(** ** game-state.js: statistics *)
Module GameStatistics.

(** The object [getStatistics] returns.  With an empty history it has
    no [wins] and [losses] fields. *)
Record Statistics : Type := {
  totalSpins : nat;
  totalBet : Z;
  totalWon : Z;
  netProfit : Z;
  biggestWin : Z;
  biggestLoss : Z;
  wins : option Z;
  losses : option Z;
  winRate : float
}.

(** A count as a double. *)
Definition countToFloat (z : Z) : float := PrimFloat.of_uint63 (Uint63.of_Z z).

(** The [forEach] of [getStatistics]: biggest win, biggest loss, wins
    and losses so far. *)
Definition tally (acc : Z * Z * Z * Z) (h : HistoryEntry) : Z * Z * Z * Z :=
  let '(biggestWin, biggestLoss, wins, losses) := acc in
  if 0 <? GameState.netProfit h then
    (Z.max biggestWin (GameState.netProfit h), biggestLoss, wins + 1, losses)
  else if GameState.netProfit h <? 0 then
    (biggestWin, Z.min biggestLoss (GameState.netProfit h), wins, losses + 1)
  else acc.

Definition getStatistics (st : State) : Statistics :=
  let history := GameState.history st in
  if (length history =? 0)%nat then
    {| totalSpins := 0; totalBet := 0; totalWon := 0; netProfit := 0;
       biggestWin := 0; biggestLoss := 0; wins := None; losses := None;
       winRate := 0%float |}
  else
    let totalSpins := length history in
    let totalBet := reduceSum GameState.totalBet history in
    let totalWon := reduceSum GameState.totalWin history in
    let '(biggestWin, biggestLoss, wins, losses) :=
      fold_left tally history (0, 0, 0, 0) in
    {| totalSpins := totalSpins;
       totalBet := totalBet;
       totalWon := totalWon;
       netProfit := totalWon - totalBet;
       biggestWin := biggestWin;
       biggestLoss := biggestLoss;
       wins := Some wins;
       losses := Some losses;
       winRate :=
         if (0 <? totalSpins)%nat
         then (countToFloat wins / countToFloat (Z.of_nat totalSpins) * 100)%float
         else 0%float |}.

(** [getNumberFrequencies]: an object keyed by the wheel labels, each
    starting at 0; a spin counts when its number indexes an entry. *)
Definition countSpin (frequencies : gmap string Z) (h : HistoryEntry)
    : gmap string Z :=
  match frequencies !! toPropertyKey (spinNumber h) with
  | Some count => <[toPropertyKey (spinNumber h) := count + 1]> frequencies
  | None => frequencies
  end.

Definition initialFrequencies : gmap string Z :=
  fold_left (fun frequencies num => <[toPropertyKey num := 0]> frequencies)
            RouletteConfig.wheelOrder ∅.

Definition getNumberFrequencies (st : State) : gmap string Z :=
  fold_left countSpin (GameState.history st) initialFrequencies.

(** [getLastSpins(count)] *)
Definition getLastSpins (st : State) (count : Z) : list HistoryEntry :=
  slice (GameState.history st) 0 count.

(** The object [getHotColdNumbers] returns: entries [{number, count}],
    the number being the property key. *)
Record HotCold : Type := {
  hot : list (string * Z);
  cold : list (string * Z)
}.

(** [Object.entries(frequencies)] for an object whose keys were created
    in wheel order. *)
Definition frequencyEntries (frequencies : gmap string Z) : list (string * Z) :=
  omap (fun key => pair key <$> frequencies !! key)
       (ownKeys (map toPropertyKey RouletteConfig.wheelOrder)).

Definition getHotColdNumbers (st : State) (lastN : Z) : HotCold :=
  let recentHistory := slice (GameState.history st) 0 lastN in
  let frequencies := fold_left countSpin recentHistory initialFrequencies in
  let sorted :=
    sortWith (fun a b : string * Z => b.2 - a.2) (frequencyEntries frequencies) in
  {| hot := slice sorted 0 5;
     cold := reverse (sliceFrom sorted (-5)) |}.

End GameStatistics.

(** ** payout-calculator.js *)
Module PayoutCalculator.

Record BetPayout : Type := {
  isWinner : bool;
  payout : Z;
  winAmount : Z;
  totalReturn : Z;
  originalBet : Z;
  payoutMultiplier : option Z
}.

Definition calculateBetPayout (bet : Bet) (spinNumber : value) : BetPayout :=
  let isWinner := includes (numbers bet) spinNumber in
  if negb isWinner then
    {| isWinner := false; payout := 0; winAmount := 0; totalReturn := 0;
       originalBet := amount bet; payoutMultiplier := None |}
  else
    let betType := RouletteConfig.betTypes !! type bet in
    let payoutMultiplier :=
      match betType with Some t => RouletteConfig.payout t | None => 0 end in
    let payout := amount bet * payoutMultiplier in
    let totalReturn := amount bet + payout in
    {| isWinner := true; payout := payout; winAmount := payout;
       totalReturn := totalReturn; originalBet := amount bet;
       payoutMultiplier := Some payoutMultiplier |}.

(** The totals of [calculateAllPayouts]; each bet is listed with its
    own resolution among the winners or the losers. *)
Record RoundPayout : Type := {
  roundSpinNumber : value;
  roundTotalBet : Z;
  roundTotalWin : Z;
  roundTotalReturn : Z;
  roundNetProfit : Z;
  winningBets : list (Bet * BetPayout);
  losingBets : list (Bet * BetPayout);
  betCount : nat
}.

Definition calculateAllPayouts (bets : list Bet) (spinNumber : value) : RoundPayout :=
  let totalBet := reduceSum amount bets in
  let '(totalWin, winners, losers) :=
    fold_left
      (fun (acc : Z * list (Bet * BetPayout) * list (Bet * BetPayout)) bet =>
         let '(win, winners, losers) := acc in
         let betResult := calculateBetPayout bet spinNumber in
         if isWinner betResult
         then (win + totalReturn betResult, winners ++ [(bet, betResult)], losers)
         else (win, winners, losers ++ [(bet, betResult)]))
      bets (0, [], []) in
  {| roundSpinNumber := spinNumber;
     roundTotalBet := totalBet;
     roundTotalWin := totalWin;
     roundTotalReturn := totalWin;
     roundNetProfit := totalWin - totalBet;
     winningBets := winners;
     losingBets := losers;
     betCount := length bets |}.

Definition getPayoutOdds (betType : string) : Z :=
  match RouletteConfig.betTypes !! betType with
  | Some t => RouletteConfig.payout t
  | None => 0
  end.

(** Catalog entries are small non-negative integers; as doubles they
    are exact. *)
Definition toFloat (z : Z) : float := PrimFloat.of_uint63 (Uint63.of_Z z).

(** [calculateHouseEdge], in binary64 arithmetic as the source runs. *)
Definition calculateHouseEdge (betType : string) : float :=
  let totalNumbers := 38%float in
  match RouletteConfig.betTypes !! betType with
  | None => 0%float
  | Some t =>
      let numbersCovered := toFloat (RouletteConfig.numberCount t) in
      let payout := toFloat (RouletteConfig.payout t) in
      let trueOdds := ((totalNumbers - numbersCovered) / numbersCovered)%float in
      let houseEdge := (((trueOdds - payout) / (trueOdds + 1)) * 100)%float in
      houseEdge
  end.

(** The same formula read over the rationals. *)
Definition calculateHouseEdgeQ (betType : string) : Q :=
  let totalNumbers := 38%Q in
  match RouletteConfig.betTypes !! betType with
  | None => 0%Q
  | Some t =>
      let numbersCovered := inject_Z (RouletteConfig.numberCount t) in
      let payout := inject_Z (RouletteConfig.payout t) in
      let trueOdds := ((totalNumbers - numbersCovered) / numbersCovered)%Q in
      let houseEdge := (((trueOdds - payout) / (trueOdds + 1)) * 100)%Q in
      houseEdge
  end.

(** The bet types the design document lists as standard. *)
Definition standardBetTypes : list string :=
  [ "straight"; "split"; "street"; "corner"; "line"; "dozen"; "column";
    "red"; "black"; "even"; "odd"; "low"; "high" ]%string.

(** [|x - 5.26| <= 0.01], on doubles and on rationals. *)
Definition nearStandardEdge (x : float) : bool :=
  PrimFloat.leb (PrimFloat.abs (x - 526 / 100)) (1 / 100)%float.

Definition nearStandardEdgeQ (x : Q) : Prop :=
  (Qabs (x - (526 # 100)) <= (1 # 100))%Q.

(** The object [calculatePotentialWin] returns ([payout] and
    [totalReturn] are the fields [potentialPayout] and
    [potentialReturn]). *)
Record PotentialWin : Type := {
  betAmount : Z;
  potentialPayout : Z;
  potentialReturn : Z;
  odds : Z;
  oddsDisplay : string
}.

Definition calculatePotentialWin (betType : string) (amount : Z) : PotentialWin :=
  let odds := getPayoutOdds betType in
  let payout := amount * odds in
  let totalReturn := amount + payout in
  {| betAmount := amount; potentialPayout := payout;
     potentialReturn := totalReturn; odds := odds;
     oddsDisplay := pretty odds +:+ ":1" |}.

(** [doesNumberWin] *)
Definition doesNumberWin (betType : string) (numbers : list value)
    (spinNumber : value) : bool :=
  includes numbers spinNumber.

(** An entry of [analysis.betTypes]. *)
Record TypeSummary : Type := {
  count : Z;
  summaryAmount : Z;
  summaryBets : list Bet
}.

(** The object [analyzeBets] returns; [numbersCovered] is a [Set],
    kept in order of insertion. *)
Record Analysis : Type := {
  totalBets : nat;
  totalAmount : Z;
  analysisBetTypes : gmap string TypeSummary;
  numbersCovered : list value;
  duplicateNumbers : list value;
  coverage : float
}.

(** The body of [bet.numbers.forEach] in [analyzeBets]. *)
Definition coverNumber (acc : list value * list value) (num : value)
    : list value * list value :=
  let '(covered, duplicates) := acc in
  let duplicates :=
    if includes covered num
    then (if negb (includes duplicates num) then duplicates ++ [num] else duplicates)
    else duplicates in
  (if includes covered num then covered else covered ++ [num], duplicates).

(** The tracking of bet types in [analyzeBets]. *)
Definition trackBetType (betTypes : gmap string TypeSummary) (bet : Bet)
    : gmap string TypeSummary :=
  let entry :=
    match betTypes !! type bet with
    | Some entry => entry
    | None => {| count := 0; summaryAmount := 0; summaryBets := [] |}
    end in
  <[type bet := {| count := count entry + 1;
                   summaryAmount := summaryAmount entry + amount bet;
                   summaryBets := summaryBets entry ++ [bet] |}]> betTypes.

(** The body of [bets.forEach] in [analyzeBets]. *)
Definition analyzeBet (analysis : Analysis) (bet : Bet) : Analysis :=
  let '(covered, duplicates) :=
    fold_left coverNumber (numbers bet)
              (numbersCovered analysis, duplicateNumbers analysis) in
  {| totalBets := totalBets analysis;
     totalAmount := totalAmount analysis + amount bet;
     analysisBetTypes := trackBetType (analysisBetTypes analysis) bet;
     numbersCovered := covered;
     duplicateNumbers := duplicates;
     coverage := coverage analysis |}.

Definition analyzeBets (bets : list Bet) : Analysis :=
  let analysis :=
    fold_left analyzeBet bets
              {| totalBets := length bets; totalAmount := 0;
                 analysisBetTypes := ∅; numbersCovered := [];
                 duplicateNumbers := []; coverage := 0%float |} in
  {| totalBets := totalBets analysis;
     totalAmount := totalAmount analysis;
     analysisBetTypes := analysisBetTypes analysis;
     numbersCovered := numbersCovered analysis;
     duplicateNumbers := duplicateNumbers analysis;
     coverage :=
       (toFloat (Z.of_nat (length (numbersCovered analysis))) / 38 * 100)%float |}.

End PayoutCalculator.

(** ** bet-manager.js *)
Module BetManager.

(** The failure messages of the module, one constructor per message;
    interpolated values are carried as arguments. *)
Inductive error : Type :=
| InvalidBetType                          (* 'Invalid bet type' *)
| InvalidNumbers                          (* 'Invalid numbers' *)
| InvalidNumbersList (bad : list value)   (* 'Invalid numbers: ...' *)
| RequiresNumbers (name : string) (count : Z)  (* '<name> requires <n> number(s)' *)
| DuplicateNumbers                        (* 'Duplicate numbers are not allowed' *)
| SplitOnly1To36                          (* 'Split bets are only supported for numbers 1-36' *)
| SplitNotAdjacent                        (* 'Split requires two adjacent numbers' *)
| CornerOnly1To36                         (* 'Corner bets are only supported for numbers 1-36' *)
| CornerNotSquare                         (* 'Corner requires four numbers forming a 2x2 square' *)
| InvalidBetAmount                        (* 'Invalid bet amount' *)
| MinimumBet (limit : Z)                  (* 'Minimum bet is $<limit>' *)
| MaximumBet (limit : Z)                  (* 'Maximum bet is $<limit>' *)
| InsufficientBalance (available : Z)     (* 'Insufficient balance. Available: $<available>' *)
| TableMaximum (limit : Z)                (* 'Table maximum is $<limit>' *)
| NoPreviousBets                          (* 'No previous bets to repeat' *)
| NoBetsInLastSpin                        (* 'No bets in last spin' *)
| InsufficientToRepeat                    (* 'Insufficient balance to repeat bets' *)
| NoBetsToDouble                          (* 'No bets to double' *)
| InsufficientToDouble.                   (* 'Insufficient balance to double bets' *)

(** [{ valid: true }] or [{ valid: false, error }] *)
Inductive validation : Type :=
| Valid
| Invalid (e : error).

(** [{ success: true, ... }] or [{ success: false, error }] *)
Inductive result (A : Type) : Type :=
| Success (payload : A)
| Failure (e : error).
Arguments Success {A} payload.
Arguments Failure {A} e.

Definition validateBetAmount (amount : value) : validation :=
  match amount with
  | VNum a =>
      if a <? RouletteConfig.minBet then
        Invalid (MinimumBet RouletteConfig.minBet)
      else if RouletteConfig.maxBet <? a then
        Invalid (MaximumBet RouletteConfig.maxBet)
      else Valid
  | _ => Invalid InvalidBetAmount
  end.

Definition validateBalance (amount : Z) (st : State) : validation :=
  let currentBalance := getBalance st in
  let totalCurrentBets := getTotalBetAmount st in
  let availableBalance := currentBalance - totalCurrentBets in
  if availableBalance <? amount then
    Invalid (InsufficientBalance availableBalance)
  else Valid.

Definition validateTableMax (amount : Z) (st : State) : validation :=
  let totalCurrentBets := getTotalBetAmount st in
  let newTotal := totalCurrentBets + amount in
  if RouletteConfig.tableMax <? newTotal then
    Invalid (TableMaximum RouletteConfig.tableMax)
  else Valid.

Definition isInteger1To36 (n : value) : bool :=
  match n with
  | VNum k => (1 <=? k) && (k <=? 36)
  | _ => false
  end.

Definition areAllIntegers1To36 (nums : list value) : bool :=
  forallb isInteger1To36 nums.

Definition validateSplitNumbers (nums : list value) : validation :=
  if negb (areAllIntegers1To36 nums) then Invalid SplitOnly1To36
  else
    match sortAscending (map asNumber nums) with
    | a :: b :: _ =>
        let isHorizontal := (b =? a + 1) && negb (remainder a 3 =? 0) in
        let isVertical := (b =? a + 3) in
        if negb isHorizontal && negb isVertical then Invalid SplitNotAdjacent
        else Valid
    | _ =>
        (* [a] or [b] is [undefined]: neither comparison holds *)
        Invalid SplitNotAdjacent
    end.

Definition validateCornerNumbers (nums : list value) : validation :=
  if negb (areAllIntegers1To36 nums) then Invalid CornerOnly1To36
  else
    let sorted := sortAscending (map asNumber nums) in
    match sorted with
    | n :: _ =>
        if (remainder n 3 =? 0) || (32 <? n) then Invalid CornerNotSquare
        else
          let expected := sortAscending [n; n + 1; n + 3; n + 4] in
          let matches := everyMatchesAt expected sorted in
          if negb matches then Invalid CornerNotSquare else Valid
    | [] =>
        (* [n] is [undefined]: [expected] holds four NaN, none matches *)
        Invalid CornerNotSquare
    end.

Definition validateBet (type : string) (numbers : list value) : validation :=
  match RouletteConfig.betTypes !! type with
  | None => Invalid InvalidBetType
  | Some betType =>
      if (length numbers =? 0)%nat then Invalid InvalidNumbers
      else
        let validNumbers := RouletteConfig.wheelOrder in
        let invalidNumbers :=
          List.filter (fun num => negb (includes validNumbers num)) numbers in
        if (0 <? length invalidNumbers)%nat then
          Invalid (InvalidNumbersList invalidNumbers)
        else if negb (Z.of_nat (length numbers) =? RouletteConfig.numberCount betType) then
          Invalid (RequiresNumbers (RouletteConfig.name betType)
                                   (RouletteConfig.numberCount betType))
        else
          let uniqueNumbers := spreadSet numbers in
          if negb (length uniqueNumbers =? length numbers)%nat then
            Invalid DuplicateNumbers
          else
            match (if String.eqb type "split" then validateSplitNumbers numbers
                   else Valid) with
            | Invalid e => Invalid e
            | Valid =>
                match (if String.eqb type "corner"
                       then validateCornerNumbers numbers else Valid) with
                | Invalid e => Invalid e
                | Valid => Valid
                end
            end
  end.

(** [createBet]: the identifier and the timestamp come from the clock. *)
Definition createBet (type : string) (numbers : list value) (amount : Z)
    (position : option (Z * Z)) (st : State) : Bet * State :=
  ({| betId := clock st; type := type; numbers := numbers; amount := amount;
      position := position; timestamp := clock st |}, tick st).

Definition placeBet (type : string) (numbers : list value) (amount : value)
    (position : option (Z * Z)) (st : State) : result Bet * State :=
  match validateBet type numbers with
  | Invalid e => (Failure e, st)
  | Valid =>
      match validateBetAmount amount with
      | Invalid e => (Failure e, st)
      | Valid =>
          match validateBalance (asNumber amount) st with
          | Invalid e => (Failure e, st)
          | Valid =>
              match validateTableMax (asNumber amount) st with
              | Invalid e => (Failure e, st)
              | Valid =>
                  let (bet, st1) :=
                    createBet type numbers (asNumber amount) position st in
                  (Success bet, GameState.placeBet bet st1)
              end
          end
      end
  end.

Definition clearAllBets (st : State) : result (list Bet) * State :=
  let (bets, st1) := clearBets st in (Success bets, st1).

Definition canAffordBet (amount : Z) (st : State) : bool :=
  let currentBalance := getBalance st in
  let totalCurrentBets := getTotalBetAmount st in
  amount <=? currentBalance - totalCurrentBets.

(** The loop shared by [repeatLastBets] and [doubleAllBets]:
    [for (const bet of bets) { result = placeBet(...);
       if (result.success) placedBets.push(result.bet) }]. *)
Fixpoint placeEach (bets : list Bet) (st : State) : list Bet * State :=
  match bets with
  | [] => ([], st)
  | bet :: rest =>
      let (result, st1) :=
        placeBet (type bet) (numbers bet) (VNum (amount bet)) (position bet) st in
      let (placedBets, st2) := placeEach rest st1 in
      (match result with
       | Success placed => placed :: placedBets
       | Failure _ => placedBets
       end, st2)
  end.

Definition repeatLastBets (st : State) : result (list Bet) * State :=
  match getHistory st with
  | [] => (Failure NoPreviousBets, st)
  | lastSpin :: _ =>
      let betsToRepeat := default [] (bets lastSpin) in
      if (length betsToRepeat =? 0)%nat then (Failure NoBetsInLastSpin, st)
      else
        let totalAmount := reduceSum amount betsToRepeat in
        if negb (canAffordBet totalAmount st) then (Failure InsufficientToRepeat, st)
        else
          let (_, st1) := clearAllBets st in
          let (placedBets, st2) := placeEach betsToRepeat st1 in
          (Success placedBets, st2)
  end.

Definition doubleAllBets (st : State) : result (list Bet) * State :=
  let currentBets := getCurrentBets st in
  if (length currentBets =? 0)%nat then (Failure NoBetsToDouble, st)
  else
    let totalAmount := reduceSum amount currentBets in
    if negb (canAffordBet totalAmount st) then (Failure InsufficientToDouble, st)
    else
      let (placedBets, st1) := placeEach currentBets st in
      (Success placedBets, st1).

End BetManager.

(** ** bet-manager.js: removal and queries *)
Module BetLedger.

Inductive failure : Type :=
| BetNotFound        (* 'Bet not found' *)
| NoBetsToRemove.    (* 'No bets to remove' *)

(** [{ success: true, bet }] or [{ success: false, error }] *)
Inductive removal : Type :=
| Removed (bet : Bet)
| NotRemoved (error : failure).

Definition removeBet (target : nat) (st : State) : removal * State :=
  match GameState.removeBet target st with
  | (Some bet, st1) => (Removed bet, st1)
  | (None, st1) => (NotRemoved BetNotFound, st1)
  end.

Definition removeLastBet (st : State) : removal * State :=
  match GameState.removeLastBet st with
  | (Some bet, st1) => (Removed bet, st1)
  | (None, st1) => (NotRemoved NoBetsToRemove, st1)
  end.

Definition getAvailableBalance (st : State) : Z :=
  let currentBalance := getBalance st in
  let totalCurrentBets := getTotalBetAmount st in
  Z.max 0 (currentBalance - totalCurrentBets).

(** [getBetPayout]: the catalog payout, and 0 for a type it lacks. *)
Definition getBetPayout (type : string) : Z :=
  match RouletteConfig.betTypes !! type with
  | Some betType => RouletteConfig.payout betType
  | None => 0
  end.

End BetLedger.

(** ** betting-table.js *)
Module BettingTable.

(** A cell of the table: the entries of its [dataset] (strings, as the
    DOM stores them) and the grid row it is displayed in. *)
Record Cell : Type := {
  dataType : string;
  dataNumber : option string;
  dataLineIndex : option string;
  dataColumn : option string;
  dataDozen : option string;
  dataBetType : option string;
  gridRow : option Z
}.

Definition blankCell (type : string) : Cell :=
  {| dataType := type; dataNumber := None; dataLineIndex := None;
     dataColumn := None; dataDozen := None; dataBetType := None;
     gridRow := None |}.

Definition addZeroCell (number : value) : Cell :=
  {| dataType := "straight"; dataNumber := Some (toPropertyKey number);
     dataLineIndex := None; dataColumn := None; dataDozen := None;
     dataBetType := None; gridRow := None |}.

Definition addNumberCell (number : value) (row col : Z) : Cell :=
  {| dataType := "straight"; dataNumber := Some (toPropertyKey number);
     dataLineIndex := None; dataColumn := None; dataDozen := None;
     dataBetType := None; gridRow := Some row |}.

Definition addTwoToOneLabel (rowIndex : Z) : Cell :=
  {| dataType := "column"; dataNumber := None; dataLineIndex := None;
     dataColumn := Some (pretty (rowIndex + 1)); dataDozen := None;
     dataBetType := None; gridRow := Some (rowIndex + 1) |}.

Definition addDozenBet (dozenNumber : Z) : Cell :=
  {| dataType := "dozen"; dataNumber := None; dataLineIndex := None;
     dataColumn := None; dataDozen := Some (pretty dozenNumber);
     dataBetType := None; gridRow := None |}.

(** [className.replace('bet-', '')] on a class name that starts with
    ['bet-']. *)
Definition withoutBetPrefix (className : string) : string :=
  if String.prefix "bet-" className
  then String.substring 4 (String.length className - 4) className
  else className.

Definition addOutsideBet (className : string) : Cell :=
  {| dataType := "outside"; dataNumber := None; dataLineIndex := None;
     dataColumn := None; dataDozen := None;
     dataBetType := Some (withoutBetPrefix className); gridRow := None |}.

(** The cells [render] creates, in order. *)
Definition render : list Cell :=
  [addZeroCell (VNum 0); addZeroCell (VStr "00")] ++
  concat (imap (fun rowIndex row =>
                  imap (fun colIndex number =>
                          addNumberCell number (Z.of_nat rowIndex + 1)
                                        (Z.of_nat colIndex + 2)) row)
               RouletteConfig.grid) ++
  map addTwoToOneLabel [0; 1; 2] ++
  map addDozenBet [1; 2; 3] ++
  map addOutsideBet ["bet-1-18"; "bet-even"; "bet-red"; "bet-black"; "bet-odd";
                     "bet-19-36"]%string.

Definition outsideBetTypes : gmap string string :=
  list_to_map [ ("1-18", "low"); ("even", "even"); ("red", "red");
                ("black", "black"); ("odd", "odd"); ("19-36", "high") ]%string.

Definition getOutsideBetType (betType : string) : option string :=
  outsideBetTypes !! betType.

Definition getOutsideBetNumbers (betType : string) : option (list value) :=
  match betType with
  | "1-18" => RouletteConfig.betSets !! "low"
  | "even" => RouletteConfig.betSets !! "even"
  | "red" => RouletteConfig.betSets !! "red"
  | "black" => RouletteConfig.betSets !! "black"
  | "odd" => RouletteConfig.betSets !! "odd"
  | "19-36" => RouletteConfig.betSets !! "high"
  | _ => None
  end%string.

(** [getLineBetNumbers]: the three numbers of grid column [lineIndex],
    those of the next column, sorted. *)
Definition getLineBetNumbers (lineIndex : Z) : list value :=
  let column i := map (fun row => at_ row i) RouletteConfig.grid in
  sortNumbers (column lineIndex ++ column (lineIndex + 1)).

(** [betSets[`<prefix>${n}`]] for the number [n] read from a dataset
    entry; a key that is not there gives [undefined]. *)
Definition numberedSet (prefix : string) (n : value) : option (list value) :=
  RouletteConfig.betSets !! (prefix +:+ toPropertyKey n).

(** [handleBetPlacement], up to the call of [placeBet]: the bet type
    and the numbers proposed for a cell, or nothing when either is
    missing. *)
Definition proposedBet (cell : Cell) : option (string * list value) :=
  let type := dataType cell in
  if String.eqb type "straight" then
    let number := default "undefined"%string (dataNumber cell) in
    Some ("straight"%string,
          [if String.eqb number "00" then VStr "00" else parseInt number])
  else if String.eqb type "line" then
    let lineIndex := parseInt (default "undefined"%string (dataLineIndex cell)) in
    match lineIndex with
    | VNum i => Some ("line"%string, getLineBetNumbers i)
    | _ => Some ("line"%string, sortNumbers (replicate 6 VUndefined))
    end
  else if String.eqb type "column" then
    let columnNum := parseInt (default "undefined"%string (dataColumn cell)) in
    pair "column"%string <$> numberedSet "column" columnNum
  else if String.eqb type "dozen" then
    let dozenNum := parseInt (default "undefined"%string (dataDozen cell)) in
    pair "dozen"%string <$> numberedSet "dozen" dozenNum
  else if String.eqb type "outside" then
    let outsideBetType := default "undefined"%string (dataBetType cell) in
    match getOutsideBetType outsideBetType, getOutsideBetNumbers outsideBetType with
    | Some betType, Some numbers => Some (betType, numbers)
    | _, _ => None
    end
  else None.

(** The numbers of the line a cell stands for. *)
Definition lineNumbersOf (cell : Cell) : list value :=
  match parseInt (default "undefined"%string (dataLineIndex cell)) with
  | VNum i => getLineBetNumbers i
  | _ => sortNumbers (replicate 6 VUndefined)
  end.

(** [isBetOnCell].  Reading [.includes] of a column or dozen set that
    does not exist throws; that is the [None]. *)
Definition isBetOnCell (bet : Bet) (cell : Cell) : option bool :=
  let cellType := dataType cell in
  if String.eqb cellType "straight" then
    let number := default "undefined"%string (dataNumber cell) in
    let cellNumber :=
      if String.eqb number "00" then VStr "00" else parseInt number in
    Some (String.eqb (type bet) "straight" && includes (numbers bet) cellNumber)
  else if String.eqb cellType "line" then
    let lineNumbers := lineNumbersOf cell in
    Some (String.eqb (type bet) "line" &&
          (length (numbers bet) =? 6)%nat &&
          forallb (includes lineNumbers) (numbers bet) &&
          forallb (includes (numbers bet)) lineNumbers)
  else if String.eqb cellType "column" then
    let columnNum := parseInt (default "undefined"%string (dataColumn cell)) in
    if String.eqb (type bet) "column" && (length (numbers bet) =? 12)%nat then
      match numberedSet "column" columnNum with
      | Some set => Some (forallb (includes set) (numbers bet))
      | None => None
      end
    else Some false
  else if String.eqb cellType "dozen" then
    let dozenNum := parseInt (default "undefined"%string (dataDozen cell)) in
    if String.eqb (type bet) "dozen" && (length (numbers bet) =? 12)%nat then
      match numberedSet "dozen" dozenNum with
      | Some set => Some (forallb (includes set) (numbers bet))
      | None => None
      end
    else Some false
  else if String.eqb cellType "outside" then
    match getOutsideBetType (default "undefined"%string (dataBetType cell)) with
    | Some betType => Some (String.eqb (type bet) betType)
    | None => Some false
    end
  else Some false.

End BettingTable.

(** ** chip-selector.js *)
Module ChipSelector.

(** A chip element: the number its [dataset.value] reads back as, and
    its [disabled] and [selected] classes. *)
Record Chip : Type := {
  dataValue : Z;
  disabled : bool;
  selected : bool
}.

(** The selector, and the array [RouletteConfig.chipDenominations] it
    shares with the configuration. *)
Record Selector : Type := {
  chipDenominations : list Z;
  chips : list Chip;
  selectedChip : option Z
}.

Definition withoutSelection (chips : list Chip) : list Chip :=
  map (fun c => {| dataValue := dataValue c; disabled := disabled c;
                   selected := false |}) chips.

(** Adds the class [selected] to the first chip with the value. *)
Fixpoint markSelected (value : Z) (chips : list Chip) : list Chip :=
  match chips with
  | [] => []
  | c :: rest =>
      if dataValue c =? value
      then {| dataValue := dataValue c; disabled := disabled c;
              selected := true |} :: rest
      else c :: markSelected value rest
  end.

(** [selectChip(value)]; the [onChipSelected] callback is left out. *)
Definition selectChip (value : Z) (sel : Selector) : Selector :=
  let chips := withoutSelection (chips sel) in
  match List.find (fun c => dataValue c =? value) chips with
  | Some element =>
      if negb (disabled element)
      then {| chipDenominations := chipDenominations sel;
              chips := markSelected value chips;
              selectedChip := Some value |}
      else {| chipDenominations := chipDenominations sel; chips := chips;
              selectedChip := selectedChip sel |}
  | None => {| chipDenominations := chipDenominations sel; chips := chips;
               selectedChip := selectedChip sel |}
  end.

(** A number as a condition: 0 is false. *)
Definition truthy (n : option Z) : bool :=
  match n with
  | Some n => negb (n =? 0)
  | None => false
  end.

(** [updateChipAvailability()], as the state listeners call it, for
    the available balance [getAvailableBalance()] returned.  The
    [reverse()] rearranges the shared array itself. *)
Definition updateChipAvailability (availableBalance : Z) (sel : Selector)
    : Selector :=
  let chips :=
    map (fun c => {| dataValue := dataValue c;
                     disabled := availableBalance <? dataValue c;
                     selected := selected c |}) (chips sel) in
  if truthy (selectedChip sel) &&
     (availableBalance <? default 0 (selectedChip sel))
  then
    let reversed := reverse (chipDenominations sel) in
    let affordableChip := List.find (fun val => val <=? availableBalance) reversed in
    if truthy affordableChip
    then selectChip (default 0 affordableChip)
                    {| chipDenominations := reversed; chips := chips;
                       selectedChip := selectedChip sel |}
    else {| chipDenominations := reversed;
            chips := withoutSelection chips;
            selectedChip := None |}
  else {| chipDenominations := chipDenominations sel; chips := chips;
          selectedChip := selectedChip sel |}.

(** The constructor: [render()], then the first denomination is
    selected. *)
Definition create (chipDenominations : list Z) (availableBalance : Z) : Selector :=
  let rendered :=
    {| chipDenominations := chipDenominations;
       chips := map (fun value => {| dataValue := value;
                                     disabled := availableBalance <? value;
                                     selected := false |}) chipDenominations;
       selectedChip := None |} in
  match chipDenominations with
  | first :: _ => selectChip first rendered
  | [] => rendered
  end.

End ChipSelector.

(** ** helpers.js *)
Module Helpers.

(** [arraysEqual] *)
Definition arraysEqual (arr1 arr2 : list value) : bool :=
  if negb (length arr1 =? length arr2)%nat then false
  else forallb (fun p : nat * value => strictEquals p.2 (at_ arr2 (Z.of_nat p.1)))
               (imap pair arr1).

(** [unique] *)
Definition unique (array : list value) : list value := spreadSet array.

(** [countOccurrences] *)
Definition countOccurrences (array : list value) (value : value) : nat :=
  length (List.filter (fun item => strictEquals item value) array).

(** The loop of [chunk], from index [i]; [None] when the steps allowed
    run out before the loop ends. *)
Fixpoint chunkFrom {A} (steps : nat) (array : list A) (size i : Z)
    (chunks : list (list A)) : option (list (list A)) :=
  if i <? Z.of_nat (length array) then
    match steps with
    | O => None
    | S steps => chunkFrom steps array size (i + size)
                           (chunks ++ [slice array i (i + size)])
    end
  else Some chunks.

Definition chunk {A} (steps : nat) (array : list A) (size : Z)
    : option (list (list A)) :=
  chunkFrom steps array size 0 [].

(** [getRelativeTime], for the time [now] that [Date.now()] gives. *)
Definition getRelativeTime (now timestamp : Z) : string :=
  let diff := now - timestamp in
  let seconds := diff / 1000 in
  let minutes := seconds / 60 in
  let hours := minutes / 60 in
  let days := hours / 24 in
  if seconds <? 60 then "just now"
  else if minutes <? 60
  then pretty minutes +:+ " minute" +:+ (if 1 <? minutes then "s" else "") +:+ " ago"
  else if hours <? 24
  then pretty hours +:+ " hour" +:+ (if 1 <? hours then "s" else "") +:+ " ago"
  else pretty days +:+ " day" +:+ (if 1 <? days then "s" else "") +:+ " ago".

End Helpers.

(** ** app.js: one round *)
Module App.

(** [RouletteGame.spin], with the outcome of [generateSpinResult]
    given; sound and animation are left out. *)
Definition spin (result : value) (st : State) : State :=
  let bets := getCurrentBets st in
  if (length bets =? 0)%nat then st
  else if isSpinning st then st
  else
    let st1 := startSpin st in
    let totalBet := getTotalBetAmount st1 in
    let st2 := subtractFromBalance totalBet st1 in
    let payoutResult := PayoutCalculator.calculateAllPayouts bets result in
    let st3 :=
      if 0 <? PayoutCalculator.roundTotalWin payoutResult
      then addToBalance (PayoutCalculator.roundTotalWin payoutResult) st2
      else st2 in
    let historyEntry :=
      {| spinNumber := result;
         bets := Some bets;
         totalBet := PayoutCalculator.roundTotalBet payoutResult;
         totalWin := PayoutCalculator.roundTotalWin payoutResult;
         netProfit := PayoutCalculator.roundNetProfit payoutResult |} in
    let st4 := addToHistory historyEntry st3 in
    let st5 := (clearBets st4).2 in
    endSpin result st5.

(** The commands the application wires to the table and its buttons,
    the outcome of a spin being given.  (The balance reset of the
    settings dialog is not one of them.) *)
Inductive Command : Type :=
| Place (type : string) (numbers : list value) (amount : value)
        (position : option (Z * Z))
| Remove (target : nat)
| Undo
| Clear
| Double
| Repeat
| Spin (result : value)
| ClearHistory.

Definition run (c : Command) (st : State) : State :=
  match c with
  | Place type numbers amount position =>
      (BetManager.placeBet type numbers amount position st).2
  | Remove target => (BetLedger.removeBet target st).2
  | Undo => (BetLedger.removeLastBet st).2
  | Clear => (BetManager.clearAllBets st).2
  | Double => (BetManager.doubleAllBets st).2
  | Repeat => (BetManager.repeatLastBets st).2
  | Spin result => spin result st
  | ClearHistory => clearHistory st
  end.

Definition runAll (cs : list Command) (st : State) : State :=
  fold_left (fun s c => run c s) cs st.

(** The state after an accepted or refused placement. *)
Definition place (type : string) (numbers : list value) (amount : Z)
    (st : State) : State :=
  (BetManager.placeBet type numbers (VNum amount) None st).2.

End App.

(** ** The design document's Bet Validator

    [Validator.validate] follows the words of the design document: eight
    checks, tried in a fixed order, the first one that fails giving the
    reason.  It is compared below with what [BetManager.placeBet] does. *)
Module Validator.

Inductive reason : Type :=
| UnknownBetType
| InvalidSlots
| SlotCountMismatch
| DuplicateSlots
| InvalidGeometry
| AmountOutOfRange
| InsufficientBalance
| TableMaxExceeded.

#[global] Instance reason_eq_dec : EqDecision reason.
Proof. solve_decision. Defined.

Definition knownBetType (betType : string) : bool :=
  bool_decide (is_Some (RouletteConfig.betTypes !! betType)).

Definition validSlots (slots : list value) : bool :=
  bool_decide (slots <> [] /\ Forall (fun s => s ∈ RouletteConfig.wheelOrder) slots).

Definition countMatches (betType : string) (slots : list value) : bool :=
  match RouletteConfig.betTypes !! betType with
  | Some t => bool_decide (Z.of_nat (length slots) = RouletteConfig.numberCount t)
  | None => false
  end.

Definition distinctSlots (slots : list value) : bool :=
  bool_decide (NoDup slots).

(** Split: two numbers of 1..36 which, sorted as [a < b], are
    horizontally ([b = a + 1], [a] not in the rightmost column) or
    vertically ([b = a + 3]) adjacent. *)
Definition splitGeometry (slots : list value) : bool :=
  match slots with
  | [VNum x; VNum y] =>
      let a := Z.min x y in
      let b := Z.max x y in
      bool_decide (1 <= x <= 36 /\ 1 <= y <= 36 /\
                   ((b = a + 1 /\ a mod 3 <> 0) \/ b = a + 3))
  | _ => false
  end.

Definition isNumber1To36 (v : value) : Prop :=
  exists k, v = VNum k /\ 1 <= k <= 36.

#[global] Instance isNumber1To36_dec v : Decision (isNumber1To36 v).
Proof.
  refine (match v with
          | VNum k => cast_if (decide (1 <= k <= 36))
          | _ => right _
          end); unfold isNumber1To36;
    [ eauto | intros (k' & Hk & ?); congruence | .. ];
    intros (k' & Hk & ?); discriminate.
Defined.

(** Corner: numbers of 1..36 whose smallest [n] is neither in the
    rightmost column nor in the bottom row, and which are, as a set,
    exactly [{n, n+1, n+3, n+4}]. *)
Definition cornerGeometry (slots : list value) : bool :=
  match map asNumber slots with
  | [] => false
  | z :: zs =>
      let n := foldr Z.min z zs in
      bool_decide (Forall isNumber1To36 slots /\
                   n mod 3 <> 0 /\ n <= 32 /\
                   list_to_set (z :: zs) =@{gset Z} {[ n; n + 1; n + 3; n + 4 ]})
  end.

Definition geometryOk (betType : string) (slots : list value) : bool :=
  if decide (betType = "split"%string) then splitGeometry slots
  else if decide (betType = "corner"%string) then cornerGeometry slots
  else true.

Definition amountInRange (amount : value) : bool :=
  match amount with
  | VNum a => bool_decide (RouletteConfig.minBet <= a <= RouletteConfig.maxBet)
  | _ => false
  end.

Definition balanceSuffices (amount : value) (currentLedgerTotal balance : Z) : bool :=
  bool_decide (balance - currentLedgerTotal >= asNumber amount).

Definition withinTableMax (amount : value) (currentLedgerTotal : Z) : bool :=
  bool_decide (currentLedgerTotal + asNumber amount <= RouletteConfig.tableMax).

(** The eight checks with their reasons, in the order they are tried. *)
Definition checks (betType : string) (slots : list value) (amount : value)
    (currentLedgerTotal balance : Z) : list (bool * reason) :=
  [ (knownBetType betType, UnknownBetType);
    (validSlots slots, InvalidSlots);
    (countMatches betType slots, SlotCountMismatch);
    (distinctSlots slots, DuplicateSlots);
    (geometryOk betType slots, InvalidGeometry);
    (amountInRange amount, AmountOutOfRange);
    (balanceSuffices amount currentLedgerTotal balance, InsufficientBalance);
    (withinTableMax amount currentLedgerTotal, TableMaxExceeded) ].

Fixpoint firstFailing (cs : list (bool * reason)) : option reason :=
  match cs with
  | [] => None
  | (passed, r) :: rest => if passed then firstFailing rest else Some r
  end.

(** [None] is acceptance, [Some r] rejection with reason [r]. *)
Definition validate (betType : string) (slots : list value) (amount : value)
    (currentLedgerTotal balance : Z) : option reason :=
  firstFailing (checks betType slots amount currentLedgerTotal balance).

(** The reason each placement failure message stands for. *)
Definition reasonOf (e : BetManager.error) : option reason :=
  match e with
  | BetManager.InvalidBetType => Some UnknownBetType
  | BetManager.InvalidNumbers | BetManager.InvalidNumbersList _ => Some InvalidSlots
  | BetManager.RequiresNumbers _ _ => Some SlotCountMismatch
  | BetManager.DuplicateNumbers => Some DuplicateSlots
  | BetManager.SplitOnly1To36 | BetManager.SplitNotAdjacent
  | BetManager.CornerOnly1To36 | BetManager.CornerNotSquare => Some InvalidGeometry
  | BetManager.InvalidBetAmount | BetManager.MinimumBet _
  | BetManager.MaximumBet _ => Some AmountOutOfRange
  | BetManager.InsufficientBalance _ => Some InsufficientBalance
  | BetManager.TableMaximum _ => Some TableMaxExceeded
  | _ => None
  end.

End Validator.

(** ** Vocabulary of the properties *)

(** Two bets that stake the same amount on the same numbers under the
    same bet type; identity, position and timestamp may differ. *)
Definition sameWager (b1 b2 : Bet) : Prop :=
  type b1 = type b2 /\ numbers b1 = numbers b2 /\ amount b1 = amount b2.

(** A bet whose type, numbers and amount pass the state-independent
    checks of placement; every bet that [BetManager.placeBet] puts into
    the ledger is one. *)
Definition placeable (b : Bet) : Prop :=
  BetManager.validateBet (type b) (numbers b) = BetManager.Valid /\
  BetManager.validateBetAmount (VNum (amount b)) = BetManager.Valid.

(** [new] is [old] followed by one bet of the same wager for every bet
    of [old]. *)
Definition duplicatesEvery (old new : list Bet) : Prop :=
  exists added, new = old ++ added /\ Forall2 sameWager old added.

(** Doubling as all-or-nothing: either every bet is duplicated, or the
    operation fails for lack of balance and the ledger is as before. *)
Definition doubleAllOrNothing (st : State) : Prop :=
  let (r, st') := BetManager.doubleAllBets st in
  duplicatesEvery (currentBets st) (currentBets st') \/
  (r = BetManager.Failure BetManager.InsufficientToDouble /\
   currentBets st' = currentBets st).

(** Repeating whenever the balance covers the stake of the last round:
    the ledger afterwards holds exactly the wagers of that round. *)
Definition repeatWhenBalanceCovers (st : State) : Prop :=
  forall lastSpin older,
    history st = lastSpin :: older ->
    default [] (bets lastSpin) <> [] ->
    reduceSum amount (default [] (bets lastSpin)) <= balance st ->
    Forall2 sameWager (default [] (bets lastSpin))
            (currentBets (BetManager.repeatLastBets st).2).

(** A ledger as play leaves it: every bet on it is placeable, and
    the total staked is within both the balance and the table maximum. *)
Definition soundLedger (st : State) : Prop :=
  Forall placeable (currentBets st) /\
  getTotalBetAmount st <= balance st /\
  getTotalBetAmount st <= RouletteConfig.tableMax.

(** What one bet returns on an outcome ([0] when it loses). *)
Definition returnOf (spinNumber : value) (bet : Bet) : Z :=
  PayoutCalculator.totalReturn (PayoutCalculator.calculateBetPayout bet spinNumber).

Definition wins (spinNumber : value) (bet : Bet) : bool :=
  PayoutCalculator.isWinner (PayoutCalculator.calculateBetPayout bet spinNumber).

(** Where the number [n] of 1..36 sits on the grid: three rows, the
    top one holding the multiples of 3, and twelve columns. *)
Definition gridPosition (n : Z) : Z * Z := (2 - (n - 1) mod 3, (n - 1) / 3).

(** Two cells of the grid that share a side. *)
Definition adjacentCells (p q : Z * Z) : Prop :=
  (p.1 = q.1 /\ Z.abs (p.2 - q.2) = 1) \/ (p.2 = q.2 /\ Z.abs (p.1 - q.1) = 1).

(** The four cells of the two-by-two block whose top left cell is
    [(row, col)]. *)
Definition blockCells (row col : Z) : list (Z * Z) :=
  [(row, col); (row + 1, col); (row, col + 1); (row + 1, col + 1)].

(** [validation.valid] *)
Definition accepted (v : BetManager.validation) : bool :=
  match v with
  | BetManager.Valid => true
  | BetManager.Invalid _ => false
  end.

(** A cell whose click proposes a bet that [validateBet] accepts. *)
Definition proposalAccepted (cell : BettingTable.Cell) : bool :=
  match BettingTable.proposedBet cell with
  | Some (betType, numbers) => accepted (BetManager.validateBet betType numbers)
  | None => false
  end.

(** The number a cell stakes straight up on, if it is such a cell. *)
Definition straightNumber (cell : BettingTable.Cell) : option value :=
  match BettingTable.proposedBet cell with
  | Some (betType, [number]) =>
      if String.eqb betType "straight" then Some number else None
  | _ => None
  end.

(** The straight-up cells displayed in a grid row, by their numbers. *)
Definition numbersDisplayedInRow (row : Z) : list string :=
  omap BettingTable.dataNumber
       (List.filter (fun cell =>
                       String.eqb (BettingTable.dataType cell) "straight" &&
                       bool_decide (BettingTable.gridRow cell = Some row))
                    BettingTable.render).

#[global] Instance Cell_eq_dec : EqDecision BettingTable.Cell.
Proof. solve_decision. Defined.

(** A bet of the given type on the given numbers. *)
Definition wager (betType : string) (nums : list value) : Bet :=
  {| betId := 0; type := betType; numbers := nums; amount := 1;
     position := None; timestamp := 0 |}.

(** The bet a cell proposes is on this cell and on no other rendered
    cell. *)
Definition onOwnCellOnly (cell : BettingTable.Cell) : bool :=
  match BettingTable.proposedBet cell with
  | Some (betType, nums) =>
      forallb (fun other =>
                 bool_decide (BettingTable.isBetOnCell (wager betType nums) other =
                                Some (bool_decide (other = cell))))
              BettingTable.render
  | None => false
  end.

(** How often [x] occurs in [l]. *)
Definition occurrences (x : value) (l : list value) : nat :=
  length (filter (fun y => y = x) l).

(** [a] is not sorted after [b]. *)
Definition notAfter {A} (compare : A -> A -> Z) (a b : A) : Prop := compare a b <= 0.

(** How often the key was spun in a list of rounds. *)
Definition spinCount (key : string) (rounds : list HistoryEntry) : Z :=
  Z.of_nat (length (filter (fun h => toPropertyKey (spinNumber h) = key) rounds)).

(** The wheel labels as property keys. *)
Definition wheelKeys : list string := map toPropertyKey RouletteConfig.wheelOrder.

(** The balance mutators, as commands. *)
Inductive BalanceMutation : Type :=
| SetBalance (amount : Z)
| Credit (amount : Z)
| Debit (amount : Z)
| ResetToDefault.

(** The value a mutation asks for, before the floor. *)
Definition requestedBalance (m : BalanceMutation) (st : State) : Z :=
  match m with
  | SetBalance a => a
  | Credit a => balance st + a
  | Debit a => balance st - a
  | ResetToDefault => RouletteConfig.defaultBalance
  end.

Definition mutate (m : BalanceMutation) (st : State) : State :=
  match m with
  | SetBalance a => updateBalance a st
  | Credit a => addToBalance a st
  | Debit a => subtractFromBalance a st
  | ResetToDefault => resetBalance st
  end.

(** The states a sequence of mutations goes through, one per mutation. *)
Fixpoint statesAlong (ms : list BalanceMutation) (st : State) : list State :=
  match ms with
  | [] => []
  | m :: rest => mutate m st :: statesAlong rest (mutate m st)
  end.

(** The states a sequence of history appends goes through. *)
Fixpoint appendsAlong (es : list HistoryEntry) (st : State) : list State :=
  match es with
  | [] => []
  | e :: rest => addToHistory e st :: appendsAlong rest (addToHistory e st)
  end.

(** ** Sample data *)

(** A five-number bet under a type the catalog does not have. *)
Definition sampleUnknownBet : Bet :=
  {| betId := 0; type := "basket";
     numbers := [VNum 0; VStr "00"; VNum 1; VNum 2; VNum 3];
     amount := 25; position := None; timestamp := 0 |}.

Definition straightOn17 (stake : Z) (stamp : nat) : Bet :=
  {| betId := stamp; type := "straight"; numbers := [VNum 17];
     amount := stake; position := None; timestamp := stamp |}.

Definition redNumbers : list value :=
  map VNum [1; 3; 5; 7; 9; 12; 14; 16; 18; 19; 21; 23; 25; 27; 30; 32; 34; 36].

Definition blackNumbers : list value :=
  map VNum [2; 4; 6; 8; 10; 11; 13; 15; 17; 20; 22; 24; 26; 28; 29; 31; 33; 35].

Definition onRed (stake : Z) (stamp : nat) : Bet :=
  {| betId := stamp; type := "red"; numbers := redNumbers;
     amount := stake; position := None; timestamp := stamp |}.

Definition onBlack (stake : Z) (stamp : nat) : Bet :=
  {| betId := stamp; type := "black"; numbers := blackNumbers;
     amount := stake; position := None; timestamp := stamp |}.

(** A session as it starts: the default balance, nothing placed, no
    history. *)
Definition freshSession : State :=
  {| balance := RouletteConfig.defaultBalance; currentBets := [];
     history := []; lastResult := None; isSpinning := false; clock := 0 |}.

(** A fresh session with two bets placed. *)
Definition openingTable : State :=
  {| balance := 1000;
     currentBets := [straightOn17 10 0; onRed 50 1];
     history := []; lastResult := None; isSpinning := false; clock := 2 |}.

(** After a straight bet of 1000 has won (balance 36000), six straight
    bets of 1000 are on the table: 6000 staked, the player can afford to
    double, but the table maximum leaves room for four more only. *)
Definition crowdedTable : State :=
  {| balance := 36000;
     currentBets := map (straightOn17 1000) [1; 2; 3; 4; 5; 6]%nat;
     history :=
       [ {| spinNumber := VNum 17; bets := Some [straightOn17 1000 0];
            totalBet := 1000; totalWin := 36000; netProfit := 35000 |} ];
     lastResult := Some (VNum 17); isSpinning := false; clock := 7 |}.

(** After 300 on red has lost (balance 700), 500 is placed on black:
    the balance covers the 300 of the last round, the balance less the
    pending 500 does not. *)
Definition pendingTable : State :=
  {| balance := 700;
     currentBets := [onBlack 500 1];
     history :=
       [ {| spinNumber := VNum 2; bets := Some [onRed 300 0];
            totalBet := 300; totalWin := 0; netProfit := -300 |} ];
     lastResult := Some (VNum 2); isSpinning := false; clock := 2 |}.

(** After 300 on red has lost, with nothing placed since. *)
Definition idleTable : State :=
  {| balance := 700;
     currentBets := [];
     history :=
       [ {| spinNumber := VNum 2; bets := Some [onRed 300 0];
            totalBet := 300; totalWin := 0; netProfit := -300 |} ];
     lastResult := Some (VNum 2); isSpinning := false; clock := 1 |}.

(** Nine straight bets of 1000 and one of 990: 9990 staked. *)
Definition nearlyFullTable : State :=
  {| balance := 36000;
     currentBets :=
       map (straightOn17 1000) [1; 2; 3; 4; 5; 6; 7; 8; 9]%nat ++
       [straightOn17 990 10];
     history := []; lastResult := None; isSpinning := false; clock := 11 |}.

(** * Properties *)

Lemma includes_elem_of (arr : list value) (x : value) :
  includes arr x = true <-> x ∈ arr.
Proof.
  unfold includes, sameValueZero. rewrite existsb_exists. split.
  - intros (y & Hy & Heq). apply bool_decide_eq_true in Heq. subst y.
    by apply list_elem_of_In.
  - intros Hx. exists x. split; [by apply list_elem_of_In|].
    by apply bool_decide_eq_true.
Qed.

(** C1.  The resolution of a single bet against a spin outcome: the bet
    wins exactly when the outcome is one of its numbers; a winning bet
    pays its stake times the catalog multiplier of its type and returns
    the stake with it; a losing bet pays and returns nothing. *)
Theorem calculateBetPayout_resolves (b : Bet) (w : value) :
  let r := PayoutCalculator.calculateBetPayout b w in
  (PayoutCalculator.isWinner r = true <-> w ∈ numbers b) /\
  (w ∈ numbers b ->
     PayoutCalculator.payout r = amount b * PayoutCalculator.getPayoutOdds (type b) /\
     PayoutCalculator.totalReturn r = amount b + PayoutCalculator.payout r /\
     forall t, RouletteConfig.betTypes !! type b = Some t ->
       PayoutCalculator.payout r = amount b * RouletteConfig.payout t) /\
  (w ∉ numbers b ->
     PayoutCalculator.isWinner r = false /\
     PayoutCalculator.payout r = 0 /\
     PayoutCalculator.totalReturn r = 0).
Proof.
  cbv zeta. unfold PayoutCalculator.calculateBetPayout, PayoutCalculator.getPayoutOdds.
  destruct (includes (numbers b) w) eqn:Hinc; cbn.
  - apply includes_elem_of in Hinc. split; [done|]. split; [|done].
    intros _. split; [done|]. split; [done|]. intros t Ht. by rewrite Ht.
  - assert (w ∉ numbers b) as Hn.
    { intros Hin. apply includes_elem_of in Hin. congruence. }
    split; [split; [done | intros; contradiction]|]. split; [intros; contradiction | done].
Qed.



(** C7.  For every standard bet type the house edge, computed from the
    catalog's number count and payout, is 200/38 percent as a rational,
    hence within 0.01 of 5.26; the double the source computes is within
    0.01 of 5.26 as well. *)
Theorem calculateHouseEdge_standard (t : string) :
  t ∈ PayoutCalculator.standardBetTypes ->
  is_Some (RouletteConfig.betTypes !! t) /\
  (PayoutCalculator.calculateHouseEdgeQ t == 200 # 38)%Q /\
  PayoutCalculator.nearStandardEdgeQ (PayoutCalculator.calculateHouseEdgeQ t) /\
  PayoutCalculator.nearStandardEdge (PayoutCalculator.calculateHouseEdge t) = true.
Proof.
  revert t. apply Forall_forall.
  unfold PayoutCalculator.standardBetTypes.
  repeat apply Forall_cons_2; try apply Forall_nil_2;
    (split; [vm_compute; eauto |
     split; [vm_compute; reflexivity |
     split; [vm_compute; discriminate | vm_compute; reflexivity]]]).
Qed.

Lemma calculateHouseEdge_standard_witness :
  PayoutCalculator.nearStandardEdge (PayoutCalculator.calculateHouseEdge "corner") = true.
Proof.
  apply (calculateHouseEdge_standard "corner").
  unfold PayoutCalculator.standardBetTypes.
  do 3 (apply elem_of_cons; right). apply elem_of_cons. by left.
Defined.

(** ** Balance *)

Lemma updateBalance_balance (a : Z) (st : State) :
  balance (updateBalance a st) = Z.max 0 a.
Proof. reflexivity. Qed.

Lemma mutate_balance (m : BalanceMutation) (st : State) :
  balance (mutate m st) = Z.max 0 (requestedBalance m st).
Proof. destruct m; reflexivity. Qed.

(** C8.  Along every sequence of balance mutations (set, credit, debit,
    reset) from any state, each resulting balance is at least zero; a
    mutation whose arithmetic result is negative leaves the balance at
    zero, any other leaves it at that result. *)
Theorem balance_never_negative (st : State) (ms : list BalanceMutation) :
  Forall (fun s => 0 <= balance s) (statesAlong ms st) /\
  (forall m s, requestedBalance m s < 0 -> balance (mutate m s) = 0) /\
  (forall m s, 0 <= requestedBalance m s ->
               balance (mutate m s) = requestedBalance m s).
Proof.
  split; [|split].
  - revert st. induction ms as [|m ms IH]; intros st; cbn.
    + constructor.
    + constructor; [rewrite mutate_balance; lia | apply IH].
  - intros m s Hneg. rewrite mutate_balance. lia.
  - intros m s Hpos. rewrite mutate_balance. lia.
Qed.

(** ** History *)

Lemma addToHistory_take (e : HistoryEntry) (st : State) :
  history (addToHistory e st) = take RouletteConfig.maxEntries (e :: history st).
Proof.
  unfold addToHistory. case_decide as Hlen; cbn [history withHistory].
  - reflexivity.
  - symmetry. apply take_ge. lia.
Qed.

(** C9.  The history is newest-first and bounded: an appended entry
    becomes the first element, what follows it is a prefix of the
    previous history (only the oldest entries are dropped), and after
    every append of every sequence of appends the length is at most
    50. *)
Theorem addToHistory_bounded_newest_first (st : State) (es : list HistoryEntry) :
  RouletteConfig.maxEntries = 50%nat /\
  (forall e s, head (history (addToHistory e s)) = Some e) /\
  (forall e s, history (addToHistory e s) =
               e :: take (RouletteConfig.maxEntries - 1) (history s)) /\
  (forall e s, length (history (addToHistory e s)) =
               (S (length (history s)) `min` RouletteConfig.maxEntries)%nat) /\
  Forall (fun s => (length (history s) <= RouletteConfig.maxEntries)%nat)
         (appendsAlong es st).
Proof.
  split; [reflexivity|].
  split; [intros e s; by rewrite addToHistory_take|].
  split; [intros e s; by rewrite addToHistory_take|].
  split.
  - intros e s. rewrite addToHistory_take, length_take. cbn [length]. lia.
  - revert st. induction es as [|e es IH]; intros st; cbn [appendsAlong].
    + constructor.
    + constructor; [|apply IH].
      rewrite addToHistory_take, length_take. lia.
Qed.

(** ** Sorting *)

Lemma sortAscending_sorted (l : list Z) : Sorted Z.le (sortAscending l).
Proof. apply (Sorted_merge_sort Z.le). Qed.

Lemma sortAscending_perm (l : list Z) : sortAscending l ≡ₚ l.
Proof. apply (merge_sort_Permutation Z.le). Qed.

Lemma sortAscending_unique (l k : list Z) :
  Sorted Z.le k -> k ≡ₚ l -> sortAscending l = k.
Proof.
  intros Hk Hperm. apply (Sorted_unique Z.le).
  - apply sortAscending_sorted.
  - exact Hk.
  - by rewrite sortAscending_perm.
Qed.

Lemma sortAscending_pair (p q : Z) :
  sortAscending [p; q] = [Z.min p q; Z.max p q].
Proof.
  apply sortAscending_unique.
  - repeat constructor. lia.
  - destruct (Z.le_gt_cases p q).
    + rewrite Z.min_l, Z.max_r by lia. done.
    + rewrite Z.min_r, Z.max_l by lia. apply perm_swap.
Qed.

Lemma sortAscending_length (l : list Z) : length (sortAscending l) = length l.
Proof. by rewrite sortAscending_perm. Qed.

(** ** Split geometry *)

Lemma isInteger1To36_spec (v : value) :
  BetManager.isInteger1To36 v = true <-> exists k, v = VNum k /\ 1 <= k <= 36.
Proof.
  destruct v as [k| | | | |]; cbn; split;
    try discriminate; try (intros (k' & Hk & _); discriminate).
  - intros H. exists k. split; [done|lia].
  - intros (k' & [= <-] & Hr). lia.
Qed.

Lemma validateSplitNumbers_in_range (x y : Z) :
  1 <= x <= 36 -> 1 <= y <= 36 ->
  BetManager.validateSplitNumbers [VNum x; VNum y] =
    if decide ((Z.max x y = Z.min x y + 1 /\ Z.min x y mod 3 <> 0) \/
               Z.max x y = Z.min x y + 3)
    then BetManager.Valid
    else BetManager.Invalid BetManager.SplitNotAdjacent.
Proof.
  intros Hx Hy. unfold BetManager.validateSplitNumbers, BetManager.areAllIntegers1To36.
  cbn [forallb BetManager.isInteger1To36 map asNumber].
  replace ((1 <=? x) && (x <=? 36)) with true by lia.
  replace ((1 <=? y) && (y <=? 36)) with true by lia.
  cbn [negb andb]. rewrite sortAscending_pair. unfold remainder.
  rewrite Z.rem_mod_nonneg by lia.
  set (a := Z.min x y). set (b := Z.max x y).
  case_decide as Hgeo.
  - destruct Hgeo as [[Hb Ha] | Hb].
    + replace (b =? a + 1) with true by lia.
      replace (a `mod` 3 =? 0) with false by lia. reflexivity.
    + replace (b =? a + 3) with true by lia.
      by rewrite andb_false_r.
  - destruct (b =? a + 3) eqn:Hv; [exfalso; apply Hgeo; right; lia|].
    destruct (b =? a + 1) eqn:Hh; [|reflexivity].
    destruct (a `mod` 3 =? 0) eqn:Hm; [reflexivity|].
    exfalso. apply Hgeo. left. lia.
Qed.

Lemma validateSplitNumbers_out_of_range (v1 v2 : value) :
  ~ ((exists x, v1 = VNum x /\ 1 <= x <= 36) /\
     (exists y, v2 = VNum y /\ 1 <= y <= 36)) ->
  BetManager.validateSplitNumbers [v1; v2] =
    BetManager.Invalid BetManager.SplitOnly1To36.
Proof.
  intros Hnot. unfold BetManager.validateSplitNumbers, BetManager.areAllIntegers1To36.
  cbn [forallb].
  destruct (BetManager.isInteger1To36 v1) eqn:H1;
    destruct (BetManager.isInteger1To36 v2) eqn:H2; try reflexivity.
  exfalso. apply Hnot. split; by apply isInteger1To36_spec.
Qed.

(** C5.  A pair of numbers is accepted as a split exactly when both are
    integers of 1..36 and, named [a < b], either [b = a + 1] with [a] not
    a multiple of 3, or [b = a + 3]; a pair that involves 0 or 00 is
    rejected with a geometry reason; (14,17) and (17,18) are accepted,
    (18,19) is rejected. *)
Theorem validateSplitNumbers_pair (v1 v2 : value) :
  (BetManager.validateSplitNumbers [v1; v2] = BetManager.Valid <->
   exists a b : Z,
     1 <= a <= 36 /\ 1 <= b <= 36 /\ a < b /\
     ([v1; v2] = [VNum a; VNum b] \/ [v1; v2] = [VNum b; VNum a]) /\
     ((b = a + 1 /\ a mod 3 <> 0) \/ b = a + 3)) /\
  (forall z, z ∈ [VNum 0; VStr "00"] -> v1 = z \/ v2 = z ->
     exists e, BetManager.validateSplitNumbers [v1; v2] = BetManager.Invalid e /\
               Validator.reasonOf e = Some Validator.InvalidGeometry) /\
  BetManager.validateSplitNumbers [VNum 14; VNum 17] = BetManager.Valid /\
  BetManager.validateSplitNumbers [VNum 17; VNum 18] = BetManager.Valid /\
  BetManager.validateSplitNumbers [VNum 18; VNum 19] =
    BetManager.Invalid BetManager.SplitNotAdjacent.
Proof.
  split; [|split; [|by vm_compute]].
  - split.
    + intros Hvalid.
      destruct (decide ((exists x, v1 = VNum x /\ 1 <= x <= 36) /\
                        (exists y, v2 = VNum y /\ 1 <= y <= 36)))
        as [[(x & -> & Hx) (y & -> & Hy)] | Hout].
      2:{ rewrite validateSplitNumbers_out_of_range in Hvalid by done. discriminate. }
      rewrite validateSplitNumbers_in_range in Hvalid by done.
      case_decide as Hgeo; [|discriminate].
      destruct (Z.le_gt_cases x y).
      * rewrite Z.min_l, Z.max_r in Hgeo by lia.
        exists x, y. repeat split; try lia. by left.
      * rewrite Z.min_r, Z.max_l in Hgeo by lia.
        exists y, x. repeat split; try lia. by right.
    + intros (a & b & Ha & Hb & Hlt & Hshape & Hgeo).
      destruct Hshape as [[= -> ->] | [= -> ->]];
        rewrite validateSplitNumbers_in_range by done.
      * rewrite Z.min_l, Z.max_r by lia. by rewrite decide_True.
      * rewrite Z.min_r, Z.max_l by lia. by rewrite decide_True.
  - intros z Hz Hor. exists BetManager.SplitOnly1To36. split; [|reflexivity].
    apply validateSplitNumbers_out_of_range.
    intros [(x & Hx1 & Hx2) (y & Hy1 & Hy2)]. subst v1 v2.
    apply elem_of_cons in Hz as [-> | Hz];
      [|apply elem_of_cons in Hz as [-> | Hz]; [|by apply elem_of_nil in Hz]].
    + destruct Hor as [[= ->] | [= ->]]; lia.
    + destruct Hor; discriminate.
Qed.

(** ** Corner geometry *)

Lemma square_sorted (n : Z) :
  sortAscending [n; n + 1; n + 3; n + 4] = [n; n + 1; n + 3; n + 4].
Proof. apply sortAscending_unique; [repeat constructor; lia | done]. Qed.

Lemma everyMatchesAt_four (e1 e2 e3 e4 : Z) (sorted : list Z) :
  length sorted = 4%nat ->
  everyMatchesAt [e1; e2; e3; e4] sorted = true <-> sorted = [e1; e2; e3; e4].
Proof.
  intros Hlen.
  destruct sorted as [|s1 [|s2 [|s3 [|s4 [|]]]]]; try discriminate.
  unfold everyMatchesAt. cbn.
  rewrite !andb_true_iff, !bool_decide_eq_true. split.
  - intros ([= ->] & [= ->] & [= ->] & [= ->] & _). reflexivity.
  - intros [= -> -> -> ->]. done.
Qed.

Lemma areAllIntegers1To36_spec (nums : list value) :
  BetManager.areAllIntegers1To36 nums = true <->
  exists zs, nums = map VNum zs /\ Forall (fun k => 1 <= k <= 36) zs.
Proof.
  unfold BetManager.areAllIntegers1To36. induction nums as [|v nums IH]; cbn.
  - split; [|done]. intros _. by exists [].
  - rewrite andb_true_iff, IH, isInteger1To36_spec. split.
    + intros [(k & -> & Hk) (zs & -> & Hzs)]. exists (k :: zs). split; [done|].
      by constructor.
    + intros (zs & Heq & Hzs). destruct zs as [|k zs]; [discriminate|].
      injection Heq as -> ->. apply Forall_cons in Hzs as [Hk Hzs]. split; eauto.
Qed.

Lemma map_asNumber_VNum (zs : list Z) : map asNumber (map VNum zs) = zs.
Proof. induction zs as [|z zs IH]; cbn; [done | by rewrite IH]. Qed.

Lemma validateCornerNumbers_in_range (zs : list Z) :
  Forall (fun k => 1 <= k <= 36) zs ->
  length zs = 4%nat ->
  BetManager.validateCornerNumbers (map VNum zs) = BetManager.Valid <->
  exists n, n mod 3 <> 0 /\ n <= 32 /\
            sortAscending zs = [n; n + 1; n + 3; n + 4].
Proof.
  intros Hrange Hlen. unfold BetManager.validateCornerNumbers.
  assert (BetManager.areAllIntegers1To36 (map VNum zs) = true) as ->.
  { apply areAllIntegers1To36_spec. eauto. }
  cbn [negb]. rewrite map_asNumber_VNum.
  pose proof (sortAscending_length zs) as Hslen. rewrite Hlen in Hslen.
  pose proof (sortAscending_perm zs) as Hperm.
  destruct (sortAscending zs) as [|n rest] eqn:Hsorted; [discriminate|].
  assert (1 <= n <= 36) as Hn.
  { eapply (proj1 (Forall_forall _ zs) Hrange).
    rewrite <- Hperm. apply elem_of_cons. by left. }
  unfold remainder. rewrite Z.rem_mod_nonneg by lia. rewrite square_sorted.
  split.
  - intros Hvalid.
    destruct (n `mod` 3 =? 0) eqn:Hm; [discriminate|].
    destruct (32 <? n) eqn:Hb; [discriminate|]. cbn [orb] in Hvalid.
    destruct (everyMatchesAt _ _) eqn:Hmatch; [|discriminate].
    apply everyMatchesAt_four in Hmatch; [|done].
    exists n. repeat split; [lia | lia | done].
  - intros (m & Hm & Hb & Heq). injection Heq as -> Hrest.
    replace (m `mod` 3 =? 0) with false by lia.
    replace (32 <? m) with false by lia. cbn [orb].
    assert (everyMatchesAt [m; m + 1; m + 3; m + 4] (m :: rest) = true) as ->.
    { apply everyMatchesAt_four; [done | by rewrite Hrest]. }
    reflexivity.
Qed.

Lemma validateCornerNumbers_out_of_range (nums : list value) :
  BetManager.areAllIntegers1To36 nums = false ->
  BetManager.validateCornerNumbers nums =
    BetManager.Invalid BetManager.CornerOnly1To36.
Proof. intros H. unfold BetManager.validateCornerNumbers. by rewrite H. Qed.

(** A four-element list with the elements of a square is a
    rearrangement of the square. *)
Lemma square_rearranged (n : Z) (zs : list Z) :
  length zs = 4%nat ->
  (forall z, z ∈ zs <-> z ∈ [n; n + 1; n + 3; n + 4]) ->
  zs ≡ₚ [n; n + 1; n + 3; n + 4].
Proof.
  intros Hlen Hset. symmetry. apply submseteq_length_Permutation.
  - apply NoDup_submseteq.
    + repeat (apply NoDup_cons; split;
                [rewrite ?elem_of_cons, elem_of_nil; lia|]).
      apply NoDup_nil_2.
    + intros z Hz. by apply Hset.
  - rewrite Hlen. done.
Qed.

(** C6.  Four numbers are accepted as a corner exactly when all are
    integers of 1..36 and, with [n] the smallest, [n] is not a multiple of
    3, [n <= 32], and the numbers are as a set [{n, n+1, n+3, n+4}];
    {1,2,4,5} is accepted and {3,4,6,7} is rejected. *)
Theorem validateCornerNumbers_four (v1 v2 v3 v4 : value) :
  (BetManager.validateCornerNumbers [v1; v2; v3; v4] = BetManager.Valid <->
   exists n : Z,
     Forall (fun v => exists k, v = VNum k /\ 1 <= k <= 36) [v1; v2; v3; v4] /\
     VNum n ∈ [v1; v2; v3; v4] /\
     (forall k, VNum k ∈ [v1; v2; v3; v4] -> n <= k) /\
     n mod 3 <> 0 /\ n <= 32 /\
     (forall v, v ∈ [v1; v2; v3; v4] <->
                v ∈ [VNum n; VNum (n + 1); VNum (n + 3); VNum (n + 4)])) /\
  BetManager.validateCornerNumbers [VNum 1; VNum 2; VNum 4; VNum 5] =
    BetManager.Valid /\
  BetManager.validateCornerNumbers [VNum 3; VNum 4; VNum 6; VNum 7] =
    BetManager.Invalid BetManager.CornerNotSquare.
Proof.
  split; [|by vm_compute]. split.
  - intros Hvalid.
    destruct (BetManager.areAllIntegers1To36 [v1; v2; v3; v4]) eqn:Hall.
    2:{ rewrite validateCornerNumbers_out_of_range in Hvalid by done. discriminate. }
    apply areAllIntegers1To36_spec in Hall as (zs & Heq & Hrange).
    assert (length zs = 4%nat) as Hlen.
    { apply (f_equal length) in Heq. rewrite length_map in Heq. by cbn in Heq. }
    rewrite Heq in *.
    apply validateCornerNumbers_in_range in Hvalid as (n & Hm & Hb & Hsorted);
      [|done..].
    pose proof (sortAscending_perm zs) as Hperm. rewrite Hsorted in Hperm.
    exists n. split; [|split; [|split; [|split; [done|split; [done|]]]]].
    + apply Forall_fmap. eapply Forall_impl; [exact Hrange|].
      intros k Hk. cbn. eauto.
    + apply list_elem_of_fmap. exists n. split; [done|].
      rewrite <- Hperm. apply elem_of_cons. by left.
    + intros k Hk. apply list_elem_of_fmap in Hk as (k' & [= <-] & Hk').
      rewrite <- Hperm in Hk'. rewrite !elem_of_cons, elem_of_nil in Hk'. lia.
    + intros v. change [VNum n; VNum (n + 1); VNum (n + 3); VNum (n + 4)]
        with (map VNum [n; n + 1; n + 3; n + 4]).
      by rewrite <- Hperm.
  - intros (n & Hall & Hin & Hmin & Hm & Hb & Hset).
    assert (exists zs, [v1; v2; v3; v4] = map VNum zs /\
                       Forall (fun k => 1 <= k <= 36) zs) as (zs & Heq & Hrange).
    { apply areAllIntegers1To36_spec. unfold BetManager.areAllIntegers1To36.
      apply forallb_forall. intros v Hv. apply isInteger1To36_spec.
      apply list_elem_of_In in Hv.
      by apply (proj1 (Forall_forall _ _) Hall). }
    assert (length zs = 4%nat) as Hlen.
    { apply (f_equal length) in Heq. rewrite length_map in Heq. by cbn in Heq. }
    rewrite Heq in *. apply validateCornerNumbers_in_range; [done..|].
    exists n. split; [done|]. split; [done|].
    apply sortAscending_unique; [repeat constructor; lia|].
    symmetry. apply square_rearranged; [done|].
    intros z. specialize (Hset (VNum z)).
    change [VNum n; VNum (n + 1); VNum (n + 3); VNum (n + 4)]
      with (map VNum [n; n + 1; n + 3; n + 4]) in Hset.
    rewrite !list_elem_of_fmap in Hset. split.
    + intros Hz. destruct (proj1 Hset) as (k & [= <-] & Hk); eauto.
    + intros Hz. destruct (proj2 Hset) as (k & [= <-] & Hk); eauto.
Qed.

(** ** The checks of [validateBet], one by one *)

Lemma setAddAll_length_le (seen arr : list value) :
  (length (setAddAll seen arr) <= length seen + length arr)%nat.
Proof.
  revert seen. induction arr as [|x rest IH]; intros seen; cbn.
  - lia.
  - destruct (includes seen x).
    + specialize (IH seen). lia.
    + specialize (IH (seen ++ [x])). rewrite length_app in IH. cbn in IH. lia.
Qed.

Lemma setAddAll_length_eq (seen arr : list value) :
  length (setAddAll seen arr) = (length seen + length arr)%nat <->
  NoDup arr /\ forall x, x ∈ arr -> x ∉ seen.
Proof.
  revert seen. induction arr as [|x rest IH]; intros seen; cbn [setAddAll length].
  - split; [intros _|lia]. split; [constructor|]. intros x Hx. by apply elem_of_nil in Hx.
  - destruct (includes seen x) eqn:Hinc.
    + apply includes_elem_of in Hinc. split.
      * intros Hlen. pose proof (setAddAll_length_le seen rest). lia.
      * intros [_ Hfresh]. exfalso. apply (Hfresh x); [|done].
        apply elem_of_cons. by left.
    + assert (x ∉ seen) as Hx.
      { intros Hin. apply includes_elem_of in Hin. congruence. }
      specialize (IH (seen ++ [x])). rewrite length_app in IH. cbn [length] in IH.
      replace (length seen + S (length rest))%nat
        with (length seen + 1 + length rest)%nat by lia.
      rewrite IH, NoDup_cons. split.
      * intros [Hnd Hfresh]. split; [split; [|done]|].
        -- intros Hin. apply (Hfresh x Hin). apply elem_of_app. right.
           apply elem_of_cons. by left.
        -- intros y Hy Hseen. apply elem_of_cons in Hy as [-> | Hy]; [done|].
           apply (Hfresh y Hy). apply elem_of_app. by left.
      * intros [[Hxr Hnd] Hfresh]. split; [done|].
        intros y Hy Hin. apply elem_of_app in Hin as [Hin | Hin].
        -- apply (Hfresh y); [|done]. apply elem_of_cons. by right.
        -- apply elem_of_cons in Hin as [-> | Hin]; [done|].
           by apply elem_of_nil in Hin.
Qed.

Lemma spreadSet_length (arr : list value) :
  (length (spreadSet arr) =? length arr)%nat = Validator.distinctSlots arr.
Proof.
  unfold Validator.distinctSlots, spreadSet.
  pose proof (setAddAll_length_eq [] arr) as Heq. cbn [length Nat.add] in Heq.
  destruct (decide (NoDup arr)) as [Hnd | Hnd].
  - rewrite bool_decide_eq_true_2 by done. apply Nat.eqb_eq, Heq.
    split; [done|]. intros x _ Hx. by apply elem_of_nil in Hx.
  - rewrite bool_decide_eq_false_2 by done. apply Nat.eqb_neq.
    intros Hlen. apply Hnd. by apply Heq.
Qed.

Lemma invalidNumbers_empty (nums : list value) :
  List.filter (fun num => negb (includes RouletteConfig.wheelOrder num)) nums = [] <->
  Forall (fun s => s ∈ RouletteConfig.wheelOrder) nums.
Proof.
  induction nums as [|v nums IH]; cbn [List.filter].
  - split; [constructor | done].
  - destruct (includes RouletteConfig.wheelOrder v) eqn:Hinc; cbn [negb].
    + apply includes_elem_of in Hinc. rewrite IH, Forall_cons. tauto.
    + split; [discriminate|]. intros Hall. apply Forall_cons in Hall as [Hv _].
      apply includes_elem_of in Hv. congruence.
Qed.

Lemma validSlots_spec (nums : list value) :
  Validator.validSlots nums =
    negb (length nums =? 0)%nat &&
    negb (0 <? length (List.filter
            (fun num => negb (includes RouletteConfig.wheelOrder num)) nums))%nat.
Proof.
  unfold Validator.validSlots.
  pose proof (invalidNumbers_empty nums) as Hinv.
  destruct nums as [|v nums].
  - reflexivity.
  - cbn [length Nat.eqb negb andb].
    destruct (List.filter _ (v :: nums)) as [|w ws] eqn:Hf.
    + cbn. apply bool_decide_eq_true_2. split; [done|]. by apply Hinv.
    + cbn. apply bool_decide_eq_false_2. intros [_ Hall].
      apply Hinv in Hall. discriminate.
Qed.

Lemma validateSplitNumbers_reason (nums : list value) (e : BetManager.error) :
  BetManager.validateSplitNumbers nums = BetManager.Invalid e ->
  Validator.reasonOf e = Some Validator.InvalidGeometry.
Proof.
  unfold BetManager.validateSplitNumbers.
  repeat (match goal with
          | |- context [if ?c then _ else _] => destruct c
          | |- context [match ?l with [] => _ | _ :: _ => _ end] => destruct l
          end); intros [= <-] || discriminate; reflexivity.
Qed.

Lemma validateCornerNumbers_reason (nums : list value) (e : BetManager.error) :
  BetManager.validateCornerNumbers nums = BetManager.Invalid e ->
  Validator.reasonOf e = Some Validator.InvalidGeometry.
Proof.
  unfold BetManager.validateCornerNumbers.
  repeat (match goal with
          | |- context [if ?c then _ else _] => destruct c
          | |- context [match ?l with [] => _ | _ :: _ => _ end] => destruct l
          end); cbv zeta; intros [= <-] || discriminate; reflexivity.
Qed.

Lemma splitGeometry_validate (v1 v2 : value) :
  Validator.splitGeometry [v1; v2] = true <->
  BetManager.validateSplitNumbers [v1; v2] = BetManager.Valid.
Proof.
  destruct (decide ((exists x, v1 = VNum x /\ 1 <= x <= 36) /\
                    (exists y, v2 = VNum y /\ 1 <= y <= 36)))
    as [[(x & -> & Hx) (y & -> & Hy)] | Hout].
  - rewrite validateSplitNumbers_in_range by done. cbn [Validator.splitGeometry].
    rewrite bool_decide_eq_true. case_decide; split; try done; try tauto.
  - rewrite validateSplitNumbers_out_of_range by done.
    split; [|discriminate]. intros Hgeo. exfalso. apply Hout.
    destruct v1 as [x| | | | |], v2 as [y| | | | |]; try discriminate.
    cbn [Validator.splitGeometry] in Hgeo. apply bool_decide_eq_true in Hgeo.
    split; [exists x | exists y]; tauto.
Qed.

Lemma foldr_min_spec (z : Z) (zs : list Z) :
  foldr Z.min z zs ∈ z :: zs /\ forall k, k ∈ z :: zs -> foldr Z.min z zs <= k.
Proof.
  induction zs as [|y zs [IHin IHle]]; cbn [foldr].
  - split; [apply elem_of_cons; by left|].
    intros k Hk. apply elem_of_cons in Hk as [-> | Hk]; [lia|].
    by apply elem_of_nil in Hk.
  - split.
    + destruct (Z.min_spec y (foldr Z.min z zs)) as [[_ ->] | [_ ->]].
      * apply elem_of_cons. right. apply elem_of_cons. by left.
      * apply elem_of_cons in IHin as [-> | IHin].
        -- apply elem_of_cons. by left.
        -- apply elem_of_cons. right. apply elem_of_cons. by right.
    + intros k Hk. apply elem_of_cons in Hk as [-> | Hk].
      * etrans; [apply Z.le_min_r|]. apply IHle, elem_of_cons. by left.
      * apply elem_of_cons in Hk as [-> | Hk]; [apply Z.le_min_l|].
        etrans; [apply Z.le_min_r|]. apply IHle, elem_of_cons. by right.
Qed.

Lemma isNumber1To36_all (nums : list value) :
  Forall Validator.isNumber1To36 nums <-> BetManager.areAllIntegers1To36 nums = true.
Proof.
  unfold BetManager.areAllIntegers1To36. rewrite forallb_forall, Forall_forall.
  split; intros H v Hv.
  - apply isInteger1To36_spec. apply H. by apply list_elem_of_In.
  - apply isInteger1To36_spec. apply H. by apply list_elem_of_In.
Qed.

Lemma square_elements (n : Z) (zs : list Z) :
  list_to_set zs =@{gset Z} {[ n; n + 1; n + 3; n + 4 ]} <->
  forall z, z ∈ zs <-> z ∈ [n; n + 1; n + 3; n + 4].
Proof.
  split.
  - intros Hset z. rewrite <- (elem_of_list_to_set (C := gset Z)), Hset.
    rewrite !elem_of_union, !elem_of_singleton, !elem_of_cons, elem_of_nil. tauto.
  - intros Hall. apply set_eq. intros z. rewrite elem_of_list_to_set, Hall.
    rewrite !elem_of_union, !elem_of_singleton, !elem_of_cons, elem_of_nil. tauto.
Qed.

Lemma cornerGeometry_validate (nums : list value) :
  length nums = 4%nat ->
  Validator.cornerGeometry nums = true <->
  BetManager.validateCornerNumbers nums = BetManager.Valid.
Proof.
  intros Hlen. destruct (BetManager.areAllIntegers1To36 nums) eqn:Hall.
  - pose proof Hall as Hall'.
    apply areAllIntegers1To36_spec in Hall as (zs & -> & Hrange).
    rewrite length_map in Hlen.
    rewrite validateCornerNumbers_in_range by done.
    unfold Validator.cornerGeometry. rewrite map_asNumber_VNum.
    destruct zs as [|z zs']; [discriminate|].
    destruct (foldr_min_spec z zs') as [Hin Hle].
    set (n := foldr Z.min z zs') in *.
    rewrite bool_decide_eq_true, isNumber1To36_all, square_elements. split.
    + intros (_ & Hm & Hb & Hset). exists n. split; [done|]. split; [done|].
      apply sortAscending_unique; [repeat constructor; lia|].
      symmetry. by apply square_rearranged.
    + intros (m & Hm & Hb & Hsorted).
      pose proof (sortAscending_perm (z :: zs')) as Hperm. rewrite Hsorted in Hperm.
      assert (n = m) as ->.
      { assert (m ∈ z :: zs') as Hmin.
        { rewrite <- Hperm. apply elem_of_cons. by left. }
        apply Hle in Hmin. rewrite <- Hperm in Hin.
        rewrite !elem_of_cons, elem_of_nil in Hin. lia. }
      split; [done|]. split; [done|]. split; [done|].
      intros k. by rewrite Hperm.
  - rewrite validateCornerNumbers_out_of_range by done.
    split; [|discriminate]. unfold Validator.cornerGeometry.
    destruct (map asNumber nums); [discriminate|].
    intros Hgeo. apply bool_decide_eq_true in Hgeo as [Hnum _].
    apply isNumber1To36_all in Hnum. congruence.
Qed.

Lemma amountInRange_validate (amount : value) :
  match BetManager.validateBetAmount amount with
  | BetManager.Valid => Validator.amountInRange amount = true
  | BetManager.Invalid e =>
      Validator.amountInRange amount = false /\
      Validator.reasonOf e = Some Validator.AmountOutOfRange
  end.
Proof.
  destruct amount as [a| | | | |]; cbn; try done.
  destruct (a <? RouletteConfig.minBet) eqn:Hmin;
    [|destruct (RouletteConfig.maxBet <? a) eqn:Hmax].
  - split; [|done]. apply bool_decide_eq_false_2. lia.
  - split; [|done]. apply bool_decide_eq_false_2. lia.
  - apply bool_decide_eq_true_2. lia.
Qed.

Lemma balanceSuffices_validate (amount : value) (st : State) :
  match BetManager.validateBalance (asNumber amount) st with
  | BetManager.Valid =>
      Validator.balanceSuffices amount (getTotalBetAmount st) (balance st) = true
  | BetManager.Invalid e =>
      Validator.balanceSuffices amount (getTotalBetAmount st) (balance st) = false /\
      Validator.reasonOf e = Some Validator.InsufficientBalance
  end.
Proof.
  unfold BetManager.validateBalance, Validator.balanceSuffices, getBalance.
  cbv zeta. destruct (_ <? _) eqn:Hlt.
  - split; [|done]. apply bool_decide_eq_false_2. lia.
  - apply bool_decide_eq_true_2. lia.
Qed.

Lemma withinTableMax_validate (amount : value) (st : State) :
  match BetManager.validateTableMax (asNumber amount) st with
  | BetManager.Valid =>
      Validator.withinTableMax amount (getTotalBetAmount st) = true
  | BetManager.Invalid e =>
      Validator.withinTableMax amount (getTotalBetAmount st) = false /\
      Validator.reasonOf e = Some Validator.TableMaxExceeded
  end.
Proof.
  unfold BetManager.validateTableMax, Validator.withinTableMax.
  cbv zeta. destruct (_ <? _) eqn:Hlt.
  - split; [|done]. apply bool_decide_eq_false_2. lia.
  - apply bool_decide_eq_true_2. lia.
Qed.

Lemma firstFailing_app (cs ds : list (bool * Validator.reason)) :
  Validator.firstFailing (cs ++ ds) =
    match Validator.firstFailing cs with
    | Some r => Some r
    | None => Validator.firstFailing ds
    end.
Proof.
  induction cs as [|[passed r] cs IH]; cbn; [done|]. by destruct passed.
Qed.

Lemma firstFailing_None (cs : list (bool * Validator.reason)) :
  Validator.firstFailing cs = None <-> Forall (fun c => c.1 = true) cs.
Proof.
  induction cs as [|[passed r] cs IH]; cbn.
  - split; [constructor | done].
  - rewrite Forall_cons. cbn. destruct passed.
    + rewrite IH. tauto.
    + split; [discriminate | intros [? _]; discriminate].
Qed.

(** The five checks made by [validateBet], in the validator's words. *)
Lemma validateBet_checks (type : string) (nums : list value) :
  let shape :=
    [ (Validator.knownBetType type, Validator.UnknownBetType);
      (Validator.validSlots nums, Validator.InvalidSlots);
      (Validator.countMatches type nums, Validator.SlotCountMismatch);
      (Validator.distinctSlots nums, Validator.DuplicateSlots);
      (Validator.geometryOk type nums, Validator.InvalidGeometry) ] in
  match BetManager.validateBet type nums with
  | BetManager.Valid => Validator.firstFailing shape = None
  | BetManager.Invalid e =>
      is_Some (Validator.reasonOf e) /\
      Validator.firstFailing shape = Validator.reasonOf e
  end.
Proof.
  cbv zeta. unfold BetManager.validateBet, Validator.knownBetType, Validator.countMatches.
  destruct (RouletteConfig.betTypes !! type) as [betType|] eqn:Hlookup.
  2:{ cbn. eauto. }
  rewrite bool_decide_eq_true_2 by eauto. cbn [Validator.firstFailing].
  rewrite validSlots_spec.
  destruct (length nums =? 0)%nat eqn:Hempty; [cbn; eauto|].
  destruct (0 <? length (List.filter _ nums))%nat eqn:Hbad; [cbn; eauto|].
  cbn [negb andb].
  destruct (Z.eqb_spec (Z.of_nat (length nums)) (RouletteConfig.numberCount betType))
    as [Hcount | Hcount]; cbn [negb].
  2:{ rewrite bool_decide_eq_false_2 by done. cbn. eauto. }
  rewrite bool_decide_eq_true_2 by done.
  rewrite spreadSet_length.
  destruct (Validator.distinctSlots nums); cbn [negb]; [|cbn; eauto].
  unfold Validator.geometryOk.
  destruct (String.eqb_spec type "split") as [-> | Hsplit].
  { rewrite decide_True by done.
    vm_compute in Hlookup. injection Hlookup as <-. cbn in Hcount.
    destruct nums as [|v1 [|v2 [|]]]; try (cbn in Hcount; lia).
    pose proof (splitGeometry_validate v1 v2) as Hgeo.
    destruct (BetManager.validateSplitNumbers [v1; v2]) as [|e] eqn:Hs.
    - rewrite (proj2 Hgeo) by done. reflexivity.
    - destruct (Validator.splitGeometry [v1; v2]);
        [by specialize (proj1 Hgeo eq_refl)|].
      rewrite (validateSplitNumbers_reason _ _ Hs). eauto. }
  rewrite decide_False by done.
  destruct (String.eqb_spec type "corner") as [-> | Hcorner].
  { rewrite decide_True by done.
    vm_compute in Hlookup. injection Hlookup as <-. cbn in Hcount.
    pose proof (cornerGeometry_validate nums) as Hgeo.
    destruct (BetManager.validateCornerNumbers nums) as [|e] eqn:Hc.
    - rewrite (proj2 (Hgeo ltac:(lia))) by done. reflexivity.
    - destruct (Validator.cornerGeometry nums);
        [by specialize (proj1 (Hgeo ltac:(lia)) eq_refl)|].
      rewrite (validateCornerNumbers_reason _ _ Hc). eauto. }
  rewrite decide_False by done. reflexivity.
Qed.


(** ** The placement loop *)

Lemma reduceSum_from {A} (f : A -> Z) (l : list A) (acc : Z) :
  fold_left (fun sum x => sum + f x) l acc = acc + reduceSum f l.
Proof.
  unfold reduceSum. revert acc. induction l as [|x l IH]; intros acc; cbn.
  - lia.
  - rewrite (IH (acc + f x)), (IH (0 + f x)). lia.
Qed.

Lemma reduceSum_nil {A} (f : A -> Z) : reduceSum f [] = 0.
Proof. reflexivity. Qed.

Lemma reduceSum_cons {A} (f : A -> Z) (x : A) (l : list A) :
  reduceSum f (x :: l) = f x + reduceSum f l.
Proof. unfold reduceSum at 1. cbn. rewrite reduceSum_from. lia. Qed.

Lemma reduceSum_app {A} (f : A -> Z) (l k : list A) :
  reduceSum f (l ++ k) = reduceSum f l + reduceSum f k.
Proof.
  induction l as [|x l IH]; cbn [app].
  - reflexivity.
  - rewrite !reduceSum_cons, IH. lia.
Qed.

Lemma sameWager_sum (l k : list Bet) :
  Forall2 sameWager l k -> reduceSum amount l = reduceSum amount k.
Proof.
  induction 1 as [|b c l k (_ & _ & Ha) _ IH]; [done|].
  rewrite !reduceSum_cons. lia.
Qed.

Lemma placeable_amount (b : Bet) :
  placeable b -> RouletteConfig.minBet <= amount b <= RouletteConfig.maxBet.
Proof.
  intros [_ Hamount]. cbn in Hamount.
  destruct (amount b <? RouletteConfig.minBet) eqn:Hmin; [discriminate|].
  destruct (RouletteConfig.maxBet <? amount b) eqn:Hmax; [discriminate|]. lia.
Qed.

(** What one placement does to the state. *)
Lemma placeBet_effect (ty : string) (nums : list value) (amt : value)
    (pos : option (Z * Z)) (st : State) :
  match BetManager.placeBet ty nums amt pos st with
  | (BetManager.Failure _, st') => st' = st
  | (BetManager.Success bet, st') =>
      type bet = ty /\ numbers bet = nums /\ amount bet = asNumber amt /\
      currentBets st' = currentBets st ++ [bet] /\
      balance st' = balance st /\ history st' = history st
  end.
Proof.
  unfold BetManager.placeBet.
  destruct (BetManager.validateBet ty nums); [|done].
  destruct (BetManager.validateBetAmount amt); [|done].
  destruct (BetManager.validateBalance (asNumber amt) st); [|done].
  destruct (BetManager.validateTableMax (asNumber amt) st); [|done].
  cbn. done.
Qed.

(** A placeable wager that fits the balance and the table is accepted. *)
Lemma placeBet_accepts (b : Bet) (st : State) :
  placeable b ->
  getTotalBetAmount st + amount b <= balance st ->
  getTotalBetAmount st + amount b <= RouletteConfig.tableMax ->
  exists bet st',
    BetManager.placeBet (type b) (numbers b) (VNum (amount b)) (position b) st =
      (BetManager.Success bet, st').
Proof.
  intros [Hshape Hamount] Hbal Hmax. unfold BetManager.placeBet.
  rewrite Hshape, Hamount. cbn [asNumber].
  unfold BetManager.validateBalance, BetManager.validateTableMax, getBalance.
  cbv zeta.
  replace (balance st - getTotalBetAmount st <? amount b) with false by lia.
  replace (RouletteConfig.tableMax <? getTotalBetAmount st + amount b)
    with false by lia.
  cbn. eauto.
Qed.

(** The loop appends the bets it places and touches nothing else; the
    placed bets copy, in order, some of the bets it was given. *)
Lemma placeEach_effect (bs : list Bet) (st : State) :
  currentBets (BetManager.placeEach bs st).2 =
    currentBets st ++ (BetManager.placeEach bs st).1 /\
  balance (BetManager.placeEach bs st).2 = balance st /\
  history (BetManager.placeEach bs st).2 = history st /\
  exists kept, sublist kept bs /\
               Forall2 sameWager kept (BetManager.placeEach bs st).1.
Proof.
  revert st. induction bs as [|b bs IH]; intros st; cbn [BetManager.placeEach].
  - cbn. rewrite app_nil_r. repeat split. exists []. split; constructor.
  - pose proof (placeBet_effect (type b) (numbers b) (VNum (amount b))
                                (position b) st) as Hone.
    destruct (BetManager.placeBet _ _ _ _ st) as [[bet | e] st1].
    + destruct Hone as (Hty & Hnums & Ham & Hledger & Hbal & Hhist).
      destruct (IH st1) as (IHledger & IHbal & IHhist & kept & Hsub & Hkept).
      destruct (BetManager.placeEach bs st1) as [placed st2]. cbn in *.
      rewrite IHledger, Hledger, <- app_assoc. cbn.
      repeat split; [congruence..|].
      exists (b :: kept). split; [by constructor|].
      constructor; [|done]. unfold sameWager. by rewrite Hty, Hnums, Ham.
    + subst st1.
      destruct (IH st) as (IHledger & IHbal & IHhist & kept & Hsub & Hkept).
      destruct (BetManager.placeEach bs st) as [placed st2]. cbn in *.
      repeat split; [done..|].
      exists kept. split; [by constructor|done].
Qed.

(** When every wager is placeable and their sum fits both the balance
    and the table, the loop places every one of them. *)
Lemma placeEach_all (bs : list Bet) (st : State) :
  Forall placeable bs ->
  getTotalBetAmount st + reduceSum amount bs <= balance st ->
  getTotalBetAmount st + reduceSum amount bs <= RouletteConfig.tableMax ->
  Forall2 sameWager bs (BetManager.placeEach bs st).1.
Proof.
  revert st. induction bs as [|b bs IH]; intros st Hall Hbal Hmax;
    cbn [BetManager.placeEach].
  - constructor.
  - apply Forall_cons in Hall as [Hb Hall].
    rewrite reduceSum_cons in Hbal, Hmax.
    assert (0 <= reduceSum amount bs) as Hrest.
    { clear -Hall. induction Hall as [|c bs Hc _ IHs]; [done|].
      rewrite reduceSum_cons. apply placeable_amount in Hc.
      unfold RouletteConfig.minBet in Hc. lia. }
    destruct (placeBet_accepts b st Hb) as (bet & st1 & Hplace); [lia..|].
    pose proof (placeBet_effect (type b) (numbers b) (VNum (amount b))
                                (position b) st) as Hone.
    rewrite Hplace in Hone. rewrite Hplace.
    destruct Hone as (Hty & Hnums & Ham & Hledger & Hbal1 & _).
    assert (getTotalBetAmount st1 = getTotalBetAmount st + amount b) as Htotal.
    { unfold getTotalBetAmount.
      rewrite Hledger, reduceSum_app, reduceSum_cons, reduceSum_nil.
      cbn [asNumber] in Ham. lia. }
    specialize (IH st1 Hall). rewrite Htotal, Hbal1 in IH.
    specialize (IH ltac:(lia) ltac:(lia)).
    destruct (BetManager.placeEach bs st1) as [placed st2]. cbn in *.
    constructor; [|done]. unfold sameWager. by rewrite Hty, Hnums, Ham.
Qed.

(** ** Doubling *)

Lemma canAffordBet_spec (a : Z) (st : State) :
  BetManager.canAffordBet a st = true <-> a <= balance st - getTotalBetAmount st.
Proof. unfold BetManager.canAffordBet, getBalance. cbv zeta. lia. Qed.




(** ** Repeating *)




(** ** Worked cases *)

(** The table-maximum scenario of the design document: with 9990
    staked, 20 more is refused for the table maximum, 10 more is
    accepted. *)
Example placeBet_table_maximum :
  getTotalBetAmount nearlyFullTable = 9990 /\
  (BetManager.placeBet "straight" [VNum 5] (VNum 20) None nearlyFullTable).1 =
    BetManager.Failure (BetManager.TableMaximum 10000) /\
  getTotalBetAmount
    (BetManager.placeBet "straight" [VNum 5] (VNum 10) None nearlyFullTable).2 =
    10000.
Proof. by vm_compute. Qed.

(** Several checks failing at once: the earliest one is reported. *)
Example placeBet_reports_earliest :
  (BetManager.placeBet "basket" [] VNaN None openingTable).1 =
    BetManager.Failure BetManager.InvalidBetType /\
  (BetManager.placeBet "split" [VNum 0; VNum 0; VNum 99] VNaN None openingTable).1 =
    BetManager.Failure (BetManager.InvalidNumbersList [VNum 99]) /\
  (BetManager.placeBet "split" [VNum 0; VNum 0; VNum 0] VNaN None openingTable).1 =
    BetManager.Failure (BetManager.RequiresNumbers "Split" 2) /\
  (BetManager.placeBet "split" [VNum 0; VNum 0] VNaN None openingTable).1 =
    BetManager.Failure BetManager.DuplicateNumbers /\
  (BetManager.placeBet "split" [VNum 0; VStr "00"] VNaN None openingTable).1 =
    BetManager.Failure BetManager.SplitOnly1To36 /\
  (BetManager.placeBet "split" [VNum 18; VNum 19] VNaN None openingTable).1 =
    BetManager.Failure BetManager.SplitNotAdjacent /\
  (BetManager.placeBet "split" [VNum 17; VNum 18] VNaN None openingTable).1 =
    BetManager.Failure BetManager.InvalidBetAmount /\
  (BetManager.placeBet "split" [VNum 17; VNum 18] (VNum 1000) None openingTable).1 =
    BetManager.Failure (BetManager.InsufficientBalance 940).
Proof. by vm_compute. Qed.

(** Repeating on an idle table places the bet of the last round. *)
Example repeatLastBets_idle :
  BetManager.repeatLastBets idleTable =
    (BetManager.Success [onRed 300 1],
     {| balance := 700; currentBets := [onRed 300 1];
        history := history idleTable; lastResult := Some (VNum 2);
        isSpinning := false; clock := 2 |}).
Proof. by vm_compute. Qed.

(** Doubling the opening table copies both bets. *)
Example doubleAllBets_opening :
  currentBets (BetManager.doubleAllBets openingTable).2 =
    [straightOn17 10 0; onRed 50 1; straightOn17 10 2; onRed 50 3].
Proof. by vm_compute. Qed.

(** The house edge of a straight bet and of an even-money bet, as the
    doubles the source produces. *)
Example calculateHouseEdge_doubles :
  PayoutCalculator.calculateHouseEdge "straight" = 0x1.50d79435e50d7p+2%float /\
  PayoutCalculator.calculateHouseEdge "red" = 0x1.50d79435e50dap+2%float.
Proof. by vm_compute. Qed.

(** The sample tables arise in play from a fresh session. *)
Example openingTable_reached :
  App.place "red" redNumbers 50
    (App.place "straight" [VNum 17] 10 freshSession) = openingTable.
Proof. by vm_compute. Qed.

Example crowdedTable_reached :
  foldr (fun _ st => App.place "straight" [VNum 17] 1000 st)
        (App.spin (VNum 17) (App.place "straight" [VNum 17] 1000 freshSession))
        (seq 0 6) = crowdedTable.
Proof. by vm_compute. Qed.

Example idleTable_reached :
  App.spin (VNum 2) (App.place "red" redNumbers 300 freshSession) = idleTable.
Proof. by vm_compute. Qed.

Example pendingTable_reached :
  App.place "black" blackNumbers 500 idleTable = pendingTable.
Proof. by vm_compute. Qed.

(** The winning-straight scenario of the design document: 10 on 17,
    the wheel stops on 17, the balance goes from 1000 to 1350. *)
Example spin_straight_win :
  balance (App.spin (VNum 17) (App.place "straight" [VNum 17] 10 freshSession)) = 1350 /\
  PayoutCalculator.roundNetProfit
    (PayoutCalculator.calculateAllPayouts [straightOn17 10 0] (VNum 17)) = 350.
Proof. by vm_compute. Qed.

(** * Further properties of the code *)

(** ** Round payouts *)

Lemma returnOf_loser (spinNumber : value) (b : Bet) :
  wins spinNumber b = false -> returnOf spinNumber b = 0.
Proof.
  unfold wins, returnOf, PayoutCalculator.calculateBetPayout.
  by destruct (includes (numbers b) spinNumber).
Qed.

Lemma allPayouts_fold (spinNumber : value) (bets : list Bet) (win : Z)
    (winners losers : list (Bet * PayoutCalculator.BetPayout)) :
  fold_left
    (fun (acc : Z * list (Bet * PayoutCalculator.BetPayout) *
                list (Bet * PayoutCalculator.BetPayout)) bet =>
       let '(win, winners, losers) := acc in
       let betResult := PayoutCalculator.calculateBetPayout bet spinNumber in
       if PayoutCalculator.isWinner betResult
       then (win + PayoutCalculator.totalReturn betResult,
             winners ++ [(bet, betResult)], losers)
       else (win, winners, losers ++ [(bet, betResult)]))
    bets (win, winners, losers) =
  (win + reduceSum (returnOf spinNumber) bets,
   winners ++ map (fun b => (b, PayoutCalculator.calculateBetPayout b spinNumber))
                  (List.filter (wins spinNumber) bets),
   losers ++ map (fun b => (b, PayoutCalculator.calculateBetPayout b spinNumber))
                 (List.filter (fun b => negb (wins spinNumber b)) bets)).
Proof.
  revert win winners losers.
  induction bets as [|b bets IH]; intros win winners losers; cbn [fold_left].
  - rewrite reduceSum_nil, Z.add_0_r. cbn. by rewrite !app_nil_r.
  - rewrite reduceSum_cons. cbn [List.filter].
    change (PayoutCalculator.isWinner
              (PayoutCalculator.calculateBetPayout b spinNumber))
      with (wins spinNumber b).
    change (PayoutCalculator.totalReturn
              (PayoutCalculator.calculateBetPayout b spinNumber))
      with (returnOf spinNumber b).
    pose proof (returnOf_loser spinNumber b) as Hloses.
    destruct (wins spinNumber b); cbn [negb map];
      rewrite IH, <- ?app_assoc; cbn [app].
    + by rewrite Z.add_assoc.
    + by rewrite Hloses, Z.add_0_l.
Qed.

(** X1.  [calculateAllPayouts] splits the bets, in order, into those the
    outcome wins and those it loses, each paired with its own resolution;
    the total bet is the sum of the stakes, the total win the sum of what
    the bets return, and the net profit their difference. *)
Theorem calculateAllPayouts_totals (bets : list Bet) (spinNumber : value) :
  let r := PayoutCalculator.calculateAllPayouts bets spinNumber in
  let resolved b := (b, PayoutCalculator.calculateBetPayout b spinNumber) in
  PayoutCalculator.roundTotalBet r = reduceSum amount bets /\
  PayoutCalculator.roundTotalWin r = reduceSum (returnOf spinNumber) bets /\
  PayoutCalculator.roundTotalReturn r = PayoutCalculator.roundTotalWin r /\
  PayoutCalculator.roundNetProfit r =
    PayoutCalculator.roundTotalWin r - PayoutCalculator.roundTotalBet r /\
  PayoutCalculator.winningBets r =
    map resolved (List.filter (wins spinNumber) bets) /\
  PayoutCalculator.losingBets r =
    map resolved (List.filter (fun b => negb (wins spinNumber b)) bets) /\
  (length (PayoutCalculator.winningBets r) +
   length (PayoutCalculator.losingBets r))%nat = length bets /\
  PayoutCalculator.betCount r = length bets.
Proof.
  cbv zeta. unfold PayoutCalculator.calculateAllPayouts.
  rewrite allPayouts_fold. cbn.
  repeat split.
  rewrite !length_map. clear.
  induction bets as [|b bets IH]; cbn; [done|].
  destruct (wins spinNumber b); cbn; lia.
Qed.

(** ** What the wheel returns *)

Lemma calculateAllPayouts_win (bets : list Bet) (spinNumber : value) :
  PayoutCalculator.roundTotalWin
    (PayoutCalculator.calculateAllPayouts bets spinNumber) =
  reduceSum (returnOf spinNumber) bets.
Proof.
  unfold PayoutCalculator.calculateAllPayouts. by rewrite allPayouts_fold.
Qed.

Lemma calculateAllPayouts_net (bets : list Bet) (spinNumber : value) :
  PayoutCalculator.roundNetProfit
    (PayoutCalculator.calculateAllPayouts bets spinNumber) =
  reduceSum (returnOf spinNumber) bets - reduceSum amount bets.
Proof.
  unfold PayoutCalculator.calculateAllPayouts. by rewrite allPayouts_fold.
Qed.

Lemma reduceSum_ext {A} (f g : A -> Z) (l : list A) :
  (forall x, x ∈ l -> f x = g x) -> reduceSum f l = reduceSum g l.
Proof.
  induction l as [|x l IH]; intros Hfg; [done|].
  rewrite !reduceSum_cons, IH, (Hfg x); [done|apply elem_of_cons; by left|].
  intros y Hy. apply Hfg, elem_of_cons. by right.
Qed.

Lemma reduceSum_plus {A} (f g : A -> Z) (l : list A) :
  reduceSum (fun x => f x + g x) l = reduceSum f l + reduceSum g l.
Proof.
  induction l as [|x l IH]; [done|]. rewrite !reduceSum_cons, IH. lia.
Qed.

Lemma reduceSum_const {A} (c : Z) (l : list A) :
  reduceSum (fun _ => c) l = c * Z.of_nat (length l).
Proof.
  induction l as [|x l IH]; [rewrite reduceSum_nil; cbn; lia|].
  rewrite reduceSum_cons, IH. cbn [length]. lia.
Qed.

Lemma reduceSum_swap {A B} (f : A -> B -> Z) (xs : list A) (ys : list B) :
  reduceSum (fun x => reduceSum (f x) ys) xs =
  reduceSum (fun y => reduceSum (fun x => f x y) xs) ys.
Proof.
  induction ys as [|y ys IH].
  - rewrite reduceSum_nil.
    rewrite (reduceSum_ext _ (fun _ => 0)) by (intros; apply reduceSum_nil).
    rewrite reduceSum_const. lia.
  - rewrite reduceSum_cons, <- IH, <- reduceSum_plus.
    apply reduceSum_ext. intros x _. by rewrite reduceSum_cons.
Qed.

(** Summing a fixed amount over the members of [k] that lie in [l]. *)
Lemma reduceSum_members (c : Z) (l k : list value) :
  NoDup l -> NoDup k -> (forall x, x ∈ l -> x ∈ k) ->
  reduceSum (fun w => if includes l w then c else 0) k = c * Z.of_nat (length l).
Proof.
  intros Hl Hk Hsub.
  assert (reduceSum (fun w => if includes l w then c else 0) k =
          c * Z.of_nat (length (filter (fun w => w ∈ l) k))) as ->.
  { clear. induction k as [|w k IH]; [rewrite reduceSum_nil; cbn; lia|].
    rewrite reduceSum_cons, IH, filter_cons.
    destruct (includes l w) eqn:Hinc.
    - apply includes_elem_of in Hinc. rewrite decide_True by done.
      cbn [length]. lia.
    - rewrite decide_False; [lia|]. intros Hin.
      apply includes_elem_of in Hin. congruence. }
  f_equal. f_equal. apply Permutation_length, NoDup_Permutation.
  - by apply (NoDup_filter (fun w => w ∈ l)).
  - done.
  - intros x. rewrite list_elem_of_filter. split; [tauto|]. auto.
Qed.

Lemma wheelOrder_NoDup : NoDup RouletteConfig.wheelOrder.
Proof. apply (bool_decide_unpack (NoDup RouletteConfig.wheelOrder)). by vm_compute. Qed.

Lemma catalog_returns_36 (ty : string) (t : RouletteConfig.BetType) :
  RouletteConfig.betTypes !! ty = Some t ->
  (RouletteConfig.payout t + 1) * RouletteConfig.numberCount t = 36 /\
  1 <= RouletteConfig.payout t <= 35.
Proof.
  revert ty t. apply map_Forall_lookup.
  apply (bool_decide_unpack
           (map_Forall (fun _ t =>
              (RouletteConfig.payout t + 1) * RouletteConfig.numberCount t = 36 /\
              1 <= RouletteConfig.payout t <= 35) RouletteConfig.betTypes)).
  by vm_compute.
Qed.

(** What the state-independent checks of placement establish. *)
Lemma placeable_shape (b : Bet) :
  placeable b ->
  exists t, RouletteConfig.betTypes !! type b = Some t /\
            Z.of_nat (length (numbers b)) = RouletteConfig.numberCount t /\
            NoDup (numbers b) /\
            Forall (fun s => s ∈ RouletteConfig.wheelOrder) (numbers b).
Proof.
  intros [Hshape _]. pose proof (validateBet_checks (type b) (numbers b)) as Hchecks.
  cbv zeta in Hchecks. rewrite Hshape in Hchecks.
  apply firstFailing_None in Hchecks.
  apply Forall_cons in Hchecks as [Hknown Hchecks].
  apply Forall_cons in Hchecks as [Hslots Hchecks].
  apply Forall_cons in Hchecks as [Hcount Hchecks].
  apply Forall_cons in Hchecks as [Hdistinct _]. cbn in *.
  apply bool_decide_eq_true in Hknown as [t Ht]. exists t. split; [done|].
  unfold Validator.countMatches in Hcount. rewrite Ht in Hcount.
  apply bool_decide_eq_true in Hcount, Hslots, Hdistinct. tauto.
Qed.

Lemma returnOf_wheel (b : Bet) :
  placeable b ->
  reduceSum (fun w => returnOf w b) RouletteConfig.wheelOrder = 36 * amount b.
Proof.
  intros Hb. destruct (placeable_shape b Hb) as (t & Ht & Hcount & Hnd & Hwheel).
  destruct (catalog_returns_36 _ _ Ht) as [H36 _].
  rewrite (reduceSum_ext _
             (fun w => if includes (numbers b) w
                       then amount b + amount b * RouletteConfig.payout t else 0)).
  - rewrite reduceSum_members; [| done | apply wheelOrder_NoDup |].
    + rewrite Hcount.
      replace ((amount b + amount b * RouletteConfig.payout t) *
               RouletteConfig.numberCount t)
        with (amount b * ((RouletteConfig.payout t + 1) *
                          RouletteConfig.numberCount t)) by ring.
      rewrite H36. ring.
    + intros x Hx. by apply (proj1 (Forall_forall _ _) Hwheel).
  - intros w _. unfold returnOf, PayoutCalculator.calculateBetPayout.
    destruct (includes (numbers b) w);
      cbn [negb PayoutCalculator.totalReturn]; [by rewrite Ht | done].
Qed.



(** ** The ledger as play leaves it *)

Lemma getTotalBetAmount_app (st : State) (l k : list Bet) :
  currentBets st = l ++ k ->
  getTotalBetAmount st = reduceSum amount l + reduceSum amount k.
Proof. intros H. unfold getTotalBetAmount. by rewrite H, reduceSum_app. Qed.

Lemma placeable_total_nonneg (bs : list Bet) :
  Forall placeable bs -> 0 <= reduceSum amount bs.
Proof.
  induction 1 as [|b bs Hb _ IH]; [done|].
  rewrite reduceSum_cons. apply placeable_amount in Hb.
  unfold RouletteConfig.minBet in Hb. lia.
Qed.

(** An accepted placement: what was checked, and the state it leaves. *)
Lemma placeBet_success (ty : string) (nums : list value) (amt : value)
    (pos : option (Z * Z)) (st st' : State) (bet : Bet) :
  BetManager.placeBet ty nums amt pos st = (BetManager.Success bet, st') ->
  placeable bet /\
  bet = {| betId := clock st; type := ty; numbers := nums;
           amount := asNumber amt; position := pos; timestamp := clock st |} /\
  st' = GameState.placeBet bet (tick st) /\
  getTotalBetAmount st + amount bet <= balance st /\
  getTotalBetAmount st + amount bet <= RouletteConfig.tableMax.
Proof.
  unfold BetManager.placeBet.
  destruct (BetManager.validateBet ty nums) eqn:Hshape; [|discriminate].
  destruct (BetManager.validateBetAmount amt) eqn:Hamount; [|discriminate].
  unfold BetManager.validateBalance, BetManager.validateTableMax, getBalance.
  cbv zeta.
  destruct (balance st - getTotalBetAmount st <? asNumber amt) eqn:Hbal;
    [discriminate|].
  destruct (RouletteConfig.tableMax <? getTotalBetAmount st + asNumber amt) eqn:Hmax;
    [discriminate|].
  cbn. intros [= <- <-]. cbn.
  split; [|repeat split; lia].
  split; cbn; [done|].
  destruct amt; try discriminate. exact Hamount.
Qed.

Lemma soundLedger_placeBet (ty : string) (nums : list value) (amt : value)
    (pos : option (Z * Z)) (st : State) :
  soundLedger st -> soundLedger (BetManager.placeBet ty nums amt pos st).2.
Proof.
  intros (Hall & Hbal & Hmax).
  destruct (BetManager.placeBet ty nums amt pos st) as [[bet|e] st'] eqn:Hplace.
  - apply placeBet_success in Hplace as (Hbet & _ & -> & Hb & Hm).
    cbn [snd]. unfold soundLedger, getTotalBetAmount.
    cbn [currentBets GameState.placeBet withCurrentBets balance tick].
    rewrite reduceSum_app, reduceSum_cons, reduceSum_nil.
    unfold getTotalBetAmount in Hb, Hm.
    split; [|lia]. apply Forall_app. split; [done|]. by constructor.
  - pose proof (placeBet_effect ty nums amt pos st) as Heff.
    rewrite Hplace in Heff. by subst st'.
Qed.

Lemma soundLedger_placeEach (bs : list Bet) (st : State) :
  soundLedger st -> soundLedger (BetManager.placeEach bs st).2.
Proof.
  revert st. induction bs as [|b bs IH]; intros st Hst; cbn [BetManager.placeEach].
  - done.
  - pose proof (soundLedger_placeBet (type b) (numbers b) (VNum (amount b))
                                     (position b) st Hst) as Hone.
    destruct (BetManager.placeBet _ _ _ _ st) as [r st1]. cbn [snd] in Hone.
    specialize (IH st1 Hone).
    by destruct (BetManager.placeEach bs st1) as [placed st2].
Qed.

Lemma soundLedger_balance (st : State) : soundLedger st -> 0 <= balance st.
Proof.
  intros (Hall & Hbal & _). apply placeable_total_nonneg in Hall.
  unfold getTotalBetAmount in Hbal. lia.
Qed.

Lemma soundLedger_cleared (st : State) :
  0 <= balance st -> soundLedger (withCurrentBets st []).
Proof.
  intros Hbal. unfold soundLedger, getTotalBetAmount.
  cbn [currentBets withCurrentBets balance]. rewrite reduceSum_nil.
  split; [constructor|]. unfold RouletteConfig.tableMax. lia.
Qed.

(** Taking bets off a sound ledger leaves it sound. *)
Lemma soundLedger_sublist (st : State) (rest : list Bet) :
  soundLedger st -> sublist rest (currentBets st) ->
  soundLedger (withCurrentBets st rest).
Proof.
  intros (Hall & Hbal & Hmax) Hsub. unfold soundLedger, getTotalBetAmount in *.
  cbn [currentBets withCurrentBets balance].
  assert (Forall placeable rest /\
          reduceSum amount rest <= reduceSum amount (currentBets st)) as [Hrest Hle].
  { clear Hbal Hmax. induction Hsub as [|b l k Hsub IH|b l k Hsub IH].
    - done.
    - apply Forall_cons in Hall as [Hb Hall]. destruct (IH Hall) as [? ?].
      rewrite !reduceSum_cons. split; [by constructor | lia].
    - apply Forall_cons in Hall as [Hb Hall]. destruct (IH Hall) as [? ?].
      rewrite reduceSum_cons. apply placeable_amount in Hb.
      unfold RouletteConfig.minBet in Hb. split; [done | lia]. }
  split; [done|lia].
Qed.

Lemma spliceFirst_spec (target : nat) (bs : list Bet) :
  match spliceFirst target bs with
  | Some (removed, rest) =>
      exists before after,
        bs = before ++ removed :: after /\ rest = before ++ after /\
        betId removed = target /\
        Forall (fun b => betId b <> target) before
  | None => Forall (fun b => betId b <> target) bs
  end.
Proof.
  induction bs as [|b bs IH]; cbn [spliceFirst]; [constructor|].
  destruct (Nat.eqb_spec (betId b) target) as [Heq | Hne].
  - exists [], bs. repeat split; [done | constructor].
  - destruct (spliceFirst target bs) as [[removed rest]|].
    + destruct IH as (before & after & -> & -> & Hid & Hbefore).
      exists (b :: before), after. repeat split; [done | by constructor].
    + by constructor.
Qed.

Lemma sublist_without {A} (before after : list A) (x : A) :
  sublist (before ++ after) (before ++ x :: after).
Proof. apply sublist_app; [done|]. by apply sublist_cons. Qed.

Lemma removelast_sublist {A} (l : list A) : sublist (removelast l) l.
Proof.
  induction l as [|x [|y l] IH]; cbn [removelast]; [done| |].
  - apply sublist_nil_l.
  - by apply sublist_skip.
Qed.

Lemma spin_ledger (result : value) (st : State) :
  currentBets (App.spin result st) = [] \/ App.spin result st = st.
Proof.
  unfold App.spin, getCurrentBets.
  destruct (length (currentBets st) =? 0)%nat; [by right|].
  destruct (isSpinning st); [by right|]. left.
  cbv zeta. unfold endSpin, withSpin, clearBets. cbn [snd currentBets withCurrentBets].
  done.
Qed.

Lemma spin_balance_nonneg (result : value) (st : State) :
  App.spin result st = st \/ 0 <= balance (App.spin result st).
Proof.
  unfold App.spin, getCurrentBets.
  destruct (length (currentBets st) =? 0)%nat; [by left|].
  destruct (isSpinning st); [by left|]. right.
  cbv zeta. unfold endSpin, withSpin, clearBets.
  cbn [snd balance withCurrentBets].
  destruct (0 <? _); unfold addToHistory; case_decide;
    cbn [balance withHistory addToBalance subtractFromBalance updateBalance
         withBalance startSpin withSpin]; lia.
Qed.

Lemma soundLedger_run (c : App.Command) (st : State) :
  soundLedger st -> soundLedger (App.run c st).
Proof.
  intros Hst. pose proof (soundLedger_balance st Hst) as Hbal.
  destruct c as [ty nums amt pos | target | | | | | result |]; cbn [App.run].
  - by apply soundLedger_placeBet.
  - unfold BetLedger.removeBet, GameState.removeBet.
    pose proof (spliceFirst_spec target (currentBets st)) as Hsplice.
    destruct (spliceFirst target (currentBets st)) as [[removed rest]|]; [|done].
    destruct Hsplice as (before & after & Heq & -> & _). cbn [snd].
    apply soundLedger_sublist; [done|]. rewrite Heq. apply sublist_without.
  - unfold BetLedger.removeLastBet, GameState.removeLastBet.
    destruct (0 <? length (currentBets st))%nat; [|done].
    assert (soundLedger (withCurrentBets st (removelast (currentBets st)))) as Hs.
    { apply soundLedger_sublist; [done | apply removelast_sublist]. }
    by destruct (last (currentBets st)).
  - by apply soundLedger_cleared.
  - unfold BetManager.doubleAllBets, getCurrentBets.
    destruct (length (currentBets st) =? 0)%nat; [done|].
    destruct (negb _); [done|].
    pose proof (soundLedger_placeEach (currentBets st) st Hst) as Hs.
    by destruct (BetManager.placeEach (currentBets st) st).
  - unfold BetManager.repeatLastBets, getHistory.
    destruct (history st) as [|lastSpin older]; [done|].
    destruct (length (default [] (bets lastSpin)) =? 0)%nat; [done|].
    destruct (negb _); [done|].
    unfold BetManager.clearAllBets, clearBets.
    pose proof (soundLedger_placeEach (default [] (bets lastSpin))
                  (withCurrentBets st []) (soundLedger_cleared st Hbal)) as Hs.
    by destruct (BetManager.placeEach _ (withCurrentBets st [])).
  - destruct (spin_ledger result st) as [Hcleared | ->]; [|done].
    destruct (spin_balance_nonneg result st) as [-> | Hnonneg]; [done|].
    unfold soundLedger, getTotalBetAmount. rewrite Hcleared, reduceSum_nil.
    split; [constructor|]. unfold RouletteConfig.tableMax. lia.
  - done.
Qed.


Lemma freshSession_sound : soundLedger freshSession.
Proof. apply soundLedger_cleared. by vm_compute. Qed.


(** ** One round *)

Lemma returnOf_nonneg (spinNumber : value) (b : Bet) :
  placeable b -> 0 <= returnOf spinNumber b.
Proof.
  intros Hb. destruct (placeable_shape b Hb) as (t & Ht & _).
  destruct (catalog_returns_36 _ _ Ht) as [_ Hpay].
  apply placeable_amount in Hb. unfold RouletteConfig.minBet in Hb.
  unfold returnOf, PayoutCalculator.calculateBetPayout.
  destruct (includes (numbers b) spinNumber);
    cbn [negb PayoutCalculator.totalReturn]; [|done].
  rewrite Ht. nia.
Qed.

(** X4.  A spin with nothing on the table, or while one is in
    progress, changes nothing.  Otherwise the balance becomes the old
    balance less the stakes, floored at zero, plus the total win when
    positive; the ledger is emptied, the result recorded, and an entry
    with the bets and the totals of the round is put at the head of the
    history. *)
Theorem spin_settles (result : value) (st : State) :
  (currentBets st = [] \/ isSpinning st = true -> App.spin result st = st) /\
  (currentBets st <> [] -> isSpinning st = false ->
   let r := PayoutCalculator.calculateAllPayouts (currentBets st) result in
   let st' := App.spin result st in
   balance st' =
     Z.max 0 (balance st - getTotalBetAmount st) +
     Z.max 0 (PayoutCalculator.roundTotalWin r) /\
   currentBets st' = [] /\
   isSpinning st' = false /\
   lastResult st' = Some result /\
   history st' =
     take RouletteConfig.maxEntries
       ({| spinNumber := result; bets := Some (currentBets st);
           totalBet := reduceSum amount (currentBets st);
           totalWin := PayoutCalculator.roundTotalWin r;
           netProfit := PayoutCalculator.roundTotalWin r -
                        reduceSum amount (currentBets st) |} :: history st) /\
   clock st' = clock st).
Proof.
  split.
  - intros [Hempty | Hspin]; unfold App.spin, getCurrentBets.
    + by rewrite Hempty.
    + rewrite Hspin. by destruct (length (currentBets st) =? 0)%nat.
  - intros Hbets Hspin. cbv zeta. unfold App.spin, getCurrentBets.
    destruct (currentBets st) as [|b bs] eqn:Hledger; [done|].
    cbn [length Nat.eqb]. rewrite Hspin, <- Hledger.
    set (r := PayoutCalculator.calculateAllPayouts (currentBets st) result).
    assert (PayoutCalculator.roundTotalBet r = reduceSum amount (currentBets st)
            /\ PayoutCalculator.roundNetProfit r =
               PayoutCalculator.roundTotalWin r - reduceSum amount (currentBets st))
      as [-> ->].
    { unfold r, PayoutCalculator.calculateAllPayouts.
      by rewrite allPayouts_fold. }
    change (getTotalBetAmount (startSpin st)) with (getTotalBetAmount st).
    unfold endSpin, withSpin, clearBets.
    cbn [snd balance currentBets isSpinning lastResult history clock withCurrentBets].
    rewrite addToHistory_take.
    destruct (Z.ltb_spec 0 (PayoutCalculator.roundTotalWin r)) as [Hwin | Hwin];
      unfold addToHistory; case_decide;
      cbn [balance history clock withHistory addToBalance subtractFromBalance
           updateBalance withBalance startSpin withSpin getTotalBetAmount
           currentBets];
      (split; [lia | done]).
Qed.



(** ** Taking bets back *)

Lemma removeLastBet_snoc (st : State) (l : list Bet) (b : Bet) :
  currentBets st = l ++ [b] ->
  BetLedger.removeLastBet st = (BetLedger.Removed b, withCurrentBets st l).
Proof.
  intros Hledger. unfold BetLedger.removeLastBet, GameState.removeLastBet.
  rewrite Hledger, length_app, last_snoc, removelast_last. cbn [length].
  by replace (0 <? length l + 1)%nat with true by (symmetry; apply Nat.ltb_lt; lia).
Qed.

(** X6.  Undo is last-in first-out and takes back a placement: on an
    empty ledger it fails with 'No bets to remove' and changes nothing;
    otherwise it returns the bet placed last and leaves the others; and
    right after an accepted placement it returns the new bet and
    restores the state the placement found, the clock apart. *)
Theorem removeLastBet_undoes_placeBet (ty : string) (nums : list value)
    (amt : value) (pos : option (Z * Z)) (st : State) :
  (currentBets st = [] ->
     BetLedger.removeLastBet st =
       (BetLedger.NotRemoved BetLedger.NoBetsToRemove, st)) /\
  (forall l b, currentBets st = l ++ [b] ->
     BetLedger.removeLastBet st = (BetLedger.Removed b, withCurrentBets st l)) /\
  match BetManager.placeBet ty nums amt pos st with
  | (BetManager.Success bet, st') =>
      BetLedger.removeLastBet st' = (BetLedger.Removed bet, tick st)
  | (BetManager.Failure _, st') => st' = st
  end.
Proof.
  split; [|split].
  - intros Hempty. unfold BetLedger.removeLastBet, GameState.removeLastBet.
    by rewrite Hempty.
  - intros l b. apply removeLastBet_snoc.
  - destruct (BetManager.placeBet ty nums amt pos st) as [[bet|e] st'] eqn:Hplace.
    + apply placeBet_success in Hplace as (_ & _ & -> & _).
      by rewrite (removeLastBet_snoc _ (currentBets st) bet).
    + pose proof (placeBet_effect ty nums amt pos st) as Heff.
      by rewrite Hplace in Heff.
Qed.


(** X8.  A bet placed and then removed by the identifier it was given
    leaves the ledger as the placement found it, provided no bet already
    on the ledger carries that identifier. *)
Theorem removeBet_undoes_placeBet (ty : string) (nums : list value)
    (amt : value) (pos : option (Z * Z)) (st st' : State) (bet : Bet) :
  Forall (fun b => betId b <> clock st) (currentBets st) ->
  BetManager.placeBet ty nums amt pos st = (BetManager.Success bet, st') ->
  BetLedger.removeBet (betId bet) st' = (BetLedger.Removed bet, tick st).
Proof.
  intros Hfresh Hplace. apply placeBet_success in Hplace as (_ & Hbet & -> & _).
  assert (betId bet = clock st) as Hid by (by rewrite Hbet).
  unfold BetLedger.removeBet, GameState.removeBet.
  cbn [currentBets GameState.placeBet withCurrentBets tick].
  assert (forall l b, Forall (fun x => betId x <> betId b) l ->
            spliceFirst (betId b) (l ++ [b]) = Some (b, l)) as Hsplice.
  { clear. intros l b. induction 1 as [|x l Hx _ IH]; cbn [spliceFirst app].
    - by rewrite Nat.eqb_refl.
    - rewrite (proj2 (Nat.eqb_neq _ _) Hx), IH. done. }
  rewrite Hsplice by (by rewrite Hid). done.
Qed.

Lemma removeBet_undoes_placeBet_witness :
  BetLedger.removeBet 2 (App.place "red" redNumbers 50 openingTable) =
    (BetLedger.Removed (onRed 50 2), tick openingTable).
Proof.
  apply (removeBet_undoes_placeBet "red" redNumbers (VNum 50) None openingTable
           (App.place "red" redNumbers 50 openingTable) (onRed 50 2)).
  - repeat constructor; discriminate.
  - reflexivity.
Defined.

(** ** What can be afforded *)


(** ** When doubling and repeating are complete *)



Lemma sameWager_placeable (l k : list Bet) :
  Forall2 sameWager l k -> Forall placeable k -> Forall placeable l.
Proof.
  induction 1 as [|b c l k (Hty & Hnums & Ham) _ IH]; [done|].
  intros Hk. apply Forall_cons in Hk as [Hc Hk]. constructor; [|by apply IH].
  unfold placeable in *. by rewrite Hty, Hnums, Ham.
Qed.


Lemma idleTable_sound : soundLedger idleTable.
Proof. apply soundLedger_cleared. by vm_compute. Qed.


(** ** The table layout *)

Lemma indexOfFrom_absent (i : Z) (arr : list value) (x : value) :
  x ∉ arr -> indexOfFrom i arr x = -1.
Proof.
  revert i. induction arr as [|y arr IH]; intros i Hx; cbn [indexOfFrom]; [done|].
  apply not_elem_of_cons in Hx as [Hne Hx].
  assert (strictEquals y x = false) as ->.
  { unfold strictEquals. destruct y; try done;
      apply bool_decide_eq_false_2; congruence. }
  by apply IH.
Qed.

Lemma grid_numbers :
  Forall (Forall Validator.isNumber1To36) RouletteConfig.grid.
Proof.
  apply (bool_decide_unpack
           (Forall (Forall Validator.isNumber1To36) RouletteConfig.grid)).
  by vm_compute.
Qed.

Lemma getNumberPosition_absent (v : value) :
  ~ Validator.isNumber1To36 v -> v ∉ RouletteConfig.zeros ->
  RouletteConfig.getNumberPosition v = None.
Proof.
  intros Hnum Hzero. unfold RouletteConfig.getNumberPosition.
  assert (forall rows row,
            Forall (Forall Validator.isNumber1To36) rows ->
            RouletteConfig.findInRows rows row v = None) as Hrows.
  { induction rows as [|r rows IH]; intros row Hall;
      cbn [RouletteConfig.findInRows]; [done|].
    apply Forall_cons in Hall as [Hr Hall]. unfold indexOf.
    rewrite indexOfFrom_absent; [by apply IH|].
    intros Hin. apply Hnum. by apply (proj1 (Forall_forall _ _) Hr). }
  rewrite Hrows by apply grid_numbers.
  destruct (includes RouletteConfig.zeros v) eqn:Hinc; [|done].
  by apply includes_elem_of in Hinc.
Qed.

Lemma getNumberPosition_number (n : Z) :
  1 <= n <= 36 ->
  RouletteConfig.getNumberPosition (VNum n) = Some (gridPosition n) /\
  (RouletteConfig.grid !! Z.to_nat (gridPosition n).1) ≫=
    (fun r => r !! Z.to_nat (gridPosition n).2) = Some (VNum n).
Proof.
  intros Hn. assert (n ∈ seqZ 1 36) as Hin by (apply elem_of_seqZ; lia).
  clear Hn. revert n Hin. apply Forall_forall.
  apply (bool_decide_unpack
           (Forall (fun n =>
              RouletteConfig.getNumberPosition (VNum n) = Some (gridPosition n) /\
              (RouletteConfig.grid !! Z.to_nat (gridPosition n).1) ≫=
                (fun r => r !! Z.to_nat (gridPosition n).2) = Some (VNum n))
              (seqZ 1 36))).
  by vm_compute.
Qed.

(** X12.  [getNumberPosition] in closed form: a number [n] of 1..36 is
    at row [2 - (n-1) mod 3], column [(n-1) div 3]; 0 and '00' are at
    row -1, columns 0 and 1; every other value has no position.  A
    position on the grid reads back the number it was found for. *)
Theorem getNumberPosition_layout (v : value) :
  RouletteConfig.getNumberPosition v =
    match v with
    | VNum n =>
        if decide (1 <= n <= 36) then Some (2 - (n - 1) mod 3, (n - 1) / 3)
        else if decide (n = 0) then Some (-1, 0)
        else None
    | VStr s => if decide (s = "00"%string) then Some (-1, 1) else None
    | _ => None
    end /\
  (forall row col,
     RouletteConfig.getNumberPosition v = Some (row, col) -> 0 <= row ->
     (RouletteConfig.grid !! Z.to_nat row) ≫= (fun r => r !! Z.to_nat col) = Some v).
Proof.
  assert (forall n, ~ 1 <= n <= 36 -> ~ Validator.isNumber1To36 (VNum n)) as Hout.
  { intros n Hn (k & [= <-] & Hk). lia. }
  assert (forall u, (forall k, u <> VNum k) -> ~ Validator.isNumber1To36 u) as Hother.
  { intros u Hu (k & -> & _). by apply (Hu k). }
  destruct v as [n| |s|b| |].
  - destruct (decide (1 <= n <= 36)) as [Hn | Hn].
    + destruct (getNumberPosition_number n Hn) as [Hpos Hback].
      split; [done|]. rewrite Hpos. by intros row col [= <- <-] _.
    + destruct (decide (n = 0)) as [-> | Hz].
      * split; [done|]. intros row col. vm_compute. intros [= <- <-] Hrow. by destruct Hrow.
      * rewrite getNumberPosition_absent; [done | by apply Hout |].
        unfold RouletteConfig.zeros. rewrite !elem_of_cons, elem_of_nil.
        intros [[= ->] | [? | ?]]; done.
  - done.
  - destruct (decide (s = "00"%string)) as [-> | Hs].
    + split; [done|]. intros row col. vm_compute. intros [= <- <-] Hrow. by destruct Hrow.
    + rewrite getNumberPosition_absent; [done | by apply Hother |].
      unfold RouletteConfig.zeros. rewrite !elem_of_cons, elem_of_nil.
      intros [? | [[= ->] | ?]]; done.
  - rewrite getNumberPosition_absent; [done | by apply Hother |].
    unfold RouletteConfig.zeros. rewrite !elem_of_cons, elem_of_nil.
    intros [? | [? | ?]]; done.
  - done.
  - done.
Qed.

Lemma getNumberPosition_on_grid (z : Z) (p : Z * Z) :
  RouletteConfig.getNumberPosition (VNum z) = Some p -> 0 <= p.1 ->
  1 <= z <= 36 /\ p = gridPosition z.
Proof.
  intros Hpos Hrow.
  destruct (decide (1 <= z <= 36)) as [Hz | Hz].
  - destruct (getNumberPosition_number z Hz) as [Hgrid _].
    rewrite Hgrid in Hpos. by injection Hpos as <-.
  - exfalso. destruct (decide (z = 0)) as [-> | Hzero].
    + vm_compute in Hpos. injection Hpos as <-. by destruct Hrow.
    + rewrite getNumberPosition_absent in Hpos; [done| |].
      * intros (k & [= <-] & Hk). lia.
      * unfold RouletteConfig.zeros. rewrite !elem_of_cons, elem_of_nil.
        intros [[= ->] | [? | ?]]; done.
Qed.

(** X13.  The split rule agrees with the layout: two numbers on the
    grid are accepted as a split exactly when their cells share a
    side. *)
Theorem split_iff_adjacent_cells (a b : Z) (p q : Z * Z) :
  RouletteConfig.getNumberPosition (VNum a) = Some p ->
  RouletteConfig.getNumberPosition (VNum b) = Some q ->
  0 <= p.1 -> 0 <= q.1 ->
  (BetManager.validateSplitNumbers [VNum a; VNum b] = BetManager.Valid <->
   adjacentCells p q).
Proof.
  intros Hp Hq Hprow Hqrow.
  destruct (getNumberPosition_on_grid a p Hp Hprow) as [Ha ->].
  destruct (getNumberPosition_on_grid b q Hq Hqrow) as [Hb ->].
  rewrite validateSplitNumbers_in_range by done.
  unfold adjacentCells, gridPosition. cbn [fst snd].
  case_decide as Hgeo; split; try done.
  - intros _. destruct Hgeo as [[Hnext Hmod] | Hbelow].
    + right. Z.to_euclidean_division_equations. lia.
    + left. Z.to_euclidean_division_equations. lia.
  - intros Hadj. exfalso. apply Hgeo.
    destruct Hadj as [[Hrow Hcol] | [Hcol Hrow]].
    + right. Z.to_euclidean_division_equations. lia.
    + left. Z.to_euclidean_division_equations. lia.
Qed.

Lemma split_iff_adjacent_cells_witness :
  BetManager.validateSplitNumbers [VNum 17; VNum 14] = BetManager.Valid <->
  adjacentCells (1, 5) (1, 4).
Proof.
  apply (split_iff_adjacent_cells 17 14 (1, 5) (1, 4)); vm_compute; done.
Defined.

(** X14.  The corner rule agrees with the layout: four numbers on the
    grid are accepted as a corner exactly when their cells are the four
    cells of a two-by-two block. *)
Theorem corner_iff_block_of_cells (zs : list Z) (ps : list (Z * Z)) :
  length zs = 4%nat ->
  Forall2 (fun z p => RouletteConfig.getNumberPosition (VNum z) = Some p /\ 0 <= p.1)
          zs ps ->
  (BetManager.validateCornerNumbers (map VNum zs) = BetManager.Valid <->
   exists row col, ps ≡ₚ blockCells row col).
Proof.
  intros Hlen Hpos.
  assert (Forall (fun k => 1 <= k <= 36) zs /\ ps = map gridPosition zs)
    as [Hrange ->].
  { clear Hlen. induction Hpos as [|z p zs ps [Hp Hrow] _ [IHr IHp]]; [done|].
    destruct (getNumberPosition_on_grid z p Hp Hrow) as [Hz ->].
    split; [by constructor | by rewrite IHp]. }
  rewrite validateCornerNumbers_in_range by done. split.
  - intros (n & Hmod & Hbottom & Hsorted).
    pose proof (sortAscending_perm zs) as Hperm. rewrite Hsorted in Hperm.
    assert (1 <= n /\ n + 4 <= 36) as [Hlow Hhigh].
    { assert (Forall (fun k => 1 <= k <= 36) [n; n + 1; n + 3; n + 4]) as Hsq
        by (by rewrite Hperm).
      apply Forall_cons in Hsq as [? Hsq].
      apply Forall_cons in Hsq as [_ Hsq].
      apply Forall_cons in Hsq as [_ Hsq].
      apply Forall_cons in Hsq as [? _]. lia. }
    exists (1 - (n - 1) mod 3), ((n - 1) / 3).
    rewrite <- Hperm. unfold blockCells, gridPosition. cbn [map].
    replace (2 - (n + 1 - 1) mod 3, (n + 1 - 1) / 3)
      with (1 - (n - 1) mod 3, (n - 1) / 3)
      by (f_equal; Z.to_euclidean_division_equations; lia).
    replace (2 - (n - 1) mod 3, (n - 1) / 3)
      with (1 - (n - 1) mod 3 + 1, (n - 1) / 3) by (f_equal; lia).
    replace (2 - (n + 3 - 1) mod 3, (n + 3 - 1) / 3)
      with (1 - (n - 1) mod 3 + 1, (n - 1) / 3 + 1)
      by (f_equal; Z.to_euclidean_division_equations; lia).
    replace (2 - (n + 4 - 1) mod 3, (n + 4 - 1) / 3)
      with (1 - (n - 1) mod 3, (n - 1) / 3 + 1)
      by (f_equal; Z.to_euclidean_division_equations; lia).
    etrans; [apply perm_swap|]. do 2 apply perm_skip. apply perm_swap.
  - intros (row & col & Hblock).
    symmetry in Hblock. apply Permutation_map_inv in Hblock as (ys & Hcells & Hperm).
    assert (Forall (fun k => 1 <= k <= 36) ys) as Hys by (by rewrite <- Hperm).
    destruct ys as [|y1 [|y2 [|y3 [|y4 [|]]]]]; try discriminate.
    unfold blockCells, gridPosition in Hcells.
    injection Hcells as Hr1 Hc1 Hr2 Hc2 Hr3 Hc3 Hr4 Hc4.
    apply Forall_cons in Hys as [? Hys]. apply Forall_cons in Hys as [? Hys].
    apply Forall_cons in Hys as [? Hys]. apply Forall_cons in Hys as [? _].
    assert (y1 = y2 + 1 /\ y3 = y2 + 4 /\ y4 = y2 + 3 /\ y2 mod 3 <> 0)
      as (-> & -> & -> & Hmod)
      by (Z.to_euclidean_division_equations; lia).
    exists y2. split; [done|]. split; [lia|].
    apply sortAscending_unique; [repeat constructor; lia|].
    rewrite Hperm.
    etrans; [apply perm_swap|]. do 2 apply perm_skip. apply perm_swap.
Qed.

Lemma corner_iff_block_of_cells_witness :
  BetManager.validateCornerNumbers (map VNum [5; 1; 4; 2]) = BetManager.Valid <->
  exists row col, [(1, 1); (2, 0); (2, 1); (1, 0)] ≡ₚ blockCells row col.
Proof.
  apply (corner_iff_block_of_cells [5; 1; 4; 2] [(1, 1); (2, 0); (2, 1); (1, 0)]).
  - reflexivity.
  - repeat constructor; vm_compute; done.
Defined.

(** ** The predefined sets *)

Lemma betSets_numbers :
  Forall (fun n =>
    (RouletteConfig.isRedNumber (VNum n) = true <->
     RouletteConfig.getNumberColor (VNum n) = Some "red"%string) /\
    (RouletteConfig.isBlackNumber (VNum n) = true <->
     RouletteConfig.getNumberColor (VNum n) = Some "black"%string) /\
    RouletteConfig.isRedNumber (VNum n) =
      negb (RouletteConfig.isBlackNumber (VNum n)) /\
    RouletteConfig.isEvenNumber (VNum n) = Z.even n /\
    RouletteConfig.isOddNumber (VNum n) = Z.odd n /\
    RouletteConfig.inBetSet "low" (VNum n) = bool_decide (n <= 18) /\
    RouletteConfig.inBetSet "high" (VNum n) = bool_decide (19 <= n) /\
    Forall (fun k =>
      RouletteConfig.inBetSet ("dozen" +:+ pretty k) (VNum n) =
        bool_decide ((n - 1) / 12 = k - 1) /\
      RouletteConfig.inBetSet ("column" +:+ pretty k) (VNum n) =
        bool_decide ((n - 1) mod 3 = k - 1)) (seqZ 1 3))
    (seqZ 1 36).
Proof.
  match goal with |- ?G => apply (bool_decide_unpack G) end. by vm_compute.
Qed.

Lemma betSets_without_zeros :
  map_Forall (fun _ set => Forall (fun zero => zero ∉ set) RouletteConfig.zeros)
             RouletteConfig.betSets.
Proof.
  match goal with |- ?G => apply (bool_decide_unpack G) end. by vm_compute.
Qed.

(** X15.  The predefined number sets hold what their names say.  For a
    number [n] of 1..36: it is in the red set exactly when the colour
    table calls it red, likewise black, and it is one or the other;
    the even and odd sets follow its parity, low and high split at 18,
    the dozens follow [(n-1) div 12] and the columns [(n-1) mod 3].  The
    two zeros are green and in none of the sets. *)
Theorem betSets_meaning (n : Z) :
  1 <= n <= 36 ->
  (RouletteConfig.isRedNumber (VNum n) = true <->
   RouletteConfig.getNumberColor (VNum n) = Some "red"%string) /\
  (RouletteConfig.isBlackNumber (VNum n) = true <->
   RouletteConfig.getNumberColor (VNum n) = Some "black"%string) /\
  RouletteConfig.isRedNumber (VNum n) = negb (RouletteConfig.isBlackNumber (VNum n)) /\
  RouletteConfig.isEvenNumber (VNum n) = Z.even n /\
  RouletteConfig.isOddNumber (VNum n) = Z.odd n /\
  RouletteConfig.inBetSet "low" (VNum n) = bool_decide (n <= 18) /\
  RouletteConfig.inBetSet "high" (VNum n) = bool_decide (19 <= n) /\
  (forall k, 1 <= k <= 3 ->
     RouletteConfig.inBetSet ("dozen" +:+ pretty k) (VNum n) =
       bool_decide ((n - 1) / 12 = k - 1) /\
     RouletteConfig.inBetSet ("column" +:+ pretty k) (VNum n) =
       bool_decide ((n - 1) mod 3 = k - 1)) /\
  (forall zero name, zero ∈ RouletteConfig.zeros ->
     RouletteConfig.getNumberColor zero = Some "green"%string /\
     RouletteConfig.inBetSet name zero = false).
Proof.
  intros Hn. assert (n ∈ seqZ 1 36) as Hin by (apply elem_of_seqZ; lia).
  pose proof (proj1 (Forall_forall _ _) betSets_numbers n Hin)
    as (Hred & Hblack & Hxor & Heven & Hodd & Hlow & Hhigh & Hk).
  repeat (split; [assumption|]). split.
  - intros k Hrange. apply (proj1 (Forall_forall _ _) Hk).
    apply elem_of_seqZ. lia.
  - intros zero name Hzero. split.
    + unfold RouletteConfig.zeros in Hzero.
      rewrite !elem_of_cons, elem_of_nil in Hzero.
      by destruct Hzero as [-> | [-> | []]].
    + unfold RouletteConfig.inBetSet.
      destruct (RouletteConfig.betSets !! name) as [set|] eqn:Hset; [|done].
      cbn [default]. destruct (includes set zero) eqn:Hinc; [|done].
      apply includes_elem_of in Hinc.
      pose proof (betSets_without_zeros name set Hset) as Hnone.
      by apply (proj1 (Forall_forall _ _) Hnone zero Hzero) in Hinc.
Qed.

Lemma betSets_meaning_witness :
  RouletteConfig.isRedNumber (VNum 17) = negb (RouletteConfig.isBlackNumber (VNum 17)).
Proof.
  assert (1 <= 17 <= 36) as Hn by lia.
  exact (proj1 (proj2 (proj2 (betSets_meaning 17 Hn)))).
Defined.

(** ** Statistics *)

Lemma foldr_max_init (b z : Z) (zs : list Z) :
  foldr Z.max (Z.max b z) zs = Z.max z (foldr Z.max b zs).
Proof. induction zs as [|y zs IH]; cbn [foldr]; [lia|]. rewrite IH. lia. Qed.

Lemma foldr_min_init (b z : Z) (zs : list Z) :
  foldr Z.min (Z.min b z) zs = Z.min z (foldr Z.min b zs).
Proof. induction zs as [|y zs IH]; cbn [foldr]; [lia|]. rewrite IH. lia. Qed.

Lemma tally_fold (hs : list HistoryEntry) (bw bl w l : Z) :
  fold_left GameStatistics.tally hs (bw, bl, w, l) =
    (foldr Z.max bw (map netProfit (List.filter (fun h => 0 <? netProfit h) hs)),
     foldr Z.min bl (map netProfit (List.filter (fun h => netProfit h <? 0) hs)),
     w + Z.of_nat (length (List.filter (fun h => 0 <? netProfit h) hs)),
     l + Z.of_nat (length (List.filter (fun h => netProfit h <? 0) hs))).
Proof.
  revert bw bl w l. induction hs as [|h hs IH]; intros bw bl w l.
  - cbn. by rewrite !Z.add_0_r.
  - cbn [fold_left GameStatistics.tally List.filter].
    destruct (Z.ltb_spec 0 (netProfit h)) as [Hpos | Hnonpos].
    + replace (netProfit h <? 0) with false by lia. rewrite IH.
      cbn [map foldr length]. rewrite foldr_max_init.
      repeat (apply pair_equal_spec; split); try done; lia.
    + destruct (Z.ltb_spec (netProfit h) 0) as [Hneg | Hzero].
      * rewrite IH. cbn [map foldr length]. rewrite foldr_min_init.
        repeat (apply pair_equal_spec; split); try done; lia.
      * by rewrite IH.
Qed.

Lemma foldr_max_bound (zs : list Z) :
  0 <= foldr Z.max 0 zs /\
  (forall z, z ∈ zs -> z <= foldr Z.max 0 zs) /\
  (foldr Z.max 0 zs = 0 \/ foldr Z.max 0 zs ∈ zs).
Proof.
  induction zs as [|z zs (Hpos & Hub & Hatt)]; cbn [foldr].
  - split; [done|]. split; [|by left]. intros z Hz. by apply elem_of_nil in Hz.
  - split; [lia|]. split.
    + intros y Hy. apply elem_of_cons in Hy as [-> | Hy]; [lia|].
      specialize (Hub y Hy). lia.
    + destruct (Z.max_spec z (foldr Z.max 0 zs)) as [[_ ->] | [_ ->]].
      * destruct Hatt as [? | Hin]; [by left|]. right. apply elem_of_cons. by right.
      * right. apply elem_of_cons. by left.
Qed.

Lemma foldr_min_bound (zs : list Z) :
  foldr Z.min 0 zs <= 0 /\
  (forall z, z ∈ zs -> foldr Z.min 0 zs <= z) /\
  (foldr Z.min 0 zs = 0 \/ foldr Z.min 0 zs ∈ zs).
Proof.
  induction zs as [|z zs (Hneg & Hlb & Hatt)]; cbn [foldr].
  - split; [done|]. split; [|by left]. intros z Hz. by apply elem_of_nil in Hz.
  - split; [lia|]. split.
    + intros y Hy. apply elem_of_cons in Hy as [-> | Hy]; [lia|].
      specialize (Hlb y Hy). lia.
    + destruct (Z.min_spec z (foldr Z.min 0 zs)) as [[_ ->] | [_ ->]].
      * right. apply elem_of_cons. by left.
      * destruct Hatt as [? | Hin]; [by left|]. right. apply elem_of_cons. by right.
Qed.

Lemma wins_losses_bound (l : list HistoryEntry) :
  (length (List.filter (fun h => (0 <? netProfit h)%Z) l) +
   length (List.filter (fun h => (netProfit h <? 0)%Z) l) <= length l)%nat.
Proof.
  induction l as [|e l IH]; cbn [List.filter length]; [lia|].
  destruct (Z.ltb_spec 0 (netProfit e)), (Z.ltb_spec (netProfit e) 0);
    cbn [length]; lia.
Qed.

(** X16.  The statistics of a history: the spins are counted, the
    totals are the sums over the entries and the net profit their
    difference; the biggest win is the largest positive net profit of an
    entry (0 when there is none) and the biggest loss the most negative
    one; wins and losses count the entries with positive and negative
    net profit, so together they never exceed the number of spins.  An
    empty history gives all zeros and no win or loss counts. *)
Theorem getStatistics_summary (st : State) :
  let stats := GameStatistics.getStatistics st in
  let nets := map netProfit (history st) in
  GameStatistics.totalSpins stats = length (history st) /\
  GameStatistics.totalBet stats = reduceSum totalBet (history st) /\
  GameStatistics.totalWon stats = reduceSum totalWin (history st) /\
  GameStatistics.netProfit stats =
    GameStatistics.totalWon stats - GameStatistics.totalBet stats /\
  (0 <= GameStatistics.biggestWin stats /\
   (forall z, z ∈ nets -> z <= GameStatistics.biggestWin stats) /\
   (GameStatistics.biggestWin stats = 0 \/ GameStatistics.biggestWin stats ∈ nets)) /\
  (GameStatistics.biggestLoss stats <= 0 /\
   (forall z, z ∈ nets -> GameStatistics.biggestLoss stats <= z) /\
   (GameStatistics.biggestLoss stats = 0 \/ GameStatistics.biggestLoss stats ∈ nets)) /\
  (history st = [] ->
     GameStatistics.wins stats = None /\ GameStatistics.losses stats = None) /\
  (history st <> [] ->
     GameStatistics.wins stats =
       Some (Z.of_nat (length (List.filter (fun h => 0 <? netProfit h) (history st)))) /\
     GameStatistics.losses stats =
       Some (Z.of_nat (length (List.filter (fun h => netProfit h <? 0) (history st)))) /\
     (length (List.filter (fun h => (0 <? netProfit h)%Z) (history st)) +
      length (List.filter (fun h => (netProfit h <? 0)%Z) (history st))
      <= length (history st))%nat).
Proof.
  cbv zeta. unfold GameStatistics.getStatistics.
  destruct (history st) as [|h hs] eqn:Hhist.
  { cbn. repeat split; try done; try (by left);
      intros z Hz; by apply elem_of_nil in Hz. }
  cbn [length Nat.eqb]. rewrite tally_fold. cbn [GameStatistics.totalSpins
    GameStatistics.totalBet GameStatistics.totalWon GameStatistics.netProfit
    GameStatistics.biggestWin GameStatistics.biggestLoss GameStatistics.wins
    GameStatistics.losses].
  set (l := h :: hs).
  assert (forall (P : HistoryEntry -> bool) z,
            z ∈ map netProfit (List.filter P l) -> z ∈ map netProfit l) as Hsub.
  { intros P z Hz. apply list_elem_of_fmap in Hz as (e & -> & He).
    apply list_elem_of_fmap. exists e. split; [done|].
    apply list_elem_of_In, filter_In in He as [He _]. by apply list_elem_of_In. }
  assert (forall z, z ∈ map netProfit l -> 0 < z ->
            z ∈ map netProfit (List.filter (fun h => 0 <? netProfit h) l)) as Hposin.
  { intros z Hz Hpos. apply list_elem_of_fmap in Hz as (e & -> & He).
    apply list_elem_of_fmap. exists e. split; [done|].
    apply list_elem_of_In, filter_In. split; [by apply list_elem_of_In | lia]. }
  assert (forall z, z ∈ map netProfit l -> z < 0 ->
            z ∈ map netProfit (List.filter (fun h => netProfit h <? 0) l)) as Hnegin.
  { intros z Hz Hneg. apply list_elem_of_fmap in Hz as (e & -> & He).
    apply list_elem_of_fmap. exists e. split; [done|].
    apply list_elem_of_In, filter_In. split; [by apply list_elem_of_In | lia]. }
  destruct (foldr_max_bound (map netProfit (List.filter (fun h => 0 <? netProfit h) l)))
    as (Hw0 & Hwub & Hwatt).
  destruct (foldr_min_bound (map netProfit (List.filter (fun h => netProfit h <? 0) l)))
    as (Hl0 & Hllb & Hlatt).
  split; [done|]. split; [done|]. split; [done|]. split; [done|].
  split; [|split; [|split; [intros Hl; subst l; discriminate|]]].
  - split; [done|]. split.
    + intros z Hz. destruct (Z.lt_ge_cases 0 z) as [Hpos | Hnonpos]; [|lia].
      by apply Hwub, Hposin.
    + destruct Hwatt as [? | Hin]; [by left|]. right. by eapply Hsub.
  - split; [done|]. split.
    + intros z Hz. destruct (Z.lt_ge_cases z 0) as [Hneg | Hnonneg]; [|lia].
      by apply Hllb, Hnegin.
    + destruct Hlatt as [? | Hin]; [by left|]. right. by eapply Hsub.
  - intros _. split; [f_equal; lia|]. split; [f_equal; lia|].
    apply (wins_losses_bound (h :: hs)).
Qed.

Lemma initialFrequencies_from (nums : list value) (m : gmap string Z) (k : string) :
  fold_left (fun frequencies num => <[toPropertyKey num := 0]> frequencies) nums m !! k =
    if decide (k ∈ map toPropertyKey nums) then Some 0 else m !! k.
Proof.
  revert m. induction nums as [|num nums IH]; intros m; cbn [fold_left map].
  - rewrite decide_False; [done|]. apply not_elem_of_nil.
  - rewrite IH. destruct (decide (k ∈ map toPropertyKey nums)) as [Hin | Hnotin].
    + rewrite decide_True; [done|]. apply elem_of_cons. by right.
    + destruct (decide (k = toPropertyKey num)) as [-> | Hne].
      * rewrite lookup_insert_eq, decide_True; [done|]. apply elem_of_cons. by left.
      * rewrite lookup_insert_ne by done. rewrite decide_False; [done|].
        intros Hin. apply elem_of_cons in Hin as [? | ?]; done.
Qed.

Lemma countSpin_fold (hs : list HistoryEntry) (f : gmap string Z) (k : string) :
  fold_left GameStatistics.countSpin hs f !! k =
    (fun c => c + Z.of_nat (length (filter (fun h => toPropertyKey (spinNumber h) = k) hs)))
      <$> f !! k.
Proof.
  revert f. induction hs as [|h hs IH]; intros f; cbn [fold_left].
  - cbn. destruct (f !! k); cbn; [f_equal; lia | done].
  - rewrite IH, filter_cons. unfold GameStatistics.countSpin.
    destruct (decide (toPropertyKey (spinNumber h) = k)) as [<- | Hne].
    + destruct (f !! toPropertyKey (spinNumber h)) as [c|] eqn:Hc.
      * rewrite lookup_insert_eq. cbn [fmap option_fmap option_map length].
        f_equal. lia.
      * by rewrite Hc.
    + destruct (f !! toPropertyKey (spinNumber h)) as [c|];
        [by rewrite lookup_insert_ne | done].
Qed.


(** ** What the table proposes *)

Lemma accepted_Valid (v : BetManager.validation) :
  accepted v = true <-> v = BetManager.Valid.
Proof. destruct v; cbn; split; done. Qed.

(** X18.  Only splits and corners are checked for geometry: under any
    other bet type of the catalog, [validateBet] accepts exactly the
    lists of distinct wheel labels that have the number count of the
    type, whatever the labels are. *)
Theorem validateBet_any_labels (ty : string) (t : RouletteConfig.BetType)
    (nums : list value) :
  RouletteConfig.betTypes !! ty = Some t ->
  ty <> "split"%string -> ty <> "corner"%string ->
  (BetManager.validateBet ty nums = BetManager.Valid <->
   Forall (fun s => s ∈ RouletteConfig.wheelOrder) nums /\
   Z.of_nat (length nums) = RouletteConfig.numberCount t /\
   NoDup nums).
Proof.
  intros Ht Hsplit Hcorner.
  pose proof (validateBet_checks ty nums) as Hchecks. cbv zeta in Hchecks.
  assert (0 < RouletteConfig.numberCount t) as Hcount.
  { destruct (catalog_returns_36 _ _ Ht) as [H36 Hpay]. nia. }
  assert (Validator.geometryOk ty nums = true) as Hgeo.
  { unfold Validator.geometryOk. by rewrite !decide_False. }
  assert (Validator.knownBetType ty = true) as Hknown.
  { apply bool_decide_eq_true. eauto. }
  rewrite Hgeo, Hknown in Hchecks. unfold Validator.countMatches in Hchecks.
  rewrite Ht in Hchecks. cbn [Validator.firstFailing] in Hchecks.
  split.
  - intros Hvalid. rewrite Hvalid in Hchecks.
    destruct (Validator.validSlots nums) eqn:Hslots; [|discriminate].
    destruct (bool_decide (Z.of_nat (length nums) = _)) eqn:Hlen; [|discriminate].
    destruct (Validator.distinctSlots nums) eqn:Hnd; [|discriminate].
    apply bool_decide_eq_true in Hslots as [_ Hslots].
    apply bool_decide_eq_true in Hlen, Hnd. done.
  - intros (Hslots & Hlen & Hnd).
    assert (Validator.validSlots nums = true) as Hs.
    { apply bool_decide_eq_true. split; [|done]. intros ->. cbn in Hlen. lia. }
    rewrite Hs, (bool_decide_eq_true_2 _ Hlen) in Hchecks.
    unfold Validator.distinctSlots in Hchecks.
    rewrite (bool_decide_eq_true_2 _ Hnd) in Hchecks.
    destruct (BetManager.validateBet ty nums) as [|e]; [done|].
    destruct Hchecks as [[r Hr] Hnone]. congruence.
Qed.

Lemma validateBet_any_labels_witness :
  BetManager.validateBet "red" blackNumbers = BetManager.Valid.
Proof.
  apply (validateBet_any_labels "red"
           {| RouletteConfig.name := "Red"; RouletteConfig.payout := 1;
              RouletteConfig.numberCount := 18;
              RouletteConfig.description := "All red numbers" |}).
  - reflexivity.
  - discriminate.
  - discriminate.
  - split; [|split].
    + apply (bool_decide_unpack
               (Forall (fun s => s ∈ RouletteConfig.wheelOrder) blackNumbers)).
      by vm_compute.
    + reflexivity.
    + apply (bool_decide_unpack (NoDup blackNumbers)). by vm_compute.
Defined.

Lemma render_accepted :
  Forall (fun cell => proposalAccepted cell = true) BettingTable.render.
Proof.
  apply (bool_decide_unpack
           (Forall (fun cell => proposalAccepted cell = true) BettingTable.render)).
  by vm_compute.
Qed.

Lemma render_straight_cells :
  omap straightNumber BettingTable.render ≡ₚ RouletteConfig.wheelOrder.
Proof.
  apply NoDup_Permutation.
  - apply (bool_decide_unpack (NoDup (omap straightNumber BettingTable.render))).
    by vm_compute.
  - apply wheelOrder_NoDup.
  - intros x. split; intros Hx.
    + revert x Hx. apply Forall_forall.
      apply (bool_decide_unpack
               (Forall (fun x => x ∈ RouletteConfig.wheelOrder)
                       (omap straightNumber BettingTable.render))).
      by vm_compute.
    + revert x Hx. apply Forall_forall.
      apply (bool_decide_unpack
               (Forall (fun x => x ∈ omap straightNumber BettingTable.render)
                       RouletteConfig.wheelOrder)).
      by vm_compute.
Qed.

(** X19.  Every cell the table renders proposes, when clicked, a bet
    that [validateBet] accepts; the straight-up cells propose the 38
    wheel labels, each once; and every chip denomination is a valid
    bet amount. *)
Theorem render_proposes_valid_bets (cell : BettingTable.Cell) :
  cell ∈ BettingTable.render ->
  (exists betType numbers,
     BettingTable.proposedBet cell = Some (betType, numbers) /\
     BetManager.validateBet betType numbers = BetManager.Valid) /\
  omap straightNumber BettingTable.render ≡ₚ RouletteConfig.wheelOrder /\
  Forall (fun chip => BetManager.validateBetAmount (VNum chip) = BetManager.Valid)
         RouletteConfig.chipDenominations.
Proof.
  intros Hcell. split; [|split].
  - pose proof (proj1 (Forall_forall _ _) render_accepted cell Hcell) as Hok.
    unfold proposalAccepted in Hok.
    destruct (BettingTable.proposedBet cell) as [[betType numbers]|]; [|done].
    exists betType, numbers. split; [done|]. by apply accepted_Valid.
  - apply render_straight_cells.
  - repeat constructor.
Qed.

Lemma render_proposes_valid_bets_witness :
  exists betType numbers,
    BettingTable.proposedBet (BettingTable.addOutsideBet "bet-19-36") =
      Some (betType, numbers) /\
    BetManager.validateBet betType numbers = BetManager.Valid.
Proof.
  apply (render_proposes_valid_bets (BettingTable.addOutsideBet "bet-19-36")).
  unfold BettingTable.render. rewrite !elem_of_app. do 4 right.
  rewrite !list_elem_of_fmap. exists "bet-19-36"%string. split; [done|].
  rewrite !elem_of_cons. tauto.
Defined.

(** X20.  The '2 to 1' label displayed in the grid row of
    [grid[rowIndex]] stakes on [betSets.column<rowIndex + 1>], which
    holds the numbers of [grid[2 - rowIndex]]: the label beside the top
    row (3, 6, ..., 36) stakes on 1, 4, ..., 34, the label beside the
    bottom row on 3, 6, ..., 36, and only the middle label stakes on the
    row it is displayed with. *)
Theorem twoToOne_label_row (rowIndex : Z) :
  0 <= rowIndex <= 2 ->
  let label := BettingTable.addTwoToOneLabel rowIndex in
  label ∈ BettingTable.render /\
  Some (numbersDisplayedInRow (default 0 (BettingTable.gridRow label))) =
    (map toPropertyKey <$> RouletteConfig.grid !! Z.to_nat rowIndex) /\
  BettingTable.proposedBet label =
    (pair "column"%string <$> RouletteConfig.grid !! Z.to_nat (2 - rowIndex)).
Proof.
  intros Hrow. assert (rowIndex ∈ seqZ 0 3) as Hin by (apply elem_of_seqZ; lia).
  cbv zeta. clear Hrow. revert rowIndex Hin. apply Forall_forall.
  repeat constructor; try (by vm_compute);
    unfold BettingTable.render; rewrite !elem_of_app; do 2 right; left;
    apply list_elem_of_fmap; eexists; (split; [reflexivity|]);
    rewrite !elem_of_cons; tauto.
Qed.

Lemma twoToOne_label_row_witness :
  BettingTable.proposedBet (BettingTable.addTwoToOneLabel 0) =
    Some ("column"%string,
          map VNum [1; 4; 7; 10; 13; 16; 19; 22; 25; 28; 31; 34]).
Proof.
  assert (0 <= 0 <= 2) as Hrow by lia.
  exact (proj2 (proj2 (twoToOne_label_row 0 Hrow))).
Defined.

(** ** Lines *)

Lemma at_outside (arr : list value) (i : Z) :
  i < 0 \/ Z.of_nat (length arr) <= i -> at_ arr i = VUndefined.
Proof.
  intros Hi. unfold at_. destruct (i <? 0) eqn:Hneg; [done|].
  apply Z.ltb_ge in Hneg. rewrite lookup_ge_None_2; [done | lia].
Qed.

Lemma validateBet_undefined (ty : string) (nums : list value) :
  VUndefined ∈ nums -> BetManager.validateBet ty nums <> BetManager.Valid.
Proof.
  intros Hin Hvalid.
  pose proof (validateBet_checks ty nums) as Hchecks. cbv zeta in Hchecks.
  rewrite Hvalid in Hchecks.
  destruct (Validator.knownBetType ty); [|discriminate].
  destruct (Validator.validSlots nums) eqn:Hslots; [|discriminate].
  apply bool_decide_eq_true in Hslots as [_ Hslots].
  rewrite Forall_forall in Hslots. specialize (Hslots _ Hin).
  revert Hslots. apply (bool_decide_unpack (VUndefined ∉ RouletteConfig.wheelOrder)).
  by vm_compute.
Qed.

Lemma sortNumbers_undefined (arr : list value) :
  VUndefined ∈ arr -> VUndefined ∈ sortNumbers arr.
Proof.
  intros Hin. unfold sortNumbers. apply elem_of_app. right.
  apply list_elem_of_In, filter_In. split; [by apply list_elem_of_In|].
  by apply bool_decide_eq_true.
Qed.

Lemma getLineBetNumbers_outside (lineIndex : Z) :
  ~ 0 <= lineIndex <= 10 -> VUndefined ∈ BettingTable.getLineBetNumbers lineIndex.
Proof.
  intros Hout. unfold BettingTable.getLineBetNumbers. apply sortNumbers_undefined.
  assert (Forall (fun row : list value => length row = 12%nat) RouletteConfig.grid)
    as Hrows by (repeat constructor).
  destruct (decide (lineIndex < 0)) as [Hneg | Hpos].
  - apply elem_of_app. left. unfold RouletteConfig.grid. cbn [map].
    rewrite at_outside by (by left). apply elem_of_cons. by left.
  - apply elem_of_app. right. unfold RouletteConfig.grid. cbn [map].
    rewrite at_outside by (right; cbn; lia). apply elem_of_cons. by left.
Qed.

(** X21.  [getLineBetNumbers(i)] is the six numbers 3i+1 .. 3i+6 for
    i = 0 .. 10, and those are the only indices for which the numbers
    it returns pass [validateBet] as a line: any other index reads past
    the grid and puts [undefined] among them. *)
Theorem getLineBetNumbers_lines (lineIndex : Z) :
  (0 <= lineIndex <= 10 ->
   BettingTable.getLineBetNumbers lineIndex = map VNum (seqZ (3 * lineIndex + 1) 6)) /\
  (BetManager.validateBet "line" (BettingTable.getLineBetNumbers lineIndex) =
     BetManager.Valid <-> 0 <= lineIndex <= 10).
Proof.
  assert (Forall (fun i =>
            BettingTable.getLineBetNumbers i = map VNum (seqZ (3 * i + 1) 6) /\
            accepted (BetManager.validateBet "line" (BettingTable.getLineBetNumbers i)) =
              true) (seqZ 0 11)) as Hlines.
  { apply (bool_decide_unpack
             (Forall (fun i =>
                BettingTable.getLineBetNumbers i = map VNum (seqZ (3 * i + 1) 6) /\
                accepted (BetManager.validateBet "line"
                            (BettingTable.getLineBetNumbers i)) = true) (seqZ 0 11))).
    by vm_compute. }
  rewrite Forall_forall in Hlines.
  split.
  - intros Hin. apply Hlines, elem_of_seqZ. lia.
  - split.
    + intros Hvalid. destruct (decide (0 <= lineIndex <= 10)) as [|Hout]; [done|].
      by destruct (validateBet_undefined "line" _ (getLineBetNumbers_outside _ Hout)).
    + intros Hin. apply accepted_Valid, Hlines, elem_of_seqZ. lia.
Qed.

Lemma getLineBetNumbers_lines_witness :
  BettingTable.getLineBetNumbers 4 = map VNum [13; 14; 15; 16; 17; 18].
Proof.
  assert (0 <= 4 <= 10) as Hin by lia.
  exact (proj1 (getLineBetNumbers_lines 4) Hin).
Defined.

(** ** The cell of a bet *)

Lemma isBetOnCell_reads (bet other : Bet) (cell : BettingTable.Cell) :
  type bet = type other -> numbers bet = numbers other ->
  BettingTable.isBetOnCell bet cell = BettingTable.isBetOnCell other cell.
Proof.
  intros Hty Hnums. unfold BettingTable.isBetOnCell. by rewrite Hty, Hnums.
Qed.

Lemma render_cells_apart :
  Forall (fun cell => onOwnCellOnly cell = true) BettingTable.render.
Proof.
  apply (bool_decide_unpack
           (Forall (fun cell => onOwnCellOnly cell = true) BettingTable.render)).
  by vm_compute.
Qed.

(** X22.  [isBetOnCell] inverts [handleBetPlacement] on the rendered
    table: a bet with the type and numbers that a click on a rendered
    cell proposes is on that cell and on no other rendered cell, so
    [refreshChips] puts its chip back where it was placed. *)
Theorem isBetOnCell_inverts_placement (bet : Bet) (cell other : BettingTable.Cell) :
  cell ∈ BettingTable.render -> other ∈ BettingTable.render ->
  BettingTable.proposedBet cell = Some (type bet, numbers bet) ->
  BettingTable.isBetOnCell bet other = Some (bool_decide (other = cell)).
Proof.
  intros Hcell Hother Hbet.
  pose proof (proj1 (Forall_forall _ _) render_cells_apart cell Hcell) as Hall.
  unfold onOwnCellOnly in Hall. rewrite Hbet in Hall.
  rewrite forallb_forall in Hall.
  specialize (Hall other (proj1 (list_elem_of_In _ _) Hother)).
  apply bool_decide_eq_true in Hall. rewrite <- Hall. by apply isBetOnCell_reads.
Qed.

Lemma isBetOnCell_inverts_placement_witness :
  BettingTable.isBetOnCell (onRed 5 0) (BettingTable.addOutsideBet "bet-black") =
    Some false.
Proof.
  apply (isBetOnCell_inverts_placement (onRed 5 0) (BettingTable.addOutsideBet "bet-red")
           (BettingTable.addOutsideBet "bet-black")).
  - unfold BettingTable.render. rewrite !elem_of_app. do 4 right.
    apply list_elem_of_fmap. exists "bet-red"%string. split; [done|].
    rewrite !elem_of_cons. tauto.
  - unfold BettingTable.render. rewrite !elem_of_app. do 4 right.
    apply list_elem_of_fmap. exists "bet-black"%string. split; [done|].
    rewrite !elem_of_cons. tauto.
  - reflexivity.
Defined.

(** ** The potential win *)



(** ** The analysis of a table *)

Lemma coverNumber_covered (nums : list value) (covered duplicates : list value) :
  (fold_left PayoutCalculator.coverNumber nums (covered, duplicates)).1 =
    setAddAll covered nums.
Proof.
  revert covered duplicates. induction nums as [|x nums IH]; intros covered duplicates.
  - done.
  - cbn [fold_left setAddAll]. unfold PayoutCalculator.coverNumber at 2.
    destruct (includes covered x); apply IH.
Qed.

Lemma occurrences_app x l k :
  occurrences x (l ++ k) = (occurrences x l + occurrences x k)%nat.
Proof. unfold occurrences. by rewrite filter_app, length_app. Qed.

Lemma occurrences_pos x l : x ∈ l <-> (1 <= occurrences x l)%nat.
Proof.
  unfold occurrences. induction l as [|y l IH].
  - cbn. rewrite elem_of_nil. lia.
  - rewrite filter_cons, elem_of_cons. destruct (decide (y = x)) as [-> | Hne].
    + cbn. split; [lia | by left].
    + rewrite <- IH. split; [intros [? | ?]; [congruence | done] | by right].
Qed.

Lemma coverNumber_fold (nums seen covered duplicates : list value) :
  (forall x, x ∈ covered <-> x ∈ seen) ->
  NoDup duplicates ->
  (forall x, x ∈ duplicates <-> (2 <= occurrences x seen)%nat) ->
  let result := fold_left PayoutCalculator.coverNumber nums (covered, duplicates) in
  NoDup result.2 /\
  (forall x, x ∈ result.2 <-> (2 <= occurrences x (seen ++ nums))%nat).
Proof.
  revert seen covered duplicates.
  induction nums as [|n nums IH]; intros seen covered duplicates Hcov Hnd Hdup; cbv zeta.
  - cbn [fold_left snd]. rewrite app_nil_r. done.
  - cbn [fold_left]. replace (seen ++ n :: nums) with ((seen ++ [n]) ++ nums)
      by (by rewrite <- app_assoc).
    assert (occurrences n [n] = 1%nat) as Hn1.
    { unfold occurrences. rewrite filter_cons, decide_True by done. done. }
    assert (forall x, x <> n -> occurrences x [n] = 0%nat) as Hn0.
    { intros x Hx. unfold occurrences. rewrite filter_cons, decide_False by done. done. }
    destruct (includes covered n) eqn:Hinc.
    + destruct (includes duplicates n) eqn:Hd.
      * assert (PayoutCalculator.coverNumber (covered, duplicates) n =
                  (covered, duplicates)) as ->.
        { unfold PayoutCalculator.coverNumber. by rewrite Hinc, Hd. }
        apply includes_elem_of in Hinc. apply Hcov, occurrences_pos in Hinc.
        apply includes_elem_of in Hd.
        apply IH.
        -- intros x. rewrite elem_of_app, Hcov, list_elem_of_singleton.
           split; [tauto|]. intros [? | ->]; [done|]. by apply occurrences_pos.
        -- done.
        -- intros x. rewrite occurrences_app, Hdup.
           destruct (decide (x = n)) as [-> | Hne].
           ++ apply Hdup in Hd. lia.
           ++ rewrite Hn0 by done. lia.
      * assert (PayoutCalculator.coverNumber (covered, duplicates) n =
                  (covered, duplicates ++ [n])) as ->.
        { unfold PayoutCalculator.coverNumber. by rewrite Hinc, Hd. }
        apply includes_elem_of in Hinc. apply Hcov, occurrences_pos in Hinc.
        assert (n ∉ duplicates) as Hnot.
        { intros Hin. apply includes_elem_of in Hin. congruence. }
        apply IH.
        -- intros x. rewrite elem_of_app, Hcov, list_elem_of_singleton.
           split; [tauto|]. intros [? | ->]; [done|]. by apply occurrences_pos.
        -- apply NoDup_app. split; [done|]. split; [|apply NoDup_singleton].
           intros x Hx Hxn. apply list_elem_of_singleton in Hxn. by subst x.
        -- intros x. rewrite elem_of_app, list_elem_of_singleton, occurrences_app, Hdup.
           destruct (decide (x = n)) as [-> | Hne].
           ++ rewrite Hn1. split; [lia | by right].
           ++ rewrite Hn0 by done. split; [intros [? | ?]; [lia | done] | left; lia].
    + assert (PayoutCalculator.coverNumber (covered, duplicates) n =
                (covered ++ [n], duplicates)) as ->.
      { unfold PayoutCalculator.coverNumber. by rewrite Hinc. }
      assert (n ∉ seen) as Hnot.
      { intros Hin. apply Hcov, includes_elem_of in Hin. congruence. }
      assert (occurrences n seen = 0%nat) as Hzero.
      { destruct (occurrences n seen) eqn:Ho; [done|]. destruct Hnot.
        apply occurrences_pos. lia. }
      apply IH.
      * intros x. rewrite !elem_of_app, Hcov. done.
      * done.
      * intros x. rewrite occurrences_app, Hdup.
        destruct (decide (x = n)) as [-> | Hne].
        -- rewrite Hn1, Hzero. lia.
        -- rewrite Hn0 by done. lia.
Qed.

Lemma trackBetType_fold (bets : list Bet) (m : gmap string PayoutCalculator.TypeSummary)
    (ty : string) :
  fold_left PayoutCalculator.trackBetType bets m !! ty =
    let ofType := filter (fun b => type b = ty) bets in
    if decide (ofType = []) then m !! ty
    else
      let entry :=
        default {| PayoutCalculator.count := 0; PayoutCalculator.summaryAmount := 0;
                   PayoutCalculator.summaryBets := [] |} (m !! ty) in
      Some {| PayoutCalculator.count :=
                PayoutCalculator.count entry + Z.of_nat (length ofType);
              PayoutCalculator.summaryAmount :=
                PayoutCalculator.summaryAmount entry + reduceSum amount ofType;
              PayoutCalculator.summaryBets :=
                PayoutCalculator.summaryBets entry ++ ofType |}.
Proof.
  revert m. induction bets as [|bet bets IH]; intros m; cbv zeta.
  - done.
  - cbn [fold_left]. rewrite IH. cbv zeta. rewrite filter_cons.
    unfold PayoutCalculator.trackBetType.
    destruct (decide (type bet = ty)) as [<- | Hne].
    + rewrite lookup_insert_eq. rewrite (decide_False (P := bet :: _ = [])) by done.
      cbn [default]. rewrite reduceSum_cons. cbn [length].
      destruct (decide (filter (fun b => type b = type bet) bets = [])) as [-> | Hsome].
      * rewrite reduceSum_nil. cbn [length].
        destruct (m !! type bet) as [entry|]; cbn [default from_option id]; f_equal; f_equal; lia.
      * cbn [PayoutCalculator.count PayoutCalculator.summaryAmount
             PayoutCalculator.summaryBets].
        destruct (m !! type bet) as [entry|]; cbn [default from_option id];
          cbn [PayoutCalculator.count PayoutCalculator.summaryAmount
               PayoutCalculator.summaryBets];
          rewrite <- ?app_assoc; cbn [app]; f_equal; f_equal; lia.
    + by rewrite lookup_insert_ne.
Qed.

Lemma analyzeBet_fold (bets : list Bet) (a : PayoutCalculator.Analysis) :
  let tracked :=
    fold_left PayoutCalculator.coverNumber (concat (map numbers bets))
              (PayoutCalculator.numbersCovered a, PayoutCalculator.duplicateNumbers a) in
  fold_left PayoutCalculator.analyzeBet bets a =
    {| PayoutCalculator.totalBets := PayoutCalculator.totalBets a;
       PayoutCalculator.totalAmount :=
         PayoutCalculator.totalAmount a + reduceSum amount bets;
       PayoutCalculator.analysisBetTypes :=
         fold_left PayoutCalculator.trackBetType bets
                   (PayoutCalculator.analysisBetTypes a);
       PayoutCalculator.numbersCovered := tracked.1;
       PayoutCalculator.duplicateNumbers := tracked.2;
       PayoutCalculator.coverage := PayoutCalculator.coverage a |}.
Proof.
  revert a. induction bets as [|bet bets IH]; intros a; cbv zeta.
  - cbn [fold_left map concat fst snd]. rewrite reduceSum_nil, Z.add_0_r. by destruct a.
  - cbn [fold_left map concat]. rewrite IH. cbv zeta.
    rewrite fold_left_app, reduceSum_cons.
    assert (PayoutCalculator.analyzeBet a bet =
              {| PayoutCalculator.totalBets := PayoutCalculator.totalBets a;
                 PayoutCalculator.totalAmount :=
                   PayoutCalculator.totalAmount a + amount bet;
                 PayoutCalculator.analysisBetTypes :=
                   PayoutCalculator.trackBetType
                     (PayoutCalculator.analysisBetTypes a) bet;
                 PayoutCalculator.numbersCovered :=
                   (fold_left PayoutCalculator.coverNumber (numbers bet)
                      (PayoutCalculator.numbersCovered a,
                       PayoutCalculator.duplicateNumbers a)).1;
                 PayoutCalculator.duplicateNumbers :=
                   (fold_left PayoutCalculator.coverNumber (numbers bet)
                      (PayoutCalculator.numbersCovered a,
                       PayoutCalculator.duplicateNumbers a)).2;
                 PayoutCalculator.coverage := PayoutCalculator.coverage a |}) as ->.
    { unfold PayoutCalculator.analyzeBet.
      by destruct (fold_left PayoutCalculator.coverNumber (numbers bet) _). }
    cbn [PayoutCalculator.totalBets PayoutCalculator.totalAmount
         PayoutCalculator.analysisBetTypes PayoutCalculator.numbersCovered
         PayoutCalculator.duplicateNumbers PayoutCalculator.coverage].
    destruct (fold_left PayoutCalculator.coverNumber (numbers bet) _) as [covered dups].
    cbn [fst snd]. f_equal. lia.
Qed.


(** ** Hot and cold numbers *)


Lemma slice_prefix {A} (arr : list A) (end_ : Z) :
  slice arr 0 end_ =
    take (Z.to_nat (if end_ <? 0 then Z.of_nat (length arr) + end_ else end_)) arr.
Proof.
  unfold slice. cbn [Z.ltb Z.compare]. rewrite (Z.min_l 0) by lia. change (Z.to_nat 0) with 0%nat. rewrite drop_0.
  rewrite Z.sub_0_r. destruct (end_ <? 0) eqn:Hneg.
  - f_equal. lia.
  - apply Z.ltb_ge in Hneg.
    destruct (decide (end_ <= Z.of_nat (length arr))).
    + f_equal. lia.
    + rewrite !take_ge; [done | lia | lia].
Qed.

Section sorting.
Context {A : Type} (compare : A -> A -> Z).
Hypothesis before_total : forall a b, notAfter compare a b \/ notAfter compare b a.
Hypothesis before_trans :
  forall a b c, notAfter compare a b -> notAfter compare b c -> notAfter compare a c.

Lemma insertSorted_Permutation (x : A) (l : list A) :
  insertSorted compare x l ≡ₚ x :: l.
Proof.
  induction l as [|y l IH]; [done|]. cbn [insertSorted].
  destruct (compare x y <=? 0); [done|]. rewrite IH. apply perm_swap.
Qed.

Lemma sortWith_Permutation (l : list A) : sortWith compare l ≡ₚ l.
Proof.
  induction l as [|x l IH]; [done|]. unfold sortWith in *. cbn [foldr].
  by rewrite insertSorted_Permutation, IH.
Qed.

Lemma insertSorted_StronglySorted (x : A) (l : list A) :
  StronglySorted (notAfter compare) l -> StronglySorted (notAfter compare) (insertSorted compare x l).
Proof.
  induction l as [|y l IH]; intros Hl; cbn [insertSorted].
  - repeat constructor.
  - apply StronglySorted_cons in Hl as [Hy Hl].
    destruct (compare x y <=? 0) eqn:Hxy.
    + apply Z.leb_le in Hxy. constructor; [by constructor|].
      constructor; [done|]. eapply Forall_impl; [exact Hy|].
      intros z Hz. by apply (before_trans x y z).
    + apply Z.leb_gt in Hxy. constructor; [by apply IH|].
      rewrite insertSorted_Permutation. constructor; [|done].
      destruct (before_total x y) as [Hb | Hb]; [unfold notAfter in Hb; lia | done].
Qed.

Lemma sortWith_StronglySorted (l : list A) :
  StronglySorted (notAfter compare) (sortWith compare l).
Proof.
  induction l as [|x l IH]; [constructor|]. unfold sortWith in *. cbn [foldr].
  by apply insertSorted_StronglySorted.
Qed.

End sorting.

Lemma ownKeys_wheel :
  ownKeys wheelKeys = map pretty (seqZ 0 37) ++ ["00"%string].
Proof. by vm_compute. Qed.

Lemma ownKeys_wheel_length : length (ownKeys wheelKeys) = 38%nat.
Proof. by vm_compute. Qed.

Lemma ownKeys_wheel_keys :
  NoDup (ownKeys wheelKeys) /\
  (forall key, key ∈ ownKeys wheelKeys <-> key ∈ wheelKeys).
Proof.
  split.
  - apply (bool_decide_unpack (NoDup (ownKeys wheelKeys))). by vm_compute.
  - intros key. split; revert key; apply Forall_forall.
    + apply (bool_decide_unpack (Forall (fun key => key ∈ wheelKeys) (ownKeys wheelKeys))).
      by vm_compute.
    + apply (bool_decide_unpack (Forall (fun key => key ∈ ownKeys wheelKeys) wheelKeys)).
      by vm_compute.
Qed.

Lemma frequencyEntries_recent (rounds : list HistoryEntry) :
  GameStatistics.frequencyEntries
    (fold_left GameStatistics.countSpin rounds GameStatistics.initialFrequencies) =
    map (fun key => (key, spinCount key rounds)) (ownKeys wheelKeys).
Proof.
  unfold GameStatistics.frequencyEntries. fold wheelKeys.
  assert (forall keys, (forall key, key ∈ keys -> key ∈ wheelKeys) ->
            omap (fun key => pair key <$>
                    fold_left GameStatistics.countSpin rounds
                              GameStatistics.initialFrequencies !! key) keys =
            map (fun key => (key, spinCount key rounds)) keys) as Hall.
  { induction keys as [|key keys IH]; intros Hkeys; [done|].
    cbn [omap list_omap map].
    rewrite countSpin_fold. unfold GameStatistics.initialFrequencies at 1.
    rewrite initialFrequencies_from, lookup_empty.
    rewrite decide_True by (apply Hkeys, elem_of_cons; by left).
    cbn [fmap option_fmap option_map]. rewrite Z.add_0_l. fold (spinCount key rounds).
    f_equal. apply IH. intros k Hk. apply Hkeys, elem_of_cons. by right. }
  apply Hall. intros key. apply ownKeys_wheel_keys.
Qed.

Lemma hot_cold_slices {A} (sorted : list A) :
  length sorted = 38%nat ->
  slice sorted 0 5 = take 5 sorted /\ sliceFrom sorted (-5) = drop 33 sorted.
Proof.
  intros Hlen. unfold sliceFrom, slice. rewrite Hlen. split.
  - by change (take 5 (drop 0 sorted) = take 5 sorted).
  - change (take 5 (drop 33 sorted) = drop 33 sorted).
    apply take_ge. rewrite length_drop. lia.
Qed.

Lemma StronglySorted_weaken {A} (R S : relation A) (l : list A) :
  (forall a b, R a b -> S a b) -> StronglySorted R l -> StronglySorted S l.
Proof.
  intros HRS. induction 1 as [|x l Hl IH Hx]; constructor; [done|].
  eapply Forall_impl; [exact Hx | apply HRS].
Qed.

Lemma descending_total (a b : string * Z) :
  notAfter (fun a b : string * Z => b.2 - a.2) a b \/
  notAfter (fun a b : string * Z => b.2 - a.2) b a.
Proof. unfold notAfter. lia. Qed.

Lemma descending_trans (a b c : string * Z) :
  notAfter (fun a b : string * Z => b.2 - a.2) a b ->
  notAfter (fun a b : string * Z => b.2 - a.2) b c ->
  notAfter (fun a b : string * Z => b.2 - a.2) a c.
Proof. unfold notAfter. lia. Qed.


(** Before any spin the ties fall in key order: [hot] is 0 .. 4 and
    [cold] is 00, 36, 35, 34, 33. *)
Example getHotColdNumbers_fresh :
  GameStatistics.getHotColdNumbers freshSession 100 =
    {| GameStatistics.hot := [("0", 0); ("1", 0); ("2", 0); ("3", 0); ("4", 0)]%string;
       GameStatistics.cold :=
         [("00", 0); ("36", 0); ("35", 0); ("34", 0); ("33", 0)]%string |}.
Proof. by vm_compute. Qed.

(** ** The chip selector *)

Lemma find_first {A} (f : A -> bool) (l : list A) (v : A) :
  List.find f l = Some v ->
  exists l1 l2, l = l1 ++ v :: l2 /\ f v = true /\ Forall (fun x => f x = false) l1.
Proof.
  induction l as [|x l IH]; [done|]. cbn [List.find].
  destruct (f x) eqn:Hx.
  - intros [= ->]. exists [], l. by repeat split.
  - intros Hfind. destruct (IH Hfind) as (l1 & l2 & -> & Hv & Hl1).
    exists (x :: l1), l2. repeat split; [done|]. by constructor.
Qed.

Lemma find_nothing {A} (f : A -> bool) (l : list A) :
  List.find f l = None <-> Forall (fun x => f x = false) l.
Proof.
  induction l as [|x l IH]; cbn [List.find].
  - split; [constructor | done].
  - destruct (f x) eqn:Hx.
    + split; [done|]. intros Hall. apply Forall_cons in Hall as [? _]. congruence.
    + rewrite IH. split; [by constructor | by intros [_ ?]%Forall_cons].
Qed.

Section chip_selector.
Import ChipSelector.

Lemma withoutSelection_values (cs : list Chip) :
  map dataValue (withoutSelection cs) = map dataValue cs.
Proof. unfold withoutSelection. rewrite map_map. done. Qed.

Lemma markSelected_values (v : Z) (cs : list Chip) :
  map dataValue (markSelected v cs) = map dataValue cs.
Proof.
  induction cs as [|c cs IH]; [done|]. cbn [markSelected].
  destruct (dataValue c =? v); cbn [map dataValue]; [done | by rewrite IH].
Qed.

Lemma markSelected_disabled (v : Z) (cs : list Chip) :
  map disabled (markSelected v cs) = map disabled cs.
Proof.
  induction cs as [|c cs IH]; [done|]. cbn [markSelected].
  destruct (dataValue c =? v); cbn [map disabled]; [done | by rewrite IH].
Qed.

Lemma find_chip (v : Z) (cs : list Chip) :
  v ∈ map dataValue cs ->
  exists c, List.find (fun c => dataValue c =? v) cs = Some c /\ dataValue c = v /\ c ∈ cs.
Proof.
  induction cs as [|c cs IH]; cbn [map List.find].
  - by intros ?%elem_of_nil.
  - intros Hin. destruct (dataValue c =? v) eqn:Hc.
    + exists c. apply Z.eqb_eq in Hc. repeat split; [done|]. apply elem_of_cons. by left.
    + apply elem_of_cons in Hin as [-> | Hin]; [by rewrite Z.eqb_refl in Hc|].
      destruct (IH Hin) as (c' & ? & ? & ?). exists c'. repeat split; [done..|].
      apply elem_of_cons. by right.
Qed.

Lemma updateChipAvailability_falls_back (sel : Selector) (availableBalance s : Z) :
  0 <= availableBalance -> selectedChip sel = Some s -> availableBalance < s ->
  Forall (fun d => 0 < d) (chipDenominations sel) ->
  (forall d, d ∈ chipDenominations sel -> d ∈ map dataValue (chips sel)) ->
  let sel' := updateChipAvailability availableBalance sel in
  chipDenominations sel' = reverse (chipDenominations sel) /\
  selectedChip sel' =
    List.find (fun d => d <=? availableBalance) (reverse (chipDenominations sel)) /\
  map dataValue (chips sel') = map dataValue (chips sel) /\
  map disabled (chips sel') =
    map (fun c => availableBalance <? dataValue c) (chips sel).
Proof.
  intros Havail Hsel Hs Hpos Hchips. cbv zeta. unfold updateChipAvailability.
  rewrite Hsel. cbn [truthy default from_option id].
  assert (negb (s =? 0) && (availableBalance <? s) = true) as ->.
  { apply andb_true_iff. split; [apply negb_true_iff, Z.eqb_neq | apply Z.ltb_lt]; lia. }
  set (chips' := map _ (chips sel)).
  assert (map dataValue chips' = map dataValue (chips sel)) as Hvalues.
  { unfold chips'. by rewrite map_map. }
  assert (map disabled chips' =
            map (fun c => availableBalance <? dataValue c) (chips sel)) as Hdisabled.
  { unfold chips'. by rewrite map_map. }
  assert (map disabled (withoutSelection chips') = map disabled chips') as Hkeep.
  { unfold withoutSelection. by rewrite map_map. }
  destruct (List.find _ (reverse (chipDenominations sel))) as [v|] eqn:Hfind.
  - destruct (find_first _ _ _ Hfind) as (l1 & l2 & Hl & Hv & _).
    apply Z.leb_le in Hv.
    assert (v ∈ chipDenominations sel) as Hin.
    { apply elem_of_reverse. rewrite Hl. apply elem_of_app. right.
      apply elem_of_cons. by left. }
    assert (0 < v) as Hvpos by (by apply (proj1 (Forall_forall _ _) Hpos)).
    cbn [truthy default from_option id]. assert (negb (v =? 0) = true) as ->.
    { apply negb_true_iff, Z.eqb_neq. lia. }
    unfold selectChip. cbn [chips chipDenominations selectedChip].
    destruct (find_chip v (withoutSelection chips')) as (c & -> & Hc & Hcin).
    { rewrite withoutSelection_values, Hvalues. by apply Hchips. }
    assert (disabled c = false) as ->.
    { assert ((dataValue c, disabled c) ∈
                map (fun c => (dataValue c, disabled c)) (withoutSelection chips'))
        as Hpair by (apply list_elem_of_fmap; by exists c).
      unfold withoutSelection, chips' in Hpair. rewrite !map_map in Hpair.
      cbn [dataValue disabled] in Hpair.
      apply list_elem_of_fmap in Hpair as (c0 & [= Hval Hdis] & _).
      rewrite Hdis. apply Z.ltb_ge. lia. }
    cbn [negb chips chipDenominations selectedChip].
    by rewrite markSelected_values, markSelected_disabled, withoutSelection_values, Hkeep.
  - cbn [truthy chips chipDenominations selectedChip].
    by rewrite withoutSelection_values, Hkeep.
Qed.

Lemma find_affordable (denominations : list Z) (availableBalance : Z) :
  match List.find (fun d => d <=? availableBalance) (reverse denominations) with
  | Some v =>
      v ∈ denominations /\ v <= availableBalance /\
      (Sorted Z.le denominations ->
       forall d, d ∈ denominations -> d <= availableBalance -> d <= v) /\
      (Sorted (flip Z.le) denominations ->
       forall d, d ∈ denominations -> d <= availableBalance -> v <= d)
  | None => forall d, d ∈ denominations -> availableBalance < d
  end.
Proof.
  destruct (List.find _ _) as [v|] eqn:Hfind.
  - destruct (find_first _ _ _ Hfind) as (l1 & l2 & Hl & Hv & Hl1).
    apply Z.leb_le in Hv.
    assert (denominations = reverse l2 ++ v :: reverse l1) as ->.
    { rewrite <- (reverse_involutive denominations), Hl, reverse_app, reverse_cons.
      by rewrite <- app_assoc. }
    assert (forall d, d ∈ reverse l1 -> availableBalance < d) as Hfar.
    { intros d Hd. rewrite elem_of_reverse in Hd.
      apply (proj1 (Forall_forall _ _) Hl1), Z.leb_gt in Hd. lia. }
    split; [apply elem_of_app; right; apply elem_of_cons; by left|].
    split; [done|]. split.
    + intros Hsorted%Sorted_StronglySorted; [|apply _]. intros d Hd Hda.
      apply elem_of_app in Hd as [Hd | Hd].
      * apply (StronglySorted_app_1_elem_of _ _ _ _ _ Hsorted Hd).
        apply elem_of_cons. by left.
      * apply elem_of_cons in Hd as [-> | Hd]; [lia|]. specialize (Hfar _ Hd). lia.
    + intros Hsorted%Sorted_StronglySorted; [|apply _]. intros d Hd Hda.
      apply elem_of_app in Hd as [Hd | Hd].
      * apply (StronglySorted_app_1_elem_of _ _ _ _ _ Hsorted Hd).
        apply elem_of_cons. by left.
      * apply elem_of_cons in Hd as [-> | Hd]; [lia|]. specialize (Hfar _ Hd). lia.
  - apply find_nothing in Hfind. intros d Hd.
    apply elem_of_reverse in Hd.
    apply (proj1 (Forall_forall _ _) Hfind), Z.leb_gt in Hd. lia.
Qed.

(** X26.  When the selected chip exceeds the available balance,
    [updateChipAvailability] reverses the shared array
    [RouletteConfig.chipDenominations] in place and selects the first
    value of the reversed array that the balance covers, or nothing
    when there is none.  So with the array ascending, as configured,
    the largest affordable denomination is selected and the array is
    left descending; with the array descending, as the previous
    fallback left it, the smallest affordable denomination is selected
    and the array is ascending again.  Every chip is disabled exactly
    when its value exceeds the available balance. *)
Theorem updateChipAvailability_alternates (sel : Selector) (availableBalance s : Z) :
  0 <= availableBalance -> selectedChip sel = Some s -> availableBalance < s ->
  Forall (fun d => 0 < d) (chipDenominations sel) ->
  (forall d, d ∈ chipDenominations sel -> d ∈ map dataValue (chips sel)) ->
  let sel' := updateChipAvailability availableBalance sel in
  chipDenominations sel' = reverse (chipDenominations sel) /\
  match selectedChip sel' with
  | Some v =>
      v ∈ chipDenominations sel /\ v <= availableBalance /\
      (Sorted Z.le (chipDenominations sel) ->
       forall d, d ∈ chipDenominations sel -> d <= availableBalance -> d <= v) /\
      (Sorted (flip Z.le) (chipDenominations sel) ->
       forall d, d ∈ chipDenominations sel -> d <= availableBalance -> v <= d)
  | None => forall d, d ∈ chipDenominations sel -> availableBalance < d
  end /\
  map dataValue (chips sel') = map dataValue (chips sel) /\
  map disabled (chips sel') =
    map (fun c => availableBalance <? dataValue c) (chips sel).
Proof.
  intros Havail Hsel Hs Hpos Hchips.
  destruct (updateChipAvailability_falls_back sel availableBalance s)
    as (Hrev & Hchip & Hvalues & Hdisabled); [done..|].
  cbv zeta. rewrite Hchip. split; [done|]. split; [|done].
  apply find_affordable.
Qed.

Lemma updateChipAvailability_alternates_witness :
  chipDenominations
    (updateChipAvailability 20
       (updateChipAvailability 60
          (selectChip 500 (create RouletteConfig.chipDenominations 1000)))) =
    RouletteConfig.chipDenominations.
Proof.
  assert (0 <= 20) as Havail by lia.
  assert (20 < 25) as Hs by lia.
  refine (proj1 (updateChipAvailability_alternates
                   (updateChipAvailability 60
                      (selectChip 500 (create RouletteConfig.chipDenominations 1000)))
                   20 25 Havail eq_refl Hs _ _)).
  - repeat constructor.
  - apply Forall_forall.
    match goal with |- ?G => apply (bool_decide_unpack G) end. by vm_compute.
Defined.

End chip_selector.

(** After a first fallback the next one selects the 1 chip, although
    the balance covers the chips of 5 and 10. *)
Example updateChipAvailability_twice :
  ChipSelector.selectedChip
    (ChipSelector.updateChipAvailability 60
       (ChipSelector.selectChip 500
          (ChipSelector.create RouletteConfig.chipDenominations 1000))) = Some 25 /\
  ChipSelector.selectedChip
    (ChipSelector.updateChipAvailability 20
       (ChipSelector.updateChipAvailability 60
          (ChipSelector.selectChip 500
             (ChipSelector.create RouletteConfig.chipDenominations 1000)))) = Some 1.
Proof. split; reflexivity. Qed.

(** ** helpers.js *)

Lemma slice_window {A} (arr : list A) (i size : Z) :
  0 <= i -> 0 < size ->
  slice arr i (i + size) = take (Z.to_nat size) (drop (Z.to_nat i) arr).
Proof.
  intros Hi Hsize. unfold slice.
  assert ((i <? 0) = false) as -> by (apply Z.ltb_ge; lia).
  assert ((i + size <? 0) = false) as -> by (apply Z.ltb_ge; lia).
  destruct (decide (Z.of_nat (length arr) <= i)) as [Hout | Hin].
  - rewrite !drop_ge by lia. by rewrite !take_nil.
  - rewrite (Z.min_l i) by lia.
    destruct (decide (i + size <= Z.of_nat (length arr))).
    + f_equal. lia.
    + rewrite !take_ge; [done | rewrite length_drop; lia | rewrite length_drop; lia].
Qed.

Lemma chunkFrom_ends {A} (array : list A) (size : Z) (steps : nat) (i : Z)
    (chunks : list (list A)) :
  0 < size -> 0 <= i ->
  Z.of_nat (length array) - i <= Z.of_nat steps * size ->
  exists more,
    Helpers.chunkFrom steps array size i chunks = Some (chunks ++ more) /\
    concat more = drop (Z.to_nat i) array /\
    Forall (fun c => (0 < length c)%nat /\ Z.of_nat (length c) <= size) more /\
    (forall j c, more !! j = Some c -> (S j < length more)%nat ->
                 Z.of_nat (length c) = size).
Proof.
  intros Hsize. revert i chunks.
  induction steps as [|steps IH]; intros i chunks Hi Hsteps.
  - exists []. cbn [Helpers.chunkFrom].
    assert ((i <? Z.of_nat (length array)) = false) as -> by (apply Z.ltb_ge; lia).
    rewrite app_nil_r, drop_ge by lia. repeat split; [constructor|].
    intros j c Hj. by rewrite lookup_nil in Hj.
  - cbn [Helpers.chunkFrom]. destruct (i <? Z.of_nat (length array)) eqn:Hlt.
    + apply Z.ltb_lt in Hlt.
      destruct (IH (i + size) (chunks ++ [slice array i (i + size)]))
        as (more & Hrun & Hconcat & Hall & Hfull); [lia | lia |].
      exists (slice array i (i + size) :: more).
      rewrite Hrun, <- app_assoc. cbn [app concat]. rewrite Hconcat.
      rewrite slice_window by lia.
      assert (length (take (Z.to_nat size) (drop (Z.to_nat i) array)) =
                Nat.min (Z.to_nat size) (length array - Z.to_nat i)) as Hlen.
      { by rewrite length_take, length_drop. }
      repeat split.
      * replace (Z.to_nat (i + size)) with (Z.to_nat i + Z.to_nat size)%nat by lia.
        rewrite <- drop_drop. apply take_drop.
      * constructor; [lia | done].
      * intros [|j] c Hj Hlast.
        -- cbn in Hj. injection Hj as <-. rewrite Hlen.
           destruct more as [|c' more']; [cbn in Hlast; lia|].
           assert (drop (Z.to_nat (i + size)) array <> []) as Hrest.
           { rewrite <- Hconcat. apply Forall_cons in Hall as [[Hc' _] _].
             destruct c'; [cbn in Hc'; lia | done]. }
           assert (Z.to_nat (i + size) < length array)%nat.
           { destruct (decide (Z.to_nat (i + size) < length array)%nat); [done|].
             destruct Hrest. apply drop_ge. lia. }
           lia.
        -- cbn in Hj. apply (Hfull j c Hj). cbn [length] in Hlast. lia.
    + exists []. rewrite app_nil_r. apply Z.ltb_ge in Hlt.
      rewrite drop_ge by lia. repeat split; [constructor|].
      intros j c Hj. by rewrite lookup_nil in Hj.
Qed.

Lemma chunkFrom_runs_on {A} (array : list A) (size : Z) (steps : nat) (i : Z)
    (chunks : list (list A)) :
  size <= 0 -> i <= 0 -> array <> [] ->
  Helpers.chunkFrom steps array size i chunks = None.
Proof.
  intros Hsize Hi Harray.
  assert (0 < Z.of_nat (length array)) as Hlen by (destruct array; [done | cbn; lia]).
  revert i chunks Hi. induction steps as [|steps IH]; intros i chunks Hi;
    cbn [Helpers.chunkFrom];
    (assert ((i <? Z.of_nat (length array)) = true) as -> by (apply Z.ltb_lt; lia)).
  - done.
  - apply IH. lia.
Qed.

(** X27.  [chunk(array, size)] with a positive size ends after at most
    [array.length] rounds of its loop; the chunks it returns, joined,
    are the array, none is empty or longer than [size], and all but
    the last have [size] elements.  With a size of 0 or less and an
    array that is not empty the loop never ends. *)
Theorem chunk_partitions {A} (array : list A) (size : Z) :
  (0 < size ->
   forall steps, (length array <= steps)%nat ->
     exists chunks,
       Helpers.chunk steps array size = Some chunks /\
       concat chunks = array /\
       Forall (fun c => (0 < length c)%nat /\ Z.of_nat (length c) <= size) chunks /\
       (forall j c, chunks !! j = Some c -> (S j < length chunks)%nat ->
                    Z.of_nat (length c) = size)) /\
  (size <= 0 -> array <> [] ->
   forall steps, Helpers.chunk steps array size = None).
Proof.
  split.
  - intros Hsize steps Hsteps.
    destruct (chunkFrom_ends array size steps 0 [] Hsize) as (more & Hrun & Hrest);
      [lia | nia |].
    exists more. split; [exact Hrun | exact Hrest].
  - intros Hsize Harray steps. by apply chunkFrom_runs_on.
Qed.

Lemma chunk_partitions_witness :
  exists chunks,
    Helpers.chunk 5 (map VNum [1; 2; 3; 4; 5]) 2 = Some chunks /\
    concat chunks = map VNum [1; 2; 3; 4; 5] /\
    Forall (fun c => (0 < length c)%nat /\ Z.of_nat (length c) <= 2) chunks /\
    (forall j c, chunks !! j = Some c -> (S j < length chunks)%nat ->
                 Z.of_nat (length c) = 2).
Proof.
  assert (0 < 2) as Hsize by lia.
  apply (proj1 (chunk_partitions (map VNum [1; 2; 3; 4; 5]) 2) Hsize 5%nat).
  cbn. lia.
Defined.

Lemma strictEquals_spec (x y : value) :
  strictEquals x y = true <-> x = y /\ x <> VNaN.
Proof.
  destruct x; cbn [strictEquals]; rewrite ?bool_decide_eq_true;
    try (split; [intros Heq; split; [exact Heq | discriminate] | intros [Heq _]; exact Heq]).
  split; [discriminate | intros [_ Hnan]; by destruct Hnan].
Qed.

Lemma sublist_whole {A} (l k : list A) :
  sublist l k -> (length k <= length l)%nat -> l = k.
Proof.
  induction 1 as [|x l k Hsub IH|x l k Hsub IH]; cbn [length]; intros Hlen.
  - done.
  - f_equal. apply IH. lia.
  - apply sublist_length in Hsub. lia.
Qed.

Lemma at_lookup (arr : list value) (i : nat) :
  at_ arr (Z.of_nat i) = default VUndefined (arr !! i).
Proof.
  unfold at_. assert ((Z.of_nat i <? 0) = false) as -> by (apply Z.ltb_ge; lia).
  by rewrite Nat2Z.id.
Qed.

(** X28.  [arraysEqual(a, b)] holds exactly when the two arrays are
    the same and hold no NaN: the elements are compared with [===],
    under which NaN differs from itself. *)
Theorem arraysEqual_same (arr1 arr2 : list value) :
  Helpers.arraysEqual arr1 arr2 = true <-> arr1 = arr2 /\ VNaN ∉ arr1.
Proof.
  unfold Helpers.arraysEqual.
  destruct (length arr1 =? length arr2)%nat eqn:Hlen; cbn [negb].
  - apply Nat.eqb_eq in Hlen. rewrite forallb_forall. split.
    + intros Hall.
      assert (forall i x, arr1 !! i = Some x -> arr2 !! i = Some x /\ x <> VNaN) as Hsame.
      { intros i x Hx.
        assert (In (i, x) (imap pair arr1)) as Hin.
        { apply list_elem_of_In, elem_of_lookup_imap. by exists i, x. }
        specialize (Hall _ Hin). cbn [fst snd] in Hall.
        apply strictEquals_spec in Hall as [Heq Hnan]. split; [|done].
        rewrite at_lookup in Heq.
        destruct (arr2 !! i) as [y|] eqn:Hy; [by cbn in Heq; subst y|].
        apply lookup_ge_None in Hy. apply lookup_lt_Some in Hx. lia. }
      split.
      * apply list_eq_same_length with (length arr1); [done | done |].
        intros i x y _ Hx Hy. apply Hsame in Hx as [Hx _]. congruence.
      * intros Hnan. apply list_elem_of_lookup in Hnan as [i Hi].
        by apply Hsame in Hi as [_ ?].
    + intros [<- Hnan] [i x] Hin.
      apply list_elem_of_In, elem_of_lookup_imap in Hin as (i' & x' & [= -> ->] & Hx).
      cbn [fst snd]. apply strictEquals_spec. rewrite at_lookup, Hx. split; [done|].
      intros ->. apply Hnan. by eapply list_elem_of_lookup_2.
  - apply Nat.eqb_neq in Hlen. split; [done|]. intros [-> _]. done.
Qed.

Lemma setAddAll_elements (seen arr : list value) :
  NoDup seen ->
  NoDup (setAddAll seen arr) /\
  (forall x, x ∈ setAddAll seen arr <-> x ∈ seen \/ x ∈ arr) /\
  exists added, setAddAll seen arr = seen ++ added /\ sublist added arr.
Proof.
  revert seen. induction arr as [|y arr IH]; intros seen Hseen; cbn [setAddAll].
  - split; [done|]. split.
    + intros x. rewrite elem_of_nil. tauto.
    + exists []. by rewrite app_nil_r.
  - destruct (includes seen y) eqn:Hinc.
    + apply includes_elem_of in Hinc.
      destruct (IH seen Hseen) as (Hnd & Hin & added & Hadd & Hsub).
      split; [done|]. split.
      * intros x. rewrite Hin, elem_of_cons. split; [tauto|].
        intros [? | [-> | ?]]; tauto.
      * exists added. split; [done|]. by apply sublist_cons.
    + assert (y ∉ seen) as Hnot.
      { intros Hin. apply includes_elem_of in Hin. congruence. }
      destruct (IH (seen ++ [y])) as (Hnd & Hin & added & Hadd & Hsub).
      { apply NoDup_app. split; [done|]. split; [|apply NoDup_singleton].
        intros x Hx Hxy. apply list_elem_of_singleton in Hxy. by subst x. }
      split; [done|]. split.
      * intros x. rewrite Hin, elem_of_app, list_elem_of_singleton, elem_of_cons. tauto.
      * exists (y :: added). split; [by rewrite Hadd, <- app_assoc|].
        by apply sublist_skip.
Qed.

(** X29.  [unique(array)] holds the values of the array, each once,
    in the order of the array; it is the array itself exactly when the
    array has no value twice, and applying it again changes nothing.
    NaN counts as one value for it, while [countOccurrences], which
    compares with [===], never counts a NaN: in [unique(array)] every
    other value of the array is counted once. *)
Theorem unique_keeps_first (array : list value) :
  NoDup (Helpers.unique array) /\
  (forall x, x ∈ Helpers.unique array <-> x ∈ array) /\
  sublist (Helpers.unique array) array /\
  (Helpers.unique array = array <-> NoDup array) /\
  Helpers.unique (Helpers.unique array) = Helpers.unique array /\
  (forall x, Helpers.countOccurrences (Helpers.unique array) x =
             if bool_decide (x ∈ array /\ x <> VNaN) then 1%nat else 0%nat).
Proof.
  unfold Helpers.unique, spreadSet.
  destruct (setAddAll_elements [] array) as (Hnd & Hin & added & Hadd & Hsub);
    [constructor|].
  cbn [app] in Hadd.
  assert (forall l, NoDup l -> setAddAll [] l = l) as Hfix.
  { intros l Hl. destruct (setAddAll_elements [] l) as (_ & _ & more & Hmore & Hsubl);
      [constructor|].
    cbn [app] in Hmore. rewrite Hmore. apply sublist_whole; [done|].
    pose proof (proj2 (setAddAll_length_eq [] l)) as Hlen. cbn [length Nat.add] in Hlen.
    rewrite <- Hmore. apply Nat.eq_le_incl. symmetry. apply Hlen.
    split; [done|]. intros x _. apply not_elem_of_nil. }
  split; [done|]. split.
  { intros x. rewrite Hin, elem_of_nil. tauto. }
  split; [by rewrite Hadd|]. split.
  { split; [by intros <- | apply Hfix]. }
  split; [by apply Hfix|].
  intros x. unfold Helpers.countOccurrences.
  assert (forall l, NoDup l ->
            length (List.filter (fun item => strictEquals item x) l) =
              if bool_decide (x ∈ l /\ x <> VNaN) then 1%nat else 0%nat) as Hcount.
  { clear. induction l as [|y l IH]; intros Hl.
    - cbn. rewrite bool_decide_eq_false_2; [done|]. intros [?%elem_of_nil _]. done.
    - apply NoDup_cons in Hl as [Hy Hl]. cbn [List.filter]. specialize (IH Hl).
      destruct (strictEquals y x) eqn:Heq.
      + apply strictEquals_spec in Heq as [-> Hnan]. cbn [length]. rewrite IH.
        rewrite (bool_decide_eq_false_2 (x ∈ l /\ _)) by tauto.
        rewrite bool_decide_eq_true_2; [done|]. split; [apply elem_of_cons; by left | done].
      + rewrite IH.
        replace (bool_decide (x ∈ y :: l /\ x <> VNaN))
          with (bool_decide (x ∈ l /\ x <> VNaN)); [done|].
        apply bool_decide_ext. rewrite elem_of_cons.
        split; [tauto|]. intros [[-> | ?] Hnan]; [|tauto].
        assert (strictEquals y y = true) by (by apply strictEquals_spec). congruence. }
  rewrite Hcount by done.
  replace (bool_decide (x ∈ setAddAll [] array /\ x <> VNaN))
    with (bool_decide (x ∈ array /\ x <> VNaN)); [done|].
  apply bool_decide_ext. rewrite Hin, elem_of_nil. tauto.
Qed.

(** X30.  [getRelativeTime] in terms of the milliseconds elapsed:
    'just now' below one minute (and for a timestamp in the future),
    then whole minutes below one hour, whole hours below one day, and
    whole days, each the elapsed time divided by the length of the
    unit and rounded down, with the plural for more than one. *)
Theorem getRelativeTime_units (now timestamp : Z) :
  let diff := now - timestamp in
  let ago (n : Z) (unit_ : string) :=
    pretty n +:+ unit_ +:+ (if 1 <? n then "s" else "") +:+ " ago" in
  Helpers.getRelativeTime now timestamp =
    if diff <? 60000 then "just now"
    else if diff <? 3600000 then ago (diff / 60000) " minute"
    else if diff <? 86400000 then ago (diff / 3600000) " hour"
    else ago (diff / 86400000) " day".
Proof.
  cbv zeta. unfold Helpers.getRelativeTime.
  set (diff := now - timestamp).
  assert (diff / 1000 / 60 = diff / 60000) as Hmin
    by (rewrite Z.div_div by lia; done).
  assert (diff / 1000 / 60 / 60 = diff / 3600000) as Hhour
    by (rewrite !Z.div_div by lia; done).
  assert (diff / 1000 / 60 / 60 / 24 = diff / 86400000) as Hday
    by (rewrite !Z.div_div by lia; done).
  rewrite Hday, Hhour, Hmin.
  assert ((diff / 1000 <? 60) = (diff <? 60000)) as ->.
  { apply eq_true_iff_eq. rewrite !Z.ltb_lt.
    split; intros; Z.to_euclidean_division_equations; lia. }
  assert ((diff / 60000 <? 60) = (diff <? 3600000)) as ->.
  { apply eq_true_iff_eq. rewrite !Z.ltb_lt.
    split; intros; Z.to_euclidean_division_equations; lia. }
  assert ((diff / 3600000 <? 24) = (diff <? 86400000)) as ->.
  { apply eq_true_iff_eq. rewrite !Z.ltb_lt.
    split; intros; Z.to_euclidean_division_equations; lia. }
  done.
Qed.
